(** * browser-auto: orchestration, planning and LLM clients

    A shallow embedding of the Go packages [orchestrator], [planner],
    [auth] and [storage] of the repository, of its task and
    configuration handlers, of the presets of package [domain] and of
    the step numbering of package [docgen], and the properties proved
    over it: first those of the task pipeline, then those of the rest.

    Conventions.
    - A Go [string] is a byte string: Rocq's [string].  A Go [int] is a
      64-bit integer: [Z], with the wrap-around written where the code
      does arithmetic.  A [time.Time] and a [time.Duration] are [Z]
      nanoseconds.
    - A Go pointer that may be nil is an [option]; a function returning
      [(T, error)] returns a pair whose second component is
      [option error] ([None] is the nil error).  A nil pointer
      dereference is a panic, and a run ends either returned or
      panicked.
    - Everything outside the process (the browser driver behind the
      [browser.Controller] interface, the HTTP transport, the clock, the
      random source of [uuid.New], the [select] of the manual login, the
      document generators) is an oracle of the trace of calls made so
      far; the trace is part of the program state, most recent call
      first.  Time passes with calls only: two readings of the clock
      without a call in between give the same instant.
    - The task records live in a heap of addresses, because the memory
      store and the orchestrator hold pointers to the same record. *)

From Stdlib Require Import ZArith Ascii String List Lia.
From stdpp Require Import base option list strings gmap.

Local Open Scope string_scope.
Local Open Scope list_scope.
Local Open Scope Z_scope.
Set Warnings "-register-all".

(** ** Go basics *)

(** The double quote, and string literals written with an apostrophe
    where the Go source has a double quote. *)
Definition dquote : ascii := ascii_of_nat 34.

Fixpoint go_str (s : string) : string :=
  match s with
  | EmptyString => EmptyString
  | String c r => String (if Ascii.eqb c "'" then dquote else c) (go_str r)
  end.

(** The line feed, as a string. *)
Definition LF : string := String (ascii_of_nat 10) EmptyString.

(** Go [error] values: [errors.New]/[fmt.Errorf] without [%w], and
    [fmt.Errorf("<prefix>: %w", cause)]. *)
Inductive error : Type :=
| errors_New (msg : string)
| fmt_Errorf_w (prefix : string) (cause : error).

(** [err.Error()] *)
Fixpoint Error (e : error) : string :=
  match e with
  | errors_New msg => msg
  | fmt_Errorf_w prefix cause => prefix +:+ ": " +:+ Error cause
  end.

Definition int64_min : Z := - 2 ^ 63.
Definition int64_max : Z := 2 ^ 63 - 1.

(** Two's complement wrap-around of a Go [int]. *)
Definition wrap_int (z : Z) : Z := (z + 2 ^ 63) mod 2 ^ 64 - 2 ^ 63.

(** [fmt.Sprintf("%d", n)] *)
Fixpoint digits_of_pos (fuel : nat) (n : Z) (acc : string) : string :=
  match fuel with
  | O => acc
  | S fuel' =>
      let d := String (ascii_of_nat (48 + Z.to_nat (n mod 10))) acc in
      if n <? 10 then d else digits_of_pos fuel' (n / 10) d
  end.

Definition itoa (n : Z) : string :=
  if n <? 0 then "-" +:+ digits_of_pos 20 (- n) EmptyString
  else digits_of_pos 20 n EmptyString.

(** [fmt.Sprintf("%v", b)] *)
Definition btoa (b : bool) : string := if b then "true" else "false".

(** [strings.ToLower], on the ASCII letters. *)
Definition lower_ascii (c : ascii) : ascii :=
  let n := nat_of_ascii c in
  if ((65 <=? n) && (n <=? 90))%nat then ascii_of_nat (n + 32) else c.

Fixpoint ToLower (s : string) : string :=
  match s with
  | EmptyString => EmptyString
  | String c r => String (lower_ascii c) (ToLower r)
  end.

(** [strings.Contains] *)
Fixpoint Contains (s sub : string) : bool :=
  String.prefix sub s
  || match s with
     | EmptyString => false
     | String _ r => Contains r sub
     end.

(** ** encoding/json

    The part of Go's [encoding/json] the planner and the clients rely
    on: the grammar of RFC 8259 that [json.Unmarshal] checks before it
    decodes, and decoding into the structs of the [planner] package.
    Not reproduced: the texts of the package's error messages, the
    replacement of invalid UTF-8 by U+FFFD inside strings, the nesting
    limit of 10000, and the Unicode (non-ASCII) part of the
    case-insensitive match of member names. *)
Module json.

Inductive value : Type :=
| Null
| Bool (b : bool)
| Number (literal : string)
| Str (s : string)
| Array (elements : list value)
| Object (members : list (string * value)).

Definition SyntaxError : error := errors_New "json: syntax error".
Definition UnmarshalTypeError : error :=
  errors_New "json: cannot unmarshal value into Go value".

Definition is_space (c : ascii) : bool :=
  let n := nat_of_ascii c in
  ((n =? 32) || (n =? 9) || (n =? 10) || (n =? 13))%nat.

Definition is_digit (c : ascii) : bool :=
  let n := nat_of_ascii c in ((48 <=? n) && (n <=? 57))%nat.

Fixpoint skip_space (s : list ascii) : list ascii :=
  match s with
  | c :: r => if is_space c then skip_space r else s
  | [] => []
  end.

(** The longest run of digits at the head of [s]. *)
Fixpoint span_digits (s : list ascii) : list ascii * list ascii :=
  match s with
  | c :: r =>
      if is_digit c then let '(d, r') := span_digits r in (c :: d, r')
      else ([], s)
  | [] => ([], [])
  end.

(** A number literal: an optional minus sign, an integer part (a lone
    zero, or a non-zero digit and more digits), an optional fraction (a
    dot and digits) and an optional exponent (e or E, an optional sign,
    digits). *)
Definition scan_int_part (s : list ascii) : option (list ascii * list ascii) :=
  match s with
  | c :: r =>
      if Ascii.eqb c "0" then Some ([c], r)
      else if is_digit c then let '(d, r') := span_digits r in Some (c :: d, r')
      else None
  | [] => None
  end.

Definition scan_frac_part (s : list ascii) : option (list ascii * list ascii) :=
  match s with
  | c :: r =>
      if Ascii.eqb c "." then
        match span_digits r with
        | ([], _) => None
        | (d, r') => Some (c :: d, r')
        end
      else Some ([], s)
  | [] => Some ([], [])
  end.

Definition scan_exp_digits (pre : list ascii) (s : list ascii)
  : option (list ascii * list ascii) :=
  match span_digits s with
  | ([], _) => None
  | (d, r') => Some (pre ++ d, r')
  end.

Definition scan_exp_part (s : list ascii) : option (list ascii * list ascii) :=
  match s with
  | c :: r =>
      if Ascii.eqb c "e" || Ascii.eqb c "E" then
        match r with
        | sg :: r' =>
            if Ascii.eqb sg "+" || Ascii.eqb sg "-"
            then scan_exp_digits [c; sg] r'
            else scan_exp_digits [c] r
        | [] => None
        end
      else Some ([], s)
  | [] => Some ([], [])
  end.

Definition scan_number (s : list ascii) : option (list ascii * list ascii) :=
  let '(sign, s1) :=
    match s with
    | c :: r => if Ascii.eqb c "-" then ([c], r) else ([], s)
    | [] => ([], s)
    end in
  '(i, s2) ← scan_int_part s1;
  '(f, s3) ← scan_frac_part s2;
  '(e, s4) ← scan_exp_part s3;
  Some (sign ++ i ++ f ++ e, s4).

Definition hex_val (c : ascii) : option Z :=
  let n := Z.of_nat (nat_of_ascii c) in
  if (48 <=? n) && (n <=? 57) then Some (n - 48)
  else if (97 <=? n) && (n <=? 102) then Some (n - 87)
  else if (65 <=? n) && (n <=? 70) then Some (n - 55)
  else None.

Definition hex4 (a b c d : ascii) : option Z :=
  x3 ← hex_val a; x2 ← hex_val b; x1 ← hex_val c; x0 ← hex_val d;
  Some (x3 * 4096 + x2 * 256 + x1 * 16 + x0).

Definition byte_of (z : Z) : ascii := ascii_of_nat (Z.to_nat z).

(** [utf8.EncodeRune] *)
Definition utf8_encode (r : Z) : list ascii :=
  if r <? 128 then [byte_of r]
  else if r <? 2048 then [byte_of (192 + r / 64); byte_of (128 + r mod 64)]
  else if r <? 65536 then
    [byte_of (224 + r / 4096); byte_of (128 + (r / 64) mod 64);
     byte_of (128 + r mod 64)]
  else
    [byte_of (240 + r / 262144); byte_of (128 + (r / 4096) mod 64);
     byte_of (128 + (r / 64) mod 64); byte_of (128 + r mod 64)].

Definition is_surrogate (r : Z) : bool := (55296 <=? r) && (r <? 57344).
Definition replacement_char : Z := 65533.

(** The rune of [\uXXXX] at code [r], looking at what follows for the
    second half of a surrogate pair: the rune and the input after it. *)
Definition unescape_u (r : Z) (rest : list ascii) : Z * list ascii :=
  if is_surrogate r then
    match rest with
    | bs :: u :: a :: b :: c :: d :: rest' =>
        if Ascii.eqb bs "\" && Ascii.eqb u "u" then
          match hex4 a b c d with
          | Some r2 =>
              if (r <? 56320) && (56320 <=? r2) && (r2 <? 57344)
              then ((r - 55296) * 1024 + (r2 - 56320) + 65536, rest')
              else (replacement_char, rest)
          | None => (replacement_char, rest)
          end
        else (replacement_char, rest)
    | _ => (replacement_char, rest)
    end
  else (r, rest).

(** The body of a string literal, after its opening quote: the decoded
    bytes and the input after the closing quote. *)
Fixpoint scan_string (fuel : nat) (s : list ascii) (acc : list ascii)
  : option (string * list ascii) :=
  match fuel with
  | O => None
  | S fuel' =>
      match s with
      | [] => None
      | c :: r =>
          if Ascii.eqb c dquote then Some (string_of_list_ascii (rev acc), r)
          else if Ascii.eqb c "\" then
            match r with
            | e :: r' =>
                let simple (x : ascii) := scan_string fuel' r' (x :: acc) in
                if Ascii.eqb e dquote then simple dquote
                else if Ascii.eqb e "\" then simple e
                else if Ascii.eqb e "/" then simple e
                else if Ascii.eqb e "b" then simple (ascii_of_nat 8)
                else if Ascii.eqb e "f" then simple (ascii_of_nat 12)
                else if Ascii.eqb e "n" then simple (ascii_of_nat 10)
                else if Ascii.eqb e "r" then simple (ascii_of_nat 13)
                else if Ascii.eqb e "t" then simple (ascii_of_nat 9)
                else if Ascii.eqb e "u" then
                  match r' with
                  | a :: b :: c' :: d :: r'' =>
                      match hex4 a b c' d with
                      | Some code =>
                          let '(rune, rest) := unescape_u code r'' in
                          (* a first half without its second half is
                             decoded as U+FFFD and the scan goes on
                             right after it *)
                          scan_string fuel' rest (rev (utf8_encode rune) ++ acc)
                      | None => None
                      end
                  | _ => None
                  end
                else None
            | [] => None
            end
          else if (nat_of_ascii c <? 32)%nat then None
          else scan_string fuel' r (c :: acc)
      end
  end.

Definition expect_literal (lit : string) (v : value) (s : list ascii)
  : option (value * list ascii) :=
  let l := list_ascii_of_string lit in
  if decide (take (length l) s = l) then Some (v, drop (length l) s) else None.

(** One JSON value at the head of [s] (after white space) and the input
    after it.  [fuel] bounds the depth of the recursion; every level
    consumes a byte before it descends, so the length of the input is
    enough. *)
Fixpoint parse_value (fuel : nat) (s : list ascii) {struct fuel}
  : option (value * list ascii) :=
  match fuel with
  | O => None
  | S fuel' =>
      match skip_space s with
      | [] => None
      | c :: r =>
          if Ascii.eqb c "{" then
            match skip_space r with
            | c' :: r' =>
                if Ascii.eqb c' "}" then Some (Object [], r')
                else
                  '(ms, rest) ← parse_members fuel' (c' :: r');
                  Some (Object ms, rest)
            | [] => None
            end
          else if Ascii.eqb c "[" then
            match skip_space r with
            | c' :: r' =>
                if Ascii.eqb c' "]" then Some (Array [], r')
                else
                  '(vs, rest) ← parse_elements fuel' (c' :: r');
                  Some (Array vs, rest)
            | [] => None
            end
          else if Ascii.eqb c dquote then
            '(str, rest) ← scan_string (S (length r)) r [];
            Some (Str str, rest)
          else if Ascii.eqb c "t" then expect_literal "true" (Bool true) (c :: r)
          else if Ascii.eqb c "f" then expect_literal "false" (Bool false) (c :: r)
          else if Ascii.eqb c "n" then expect_literal "null" Null (c :: r)
          else
            '(lit, rest) ← scan_number (c :: r);
            Some (Number (string_of_list_ascii lit), rest)
      end
  end
(** The members of an object after its opening brace, up to and
    including the closing brace. *)
with parse_members (fuel : nat) (s : list ascii) {struct fuel}
  : option (list (string * value) * list ascii) :=
  match fuel with
  | O => None
  | S fuel' =>
      match skip_space s with
      | q :: r =>
          if Ascii.eqb q dquote then
            '(key, r1) ← scan_string (S (length r)) r [];
            match skip_space r1 with
            | colon :: r2 =>
                if Ascii.eqb colon ":" then
                  '(v, r3) ← parse_value fuel' r2;
                  match skip_space r3 with
                  | sep :: r4 =>
                      if Ascii.eqb sep "}" then Some ([(key, v)], r4)
                      else if Ascii.eqb sep "," then
                        '(ms, rest) ← parse_members fuel' r4;
                        Some ((key, v) :: ms, rest)
                      else None
                  | [] => None
                  end
                else None
            | [] => None
            end
          else None
      | [] => None
      end
  end
(** The elements of an array after its opening bracket, up to and
    including the closing bracket. *)
with parse_elements (fuel : nat) (s : list ascii) {struct fuel}
  : option (list value * list ascii) :=
  match fuel with
  | O => None
  | S fuel' =>
      '(v, r1) ← parse_value fuel' s;
      match skip_space r1 with
      | sep :: r2 =>
          if Ascii.eqb sep "]" then Some ([v], r2)
          else if Ascii.eqb sep "," then
            '(vs, rest) ← parse_elements fuel' r2;
            Some (v :: vs, rest)
          else None
      | [] => None
      end
  end.

(** The first JSON value of the input, as [Decoder.Decode] reads it:
    whatever follows the value is left in the stream. *)
Definition parse_prefix (data : string) : option (value * list ascii) :=
  let s := list_ascii_of_string data in
  parse_value (S (length s)) s.

(** The whole input as one JSON value, as [Unmarshal]'s validity check
    demands: only white space may follow the value. *)
Definition parse (data : string) : option value :=
  match parse_prefix data with
  | Some (v, rest) =>
      match skip_space rest with
      | [] => Some v
      | _ => None
      end
  | None => None
  end.

End json.

(** ** Package browser: the data of controller.go *)

(** [time.Duration] constants, in nanoseconds. *)
Definition Millisecond : Z := 1000000.
Definition Second : Z := 1000 * Millisecond.
Definition Minute : Z := 60 * Second.
Definition Hour : Z := 60 * Minute.

(** [Attributes] and [Rect] of an element are never read or written by
    the packages embedded here and are left out. *)
Module Element.
Record t : Type := mk
  { TagName : string; Selector : string; Text : string;
    Visible : bool; Clickable : bool }.
End Element.

Module PageSnapshot.
Record t : Type := mk
  { URL : string; Title : string; HTML : string; A11yTree : string;
    Elements : list Element.t; Timestamp : Z }.
End PageSnapshot.

Module ScreenshotOptions.
Record t : Type := mk { FullPage : bool; Quality : Z; Type_ : string }.
End ScreenshotOptions.

Definition ActionType : Type := string.
Definition ActionNavigate : ActionType := "navigate".
Definition ActionClick : ActionType := "click".
Definition ActionFill : ActionType := "fill".
Definition ActionHover : ActionType := "hover".
Definition ActionSelect : ActionType := "select".
Definition ActionScreenshot : ActionType := "screenshot".
Definition ActionWait : ActionType := "wait".
Definition ActionScroll : ActionType := "scroll".

(** ** Package domain *)

Module Cookie.
Record t : Type := mk
  { Name : string; Value : string; Domain : string; Path : string;
    Expires : Z; Secure : bool; HTTPOnly : bool }.
End Cookie.

Module Credentials.
Record t : Type := mk
  { Username : string; Password : string; Token : string; APIKey : string }.
End Credentials.

Module SSOConfig.
Record t : Type := mk
  { Provider : string; LoginURL : string; CallbackURL : string;
    ClientID : string; ClientSecret : string; TenantID : string;
    Domain : string }.
End SSOConfig.

Definition AuthType : Type := string.
Definition AuthTypeNone : AuthType := "none".
Definition AuthTypeForm : AuthType := "form".
Definition AuthTypeSSO : AuthType := "sso".
Definition AuthTypeManual : AuthType := "manual".
Definition AuthTypeCookie : AuthType := "cookie".
Definition AuthTypeToken : AuthType := "token".

Module AuthConfig.
Record t : Type := mk
  { Type_ : AuthType;
    Credentials : option Credentials.t;
    SSOConfig : option SSOConfig.t;
    SessionID : string;
    Cookies : list Cookie.t;
    Headers : gmap string string }.
End AuthConfig.

Module Session.
Record t : Type := mk
  { ID : string; UserID : string; Cookies : list Cookie.t;
    Headers : gmap string string; ExpiresAt : Z; CreatedAt : Z }.
End Session.

Definition LLMProvider : Type := string.
Definition LLMProviderOpenAI : LLMProvider := "openai".
Definition LLMProviderAnthropic : LLMProvider := "anthropic".
Definition LLMProviderAzure : LLMProvider := "azure".
Definition LLMProviderGoogle : LLMProvider := "google".
Definition LLMProviderDeepSeek : LLMProvider := "deepseek".
Definition LLMProviderQwen : LLMProvider := "qwen".
Definition LLMProviderZhipu : LLMProvider := "zhipu".
Definition LLMProviderMoonshot : LLMProvider := "moonshot".
Definition LLMProviderOllama : LLMProvider := "ollama".
Definition LLMProviderLocalProxy : LLMProvider := "local_proxy".
Definition LLMProviderCustom : LLMProvider := "custom".

(** A [float64] is kept as the two facts the clients look at: whether it
    is greater than zero, and whether it is finite ([json.Marshal]
    refuses NaN and the infinities). *)
Module float64.
Record t : Type := mk { positive : bool; finite : bool }.
End float64.

Module LLMOptions.
Record t : Type := mk
  { Temperature : float64.t; MaxTokens : Z; TopP : float64.t;
    FrequencyPenalty : float64.t; PresencePenalty : float64.t;
    Timeout : Z; RetryCount : Z }.
End LLMOptions.

Module LLMConfig.
Record t : Type := mk
  { Provider : LLMProvider; Model : string; Endpoint : string;
    APIKey : string; Options : option LLMOptions.t }.
Definition set_Endpoint (e : string) (c : t) : t :=
  mk (Provider c) (Model c) e (APIKey c) (Options c).
End LLMConfig.

Definition DocFormat : Type := string.
Definition DocFormatMarkdown : DocFormat := "markdown".
Definition DocFormatHTML : DocFormat := "html".
Definition DocFormatPDF : DocFormat := "pdf".
Definition DocFormatDOCX : DocFormat := "docx".

(** Of the output configuration the orchestrator reads [Formats]; the
    screenshot, style and content blocks only reach the document
    generators and are left out. *)
Module OutputConfig.
Record t : Type := mk
  { Formats : list DocFormat; Language : string; Title : string }.
End OutputConfig.

Module Screenshot.
Record t : Type := mk
  { ID : string; URL : string; StepOrder : Z; Width : Z; Height : Z;
    CreatedAt : Z }.
End Screenshot.

Module DocumentInfo.
Record t : Type := mk
  { ID : string; Format : DocFormat; URL : string; Content : string;
    Size : Z; CreatedAt : Z }.
End DocumentInfo.

(** [domain.StepResult] *)
Module TaskStep.
Record t : Type := mk
  { Order : Z; Action : string; Description : string; Success : bool;
    Error : string; Screenshot : option Screenshot.t; ExecutedAt : Z }.
End TaskStep.

Module TaskResult.
Record t : Type := mk
  { Steps : list TaskStep.t; Screenshots : list Screenshot.t;
    Documents : list DocumentInfo.t; Duration : Z }.
End TaskResult.

Definition TaskStatus : Type := string.
Definition TaskStatusPending : TaskStatus := "pending".
Definition TaskStatusRunning : TaskStatus := "running".
Definition TaskStatusCompleted : TaskStatus := "completed".
Definition TaskStatusFailed : TaskStatus := "failed".
Definition TaskStatusCancelled : TaskStatus := "cancelled".

Module Task.
Record t : Type := mk
  { ID : string; Description : string; TargetURL : string;
    Status : TaskStatus;
    Auth : option AuthConfig.t;
    LLM : option LLMConfig.t;
    Output : option OutputConfig.t;
    Result : option TaskResult.t;
    ErrorMessage : string;
    CreatedAt : Z; UpdatedAt : Z; CompletedAt : option Z }.

Definition set_Status (s : TaskStatus) (x : t) : t :=
  mk (ID x) (Description x) (TargetURL x) s (Auth x) (LLM x) (Output x)
     (Result x) (ErrorMessage x) (CreatedAt x) (UpdatedAt x) (CompletedAt x).
Definition set_LLM (c : option LLMConfig.t) (x : t) : t :=
  mk (ID x) (Description x) (TargetURL x) (Status x) (Auth x) c (Output x)
     (Result x) (ErrorMessage x) (CreatedAt x) (UpdatedAt x) (CompletedAt x).
Definition set_Result (r : option TaskResult.t) (x : t) : t :=
  mk (ID x) (Description x) (TargetURL x) (Status x) (Auth x) (LLM x)
     (Output x) r (ErrorMessage x) (CreatedAt x) (UpdatedAt x) (CompletedAt x).
Definition set_ErrorMessage (m : string) (x : t) : t :=
  mk (ID x) (Description x) (TargetURL x) (Status x) (Auth x) (LLM x)
     (Output x) (Result x) m (CreatedAt x) (UpdatedAt x) (CompletedAt x).
Definition set_UpdatedAt (z : Z) (x : t) : t :=
  mk (ID x) (Description x) (TargetURL x) (Status x) (Auth x) (LLM x)
     (Output x) (Result x) (ErrorMessage x) (CreatedAt x) z (CompletedAt x).
Definition set_CompletedAt (z : option Z) (x : t) : t :=
  mk (ID x) (Description x) (TargetURL x) (Status x) (Auth x) (LLM x)
     (Output x) (Result x) (ErrorMessage x) (CreatedAt x) (UpdatedAt x) z.
End Task.

(** ** Package planner: the data of planner.go and llm_client.go *)

Module ActionStep.
Record t : Type := mk
  { Order : Z; Action : ActionType; Target : string; Value : string;
    WaitFor : string; Screenshot : bool; Description : string }.
Definition zero : t :=
  mk 0 EmptyString EmptyString EmptyString EmptyString false EmptyString.
End ActionStep.

Module TaskPlan.
Record t : Type := mk
  { TaskID : string; Description : string; Steps : list ActionStep.t }.
Definition zero : t := mk EmptyString EmptyString [].
End TaskPlan.

Module PlanRequest.
Record t : Type := mk
  { UserInput : string; TargetURL : string;
    PageSnapshot : option PageSnapshot.t }.
End PlanRequest.

(** [planner.StepResult]; its [Screenshot] bytes are never set. *)
Module StepResult.
Record t : Type := mk { Success : bool; Error : string; Screenshot : string }.
End StepResult.

Module Message.
Record t : Type := mk { Role : string; Content : string }.
End Message.

Module Usage.
Record t : Type := mk
  { PromptTokens : Z; CompletionTokens : Z; TotalTokens : Z }.
Definition zero : t := mk 0 0 0.
End Usage.

Module Response.
Record t : Type := mk
  { Content : string; FinishReason : string; Usage : option Usage.t }.
End Response.

(** ** planner.go: prompts *)

Definition systemPrompt : string :=
  "你是一个浏览器自动化专家，负责将用户的自然语言任务描述转换为可执行的浏览器操作步骤。

你的输出必须是有效的 JSON 格式，包含以下字段：
- task_id: 任务唯一标识
- description: 任务描述
- steps: 操作步骤数组

每个步骤包含：
- order: 步骤序号
- action: 操作类型（navigate/click/fill/hover/screenshot/wait）
- target: 目标（URL 或 CSS 选择器）
- value: 输入值（可选）
- wait_for: 等待条件（可选）
- screenshot: 是否截图
- description: 步骤描述（用户友好）

确保生成的选择器是稳定可靠的，优先使用 id、name 属性。".

(** [formatElements]: at most 20 elements are listed. *)
Fixpoint formatElements_loop (total i : Z) (elements : list Element.t)
  (result : string) : string :=
  match elements with
  | [] => result
  | el :: rest =>
      if 20 <=? i then
        result +:+ "... 还有 " +:+ itoa (total - 20) +:+ " 个元素" +:+ LF
      else
        formatElements_loop total (i + 1) rest
          (result +:+ "- <" +:+ Element.TagName el +:+ "> "
                  +:+ Element.Text el +:+ LF)
  end.

Definition formatElements (elements : list Element.t) : string :=
  match elements with
  | [] => "（无可交互元素）"
  | _ => formatElements_loop (Z.of_nat (length elements)) 0 elements EmptyString
  end.

(** [buildTaskParsePrompt] *)
Definition pageInfo_of (snapshot : option PageSnapshot.t) : string :=
  match snapshot with
  | Some snap =>
      "
当前页面 URL: "
      +:+ PageSnapshot.URL snap
      +:+ "
页面标题: "
      +:+ PageSnapshot.Title snap
      +:+ "

可交互元素:
"
      +:+ formatElements (PageSnapshot.Elements snap)
  | None => EmptyString
  end.

Definition buildTaskParsePrompt (req : PlanRequest.t) : string :=
  "## 用户任务
"
  +:+ PlanRequest.UserInput req
  +:+ "

## 目标网站
"
  +:+ PlanRequest.TargetURL req
  +:+ "
"
  +:+ pageInfo_of (PlanRequest.PageSnapshot req)
  +:+ go_str "

## 输出要求
生成 JSON 格式的操作步骤列表，格式如下：
{
  'task_id': 'uuid',
  'description': '任务总体描述',
  'steps': [
    {
      'order': 1,
      'action': 'navigate|click|fill|hover|screenshot|wait',
      'target': 'CSS选择器或URL',
      'value': '输入值（如适用）',
      'wait_for': '等待条件（如适用）',
      'screenshot': true,
      'description': '用户友好的步骤说明'
    }
  ]
}

## 注意事项
1. 优先使用稳定的选择器（id > name > class > xpath）
2. 每个关键操作后添加截图（screenshot: true）
3. 步骤说明要清晰易懂，面向普通用户
4. 包含必要的等待步骤，确保页面加载完成

请输出 JSON：".

(** The prompt of [RefineStep]. *)
Definition refinePrompt (step : ActionStep.t) (snapshot : PageSnapshot.t)
  : string :=
  "当前步骤执行失败，请根据页面状态优化选择器。

原步骤:
- 操作: "
  +:+ ActionStep.Action step
  +:+ "
- 目标: "
  +:+ ActionStep.Target step
  +:+ "
- 描述: "
  +:+ ActionStep.Description step
  +:+ "

当前页面 URL: "
  +:+ PageSnapshot.URL snapshot
  +:+ "
页面标题: "
  +:+ PageSnapshot.Title snapshot
  +:+ "

可交互元素:
"
  +:+ formatElements (PageSnapshot.Elements snapshot)
  +:+ "

请输出优化后的步骤 JSON。".

(** ** Decoding JSON into the structs of package planner

    [json.Unmarshal] decodes into the value its target already holds:
    a member whose name matches no field is skipped, [null] leaves a
    field as it is (and makes a slice nil), a value of the wrong kind
    leaves the field as it is and is remembered as the error to return,
    and decoding goes on with the next member.  Every function below
    therefore takes the current value of its target and returns the new
    one with the first error met. *)
Module decode.
Import json.

Definition first_error (e1 e2 : option error) : option error :=
  match e1 with
  | Some _ => e1
  | None => e2
  end.

Definition digit_val (c : ascii) : Z := Z.of_nat (nat_of_ascii c) - 48.

(** [strconv.ParseInt(lit, 10, 64)] on a JSON number literal. *)
Definition parse_int64 (lit : string) : option Z :=
  let s := list_ascii_of_string lit in
  let '(neg, ds) :=
    match s with
    | c :: r => if Ascii.eqb c "-" then (true, r) else (false, s)
    | [] => (false, s)
    end in
  match ds with
  | [] => None
  | _ =>
      if forallb is_digit ds then
        let n := fold_left (fun a c => a * 10 + digit_val c) ds 0 in
        let z := if neg then - n else n in
        if (int64_min <=? z) && (z <=? int64_max) then Some z else None
      else None
  end.

Definition string_ (v : value) (cur : string) : string * option error :=
  match v with
  | Str s => (s, None)
  | Null => (cur, None)
  | _ => (cur, Some UnmarshalTypeError)
  end.

Definition int_ (v : value) (cur : Z) : Z * option error :=
  match v with
  | Number lit =>
      match parse_int64 lit with
      | Some n => (n, None)
      | None => (cur, Some UnmarshalTypeError)
      end
  | Null => (cur, None)
  | _ => (cur, Some UnmarshalTypeError)
  end.

Definition bool_ (v : value) (cur : bool) : bool * option error :=
  match v with
  | Bool b => (b, None)
  | Null => (cur, None)
  | _ => (cur, Some UnmarshalTypeError)
  end.

(** The members of an object, in their order, each decoded by [field]
    (which gets the member name folded to lower case). *)
Fixpoint members {T : Type} (field : string -> value -> T -> T * option error)
  (ms : list (string * value)) (cur : T) : T * option error :=
  match ms with
  | [] => (cur, None)
  | (k, v) :: rest =>
      let '(c1, e1) := field (ToLower k) v cur in
      let '(c2, e2) := members field rest c1 in
      (c2, first_error e1 e2)
  end.

Definition struct_ {T : Type} (field : string -> value -> T -> T * option error)
  (v : value) (cur : T) : T * option error :=
  match v with
  | Object ms => members field ms cur
  | Null => (cur, None)
  | _ => (cur, Some UnmarshalTypeError)
  end.

Fixpoint elements {T : Type} (elem : value -> T * option error)
  (vs : list value) : list T * option error :=
  match vs with
  | [] => ([], None)
  | v :: rest =>
      let '(x, e1) := elem v in
      let '(xs, e2) := elements elem rest in
      (x :: xs, first_error e1 e2)
  end.

(** A slice is emptied and refilled, every element decoded into a zero
    value. *)
Definition slice_ {T : Type} (elem : value -> T -> T * option error) (zero : T)
  (v : value) (cur : list T) : list T * option error :=
  match v with
  | Array vs => elements (fun x => elem x zero) vs
  | Null => ([], None)
  | _ => (cur, Some UnmarshalTypeError)
  end.

Definition ActionStep_field (k : string) (v : value) (s : ActionStep.t)
  : ActionStep.t * option error :=
  let '(ActionStep.mk o a t vl w sc d) := s in
  if String.eqb k "order" then
    let '(x, e) := int_ v o in (ActionStep.mk x a t vl w sc d, e)
  else if String.eqb k "action" then
    let '(x, e) := string_ v a in (ActionStep.mk o x t vl w sc d, e)
  else if String.eqb k "target" then
    let '(x, e) := string_ v t in (ActionStep.mk o a x vl w sc d, e)
  else if String.eqb k "value" then
    let '(x, e) := string_ v vl in (ActionStep.mk o a t x w sc d, e)
  else if String.eqb k "wait_for" then
    let '(x, e) := string_ v w in (ActionStep.mk o a t vl x sc d, e)
  else if String.eqb k "screenshot" then
    let '(x, e) := bool_ v sc in (ActionStep.mk o a t vl w x d, e)
  else if String.eqb k "description" then
    let '(x, e) := string_ v d in (ActionStep.mk o a t vl w sc x, e)
  else (s, None).

Definition ActionStep_ := struct_ ActionStep_field.

Definition TaskPlan_field (k : string) (v : value) (p : TaskPlan.t)
  : TaskPlan.t * option error :=
  let '(TaskPlan.mk id d steps) := p in
  if String.eqb k "task_id" then
    let '(x, e) := string_ v id in (TaskPlan.mk x d steps, e)
  else if String.eqb k "description" then
    let '(x, e) := string_ v d in (TaskPlan.mk id x steps, e)
  else if String.eqb k "steps" then
    let '(x, e) := slice_ ActionStep_ ActionStep.zero v steps in
    (TaskPlan.mk id d x, e)
  else (p, None).

Definition TaskPlan_ := struct_ TaskPlan_field.

End decode.

(** [json.Unmarshal([]byte(data), &plan)] for a [TaskPlan]: the plan
    afterwards and the error. *)
Definition Unmarshal_TaskPlan (data : string) (plan : TaskPlan.t)
  : TaskPlan.t * option error :=
  match json.parse data with
  | None => (plan, Some json.SyntaxError)
  | Some v => decode.TaskPlan_ v plan
  end.

(** [json.Unmarshal([]byte(data), &refined)] for an [ActionStep]. *)
Definition Unmarshal_ActionStep (data : string) (step : ActionStep.t)
  : ActionStep.t * option error :=
  match json.parse data with
  | None => (step, Some json.SyntaxError)
  | Some v => decode.ActionStep_ v step
  end.

(** ** planner.go: extractJSON

    The Go loop ranges over the runes of [content] with their byte
    offsets.  The two braces are ASCII and no byte of a longer UTF-8
    sequence (nor an invalid byte, which ranges as U+FFFD) equals one,
    so the loop is embedded over the bytes.  [start] and [end_] keep the
    sentinel -1 of the source. *)
Fixpoint extractJSON_loop (s : list ascii) (i start depth : Z) : Z * Z :=
  match s with
  | [] => (start, -1)
  | c :: rest =>
      if Ascii.eqb c "{" then
        extractJSON_loop rest (i + 1) (if start =? -1 then i else start)
          (depth + 1)
      else if Ascii.eqb c "}" then
        let depth' := depth - 1 in
        if depth' =? 0 then (start, i + 1)
        else extractJSON_loop rest (i + 1) start depth'
      else extractJSON_loop rest (i + 1) start depth
  end.

Definition extractJSON (content : string) : string :=
  let '(start, end_) :=
    extractJSON_loop (list_ascii_of_string content) 0 (-1) 0 in
  if negb (start =? -1) && negb (end_ =? -1) then
    String.substring (Z.to_nat start) (Z.to_nat (end_ - start)) content
  else content.

(** Lines 76 to 85 of [ParseTask]: the plan decoded from the reply of
    the model.  Both [json.Unmarshal] calls write into the same
    [plan]. *)
Definition plan_of_reply (content : string) : option TaskPlan.t * option error :=
  let '(plan, err1) := Unmarshal_TaskPlan content TaskPlan.zero in
  match err1 with
  | None => (Some plan, None)
  | Some _ =>
      let jsonStr := extractJSON content in
      let '(plan', err2) := Unmarshal_TaskPlan jsonStr plan in
      match err2 with
      | Some e => (None, Some (fmt_Errorf_w "parse plan" e))
      | None => (Some plan', None)
      end
  end.

(** Lines 118 to 124 of [RefineStep]: the step decoded from the reply. *)
Definition step_of_reply (content : string) : option ActionStep.t * option error :=
  let jsonStr := extractJSON content in
  let '(refined, err) := Unmarshal_ActionStep jsonStr ActionStep.zero in
  match err with
  | Some e => (None, Some (fmt_Errorf_w "parse refined step" e))
  | None => (Some refined, None)
  end.

(** Following the spec's words, "the first balanced brace-delimited
    substring" of a reply: the leftmost substring that starts with an
    opening brace and ends with the closing brace that matches it.
    [matching_brace s depth] is the length of the prefix of [s] that ends
    with the brace closing the one opened [depth] braces deep before
    [s]. *)
Fixpoint matching_brace (s : list ascii) (depth : nat) : option nat :=
  match s with
  | [] => None
  | c :: rest =>
      if Ascii.eqb c "{" then S <$> matching_brace rest (S depth)
      else if Ascii.eqb c "}" then
        match depth with
        | O => Some 1%nat
        | S depth' => S <$> matching_brace rest depth'
        end
      else S <$> matching_brace rest depth
  end.

Fixpoint spec_first_balanced_loop (s : list ascii) : option (list ascii) :=
  match s with
  | [] => None
  | c :: rest =>
      if Ascii.eqb c "{" then
        match matching_brace rest 0 with
        | Some n => Some (c :: take n rest)
        | None => spec_first_balanced_loop rest
        end
      else spec_first_balanced_loop rest
  end.

Definition spec_first_balanced (content : string) : option string :=
  string_of_list_ascii <$> spec_first_balanced_loop (list_ascii_of_string content).

(** ** net/http, as the clients use it *)

(** The request body of the chat endpoints is the Go map
    [{model, messages, temperature?, max_tokens?}] handed to
    [json.Marshal]; the request keeps it in that form. *)
Module ChatBody.
Record t : Type := mk
  { model : string; messages : list Message.t;
    temperature : option float64.t; max_tokens : option Z }.
End ChatBody.

(** [req.Header.Set] replaces the value of a header; the header names
    are kept as the source writes them (net/http sends them in
    canonical case, and header names are case-insensitive). *)
Module Request.
Record t : Type := mk
  { Method : string; URL : string; Header : gmap string string;
    Body : ChatBody.t }.
Definition Header_Set (k v : string) (r : t) : t :=
  mk (Method r) (URL r) (<[k := v]> (Header r)) (Body r).
End Request.

(** The response, its body read to the end. *)
Module HttpResponse.
Record t : Type := mk { Status : string; StatusCode : Z; Body : string }.
End HttpResponse.

Definition StatusOK : Z := 200.

(** [docgen.Document] *)
Module Document.
Record t : Type := mk
  { Title : string; Content : string; Format : DocFormat; CreatedAt : Z }.
End Document.

(** ** The world outside the process *)

(** The calls that leave the process.  [Sleep] is [time.Sleep];
    [UuidNew] is [uuid.New]; [ManualSelect] is one round of the
    [select] of the manual login; [Generate] is the [Generate] of the
    document generator of a format (rendering is an outside
    collaborator of the pipeline and is not embedded). *)
Module Call.
Inductive t : Type :=
| Connect
| Close
| Navigate (url : string)
| GetCurrentURL
| WaitForNavigation (timeout : Z)
| Click (selector : string)
| Fill (selector value : string)
| Hover (selector : string)
| Select (selector value : string)
| WaitForSelector (selector : string) (timeout : Z)
| TakeSnapshot
| TakeScreenshot (opts : ScreenshotOptions.t)
| GetCookies
| SetCookies (cookies : list Cookie.t)
| Sleep (d : Z)
| UuidNew
| HttpDo (req : Request.t)
| ManualSelect
| Generate (format : DocFormat) (plan : TaskPlan.t)
    (results : list StepResult.t).
End Call.

(** What a round of the manual login's [select] receives. *)
Inductive ManualEvent : Type :=
| ContextDone (err : error)
| TimeoutFired
| Tick.

(** The environment answers every call as a function of the trace,
    whose head is the call being answered.  A driver method returning
    [(T, error)] answers with both components, as any implementation of
    the interface may; [http.Client.Do] and the generators return
    either a value or an error.  [clock] is [time.Now()] at a point of
    the trace. *)
Record Env : Type := mkEnv
  { driver_error : list Call.t -> option error;
    driver_url : list Call.t -> string * option error;
    driver_snapshot : list Call.t -> option PageSnapshot.t * option error;
    driver_screenshot : list Call.t -> string * option error;
    driver_cookies : list Call.t -> list Cookie.t * option error;
    clock : list Call.t -> Z;
    uuid : list Call.t -> string;
    http_NewRequest_error : string -> option error;
    http_Do : list Call.t -> HttpResponse.t + error;
    manual_select : list Call.t -> ManualEvent;
    docgen_Generate : list Call.t -> Document.t + error }.

(** The state of the process: the trace, and the task records.  A
    [*domain.Task] is an address in [heap]; the memory store maps task
    ids to addresses, so the store and the orchestrator share one
    record per task. *)
Record State : Type := mkState
  { trace : list Call.t;
    heap : gmap nat Task.t;
    tasks : gmap string nat }.

Definition set_trace (tr : list Call.t) (st : State) : State :=
  mkState tr (heap st) (tasks st).
Definition set_heap (h : gmap nat Task.t) (st : State) : State :=
  mkState (trace st) h (tasks st).
Definition set_tasks (m : gmap string nat) (st : State) : State :=
  mkState (trace st) (heap st) m.

(** A computation either returns or panics (a nil pointer dereference
    is the one panic of the embedded code). *)
Inductive Outcome (A : Type) : Type :=
| Returned (a : A) (st : State)
| Panicked (reason : string) (st : State).
Arguments Returned {A} a st.
Arguments Panicked {A} reason st.

Definition M (A : Type) : Type := State -> Outcome A.

Definition M_ret {A : Type} (a : A) : M A := fun st => Returned a st.

Definition M_bind {A B : Type} (f : A -> M B) (m : M A) : M B :=
  fun st =>
    match m st with
    | Returned a st' => f a st'
    | Panicked reason st' => Panicked reason st'
    end.

#[global] Instance M_mret : MRet M := @M_ret.
#[global] Instance M_mbind : MBind M := @M_bind.

Definition panic {A : Type} (reason : string) : M A :=
  fun st => Panicked reason st.

Definition nil_dereference : string :=
  "runtime error: invalid memory address or nil pointer dereference".

Definition get_state : M State := fun st => Returned st st.

(** [defer f]: [f] runs when [body] returns and when it panics. *)
Definition defer_ {A B : Type} (f : M B) (body : M A) : M A :=
  fun st =>
    match body st with
    | Returned a st1 =>
        match f st1 with
        | Returned _ st2 => Returned a st2
        | Panicked reason st2 => Panicked reason st2
        end
    | Panicked reason st1 =>
        match f st1 with
        | Returned _ st2 => Panicked reason st2
        | Panicked reason' st2 => Panicked reason' st2
        end
    end.

(** Make a call: the trace grows by it, and the new trace is what the
    environment answers from. *)
Definition call (c : Call.t) : M (list Call.t) :=
  fun st => let tr := c :: trace st in Returned tr (set_trace tr st).

(** The value and the state a run ends with. *)
Definition value_of {A : Type} (o : Outcome A) (default : A) : A :=
  match o with
  | Returned a _ => a
  | Panicked _ _ => default
  end.

Definition state_of {A : Type} (o : Outcome A) : State :=
  match o with
  | Returned _ st => st
  | Panicked _ st => st
  end.

(** ** llm_client.go: the wire formats of the two providers *)

Module OpenAIChoice.
Record t : Type := mk { Message_Content : string; FinishReason : string }.
Definition zero : t := mk EmptyString EmptyString.
End OpenAIChoice.

Module OpenAIResponse.
Record t : Type := mk { Choices : list OpenAIChoice.t; Usage : Usage.t }.
Definition zero : t := mk [] Usage.zero.
End OpenAIResponse.

Module AnthropicBlock.
Record t : Type := mk { Text : string }.
Definition zero : t := mk EmptyString.
End AnthropicBlock.

Module AnthropicUsage.
Record t : Type := mk { InputTokens : Z; OutputTokens : Z }.
Definition zero : t := mk 0 0.
End AnthropicUsage.

Module AnthropicResponse.
Record t : Type := mk
  { Content : list AnthropicBlock.t; StopReason : string;
    Usage : AnthropicUsage.t }.
Definition zero : t := mk [] EmptyString AnthropicUsage.zero.
End AnthropicResponse.

Module wire.
Import json decode.

Definition message_field (k : string) (v : value) (content : string)
  : string * option error :=
  if String.eqb k "content" then string_ v content else (content, None).

Definition choice_field (k : string) (v : value) (c : OpenAIChoice.t)
  : OpenAIChoice.t * option error :=
  let '(OpenAIChoice.mk content reason) := c in
  if String.eqb k "message" then
    let '(x, e) := struct_ message_field v content in
    (OpenAIChoice.mk x reason, e)
  else if String.eqb k "finish_reason" then
    let '(x, e) := string_ v reason in (OpenAIChoice.mk content x, e)
  else (c, None).

Definition usage_field (k : string) (v : value) (u : Usage.t)
  : Usage.t * option error :=
  let '(Usage.mk p c t) := u in
  if String.eqb k "prompt_tokens" then
    let '(x, e) := int_ v p in (Usage.mk x c t, e)
  else if String.eqb k "completion_tokens" then
    let '(x, e) := int_ v c in (Usage.mk p x t, e)
  else if String.eqb k "total_tokens" then
    let '(x, e) := int_ v t in (Usage.mk p c x, e)
  else (u, None).

Definition openai_field (k : string) (v : value) (r : OpenAIResponse.t)
  : OpenAIResponse.t * option error :=
  let '(OpenAIResponse.mk choices usage) := r in
  if String.eqb k "choices" then
    let '(x, e) :=
      slice_ (struct_ choice_field) OpenAIChoice.zero v choices in
    (OpenAIResponse.mk x usage, e)
  else if String.eqb k "usage" then
    let '(x, e) := struct_ usage_field v usage in
    (OpenAIResponse.mk choices x, e)
  else (r, None).

Definition block_field (k : string) (v : value) (b : AnthropicBlock.t)
  : AnthropicBlock.t * option error :=
  if String.eqb k "text" then
    let '(x, e) := string_ v (AnthropicBlock.Text b) in
    (AnthropicBlock.mk x, e)
  else (b, None).

Definition anthropic_usage_field (k : string) (v : value)
  (u : AnthropicUsage.t) : AnthropicUsage.t * option error :=
  let '(AnthropicUsage.mk i o) := u in
  if String.eqb k "input_tokens" then
    let '(x, e) := int_ v i in (AnthropicUsage.mk x o, e)
  else if String.eqb k "output_tokens" then
    let '(x, e) := int_ v o in (AnthropicUsage.mk i x, e)
  else (u, None).

Definition anthropic_field (k : string) (v : value) (r : AnthropicResponse.t)
  : AnthropicResponse.t * option error :=
  let '(AnthropicResponse.mk content stop usage) := r in
  if String.eqb k "content" then
    let '(x, e) :=
      slice_ (struct_ block_field) AnthropicBlock.zero v content in
    (AnthropicResponse.mk x stop usage, e)
  else if String.eqb k "stop_reason" then
    let '(x, e) := string_ v stop in (AnthropicResponse.mk content x usage, e)
  else if String.eqb k "usage" then
    let '(x, e) := struct_ anthropic_usage_field v usage in
    (AnthropicResponse.mk content stop x, e)
  else (r, None).

End wire.

(** [json.NewDecoder(resp.Body).Decode(&result)]: the first JSON value
    of the body is decoded, what follows it is not looked at. *)
Definition Decode_OpenAIResponse (body : string)
  : OpenAIResponse.t * option error :=
  match json.parse_prefix body with
  | None => (OpenAIResponse.zero, Some json.SyntaxError)
  | Some (v, _) => decode.struct_ wire.openai_field v OpenAIResponse.zero
  end.

Definition Decode_AnthropicResponse (body : string)
  : AnthropicResponse.t * option error :=
  match json.parse_prefix body with
  | None => (AnthropicResponse.zero, Some json.SyntaxError)
  | Some (v, _) => decode.struct_ wire.anthropic_field v AnthropicResponse.zero
  end.

(** [json.Marshal(reqBody)]: the only value of the map that cannot be
    encoded is a float that is not finite. *)
Definition json_Marshal (body : ChatBody.t) : ChatBody.t + error :=
  match ChatBody.temperature body with
  | Some t =>
      if float64.finite t then inl body
      else inr (errors_New "json: unsupported value")
  | None => inl body
  end.

(** The interface [planner.LLMClient]. *)
Record LLMClient : Type := mkLLMClient
  { Chat : list Message.t -> M (option Response.t * option error);
    Validate : M (option error) }.

Module OpenAICompatibleClient.
Record t : Type := mk { config : LLMConfig.t }.
End OpenAICompatibleClient.

Module AnthropicClient.
Record t : Type := mk { config : LLMConfig.t }.
End AnthropicClient.

(** Both constructors receive the configuration by pointer, write the
    default endpoint into it and keep the pointer: the configuration the
    client holds is the caller's record after that write. *)
Definition NewOpenAICompatibleClient (config : LLMConfig.t)
  : OpenAICompatibleClient.t :=
  let p := LLMConfig.Provider config in
  OpenAICompatibleClient.mk
    (if String.eqb (LLMConfig.Endpoint config) EmptyString then
       if String.eqb p LLMProviderOpenAI then
         LLMConfig.set_Endpoint "https://api.openai.com/v1" config
       else if String.eqb p LLMProviderDeepSeek then
         LLMConfig.set_Endpoint "https://api.deepseek.com/v1" config
       else if String.eqb p LLMProviderOllama then
         LLMConfig.set_Endpoint "http://localhost:11434/v1" config
       else if String.eqb p LLMProviderMoonshot then
         LLMConfig.set_Endpoint "https://api.moonshot.cn/v1" config
       else if String.eqb p LLMProviderQwen then
         LLMConfig.set_Endpoint
           "https://dashscope.aliyuncs.com/compatible-mode/v1" config
       else config
     else config).

Definition NewAnthropicClient (config : LLMConfig.t) : AnthropicClient.t :=
  AnthropicClient.mk
    (if String.eqb (LLMConfig.Endpoint config) EmptyString then
       LLMConfig.set_Endpoint "https://api.anthropic.com/v1" config
     else config).

(** The request bodies of the two [Chat] methods. *)
Definition OpenAI_reqBody (config : LLMConfig.t) (messages : list Message.t)
  : ChatBody.t :=
  match LLMConfig.Options config with
  | Some o =>
      ChatBody.mk (LLMConfig.Model config) messages
        (if float64.positive (LLMOptions.Temperature o)
         then Some (LLMOptions.Temperature o) else None)
        (if LLMOptions.MaxTokens o >? 0
         then Some (LLMOptions.MaxTokens o) else None)
  | None => ChatBody.mk (LLMConfig.Model config) messages None None
  end.

Definition Anthropic_reqBody (config : LLMConfig.t) (messages : list Message.t)
  : ChatBody.t :=
  match LLMConfig.Options config with
  | Some o =>
      ChatBody.mk (LLMConfig.Model config) messages
        (if float64.positive (LLMOptions.Temperature o)
         then Some (LLMOptions.Temperature o) else None)
        (if LLMOptions.MaxTokens o >? 0
         then Some (LLMOptions.MaxTokens o) else Some 4096)
  | None => ChatBody.mk (LLMConfig.Model config) messages None (Some 4096)
  end.

(** The variables of [ExecuteTask] that the step loop reads and
    writes. *)
Module Loop.
Record t : Type := mk
  { stepResults : list StepResult.t;
    screenshots : list Screenshot.t;
    snapshot : option PageSnapshot.t }.
End Loop.

(** * The program, in an environment

    Not embedded: the [log.Printf] lines (they write to the process log
    and read only values that are in scope, apart from the pointer
    dereferences noted where they matter), and the [context.Context]
    argument, whose cancellation reaches this code only through the
    answers of the environment. *)
Section Program.
Context (env : Env).

(** ** The browser driver, [time] and [uuid] *)

Definition driver (c : Call.t) : M (option error) :=
  tr ← call c; mret (driver_error env tr).

Definition browser_Connect : M (option error) := driver Call.Connect.
Definition browser_Close : M (option error) := driver Call.Close.
Definition browser_Navigate (url : string) := driver (Call.Navigate url).
Definition browser_WaitForNavigation (timeout : Z) :=
  driver (Call.WaitForNavigation timeout).
Definition browser_Click (selector : string) := driver (Call.Click selector).
Definition browser_Fill (selector value : string) :=
  driver (Call.Fill selector value).
Definition browser_Hover (selector : string) := driver (Call.Hover selector).
Definition browser_Select (selector value : string) :=
  driver (Call.Select selector value).
Definition browser_WaitForSelector (selector : string) (timeout : Z) :=
  driver (Call.WaitForSelector selector timeout).
Definition browser_SetCookies (cookies : list Cookie.t) :=
  driver (Call.SetCookies cookies).

Definition browser_GetCurrentURL : M (string * option error) :=
  tr ← call Call.GetCurrentURL; mret (driver_url env tr).
Definition browser_TakeSnapshot : M (option PageSnapshot.t * option error) :=
  tr ← call Call.TakeSnapshot; mret (driver_snapshot env tr).
Definition browser_TakeScreenshot (opts : ScreenshotOptions.t)
  : M (string * option error) :=
  tr ← call (Call.TakeScreenshot opts); mret (driver_screenshot env tr).
Definition browser_GetCookies : M (list Cookie.t * option error) :=
  tr ← call Call.GetCookies; mret (driver_cookies env tr).

Definition time_Now : M Z := fun st => Returned (clock env (trace st)) st.
Definition time_Sleep (d : Z) : M unit := _ ← call (Call.Sleep d); mret ().
Definition uuid_New_String : M string :=
  tr ← call Call.UuidNew; mret (uuid env tr).

(** ** llm_client.go *)

Definition http_NewRequest (method url : string) (body : ChatBody.t)
  : Request.t + error :=
  match http_NewRequest_error env url with
  | Some e => inr e
  | None => inl (Request.mk method url ∅ body)
  end.

Definition httpClient_Do (req : Request.t) : M (HttpResponse.t + error) :=
  tr ← call (Call.HttpDo req); mret (http_Do env tr).

(** What [Chat] makes of the answer of [httpClient.Do]. *)
Definition OpenAI_result (resp : HttpResponse.t + error)
  : option Response.t * option error :=
  match resp with
  | inr err => (None, Some (fmt_Errorf_w "send request" err))
  | inl resp =>
      if negb (HttpResponse.StatusCode resp =? StatusOK) then
        (None,
         Some (errors_New ("API error: " +:+ HttpResponse.Status resp
                           +:+ " - " +:+ HttpResponse.Body resp)))
      else
        match Decode_OpenAIResponse (HttpResponse.Body resp) with
        | (_, Some err) => (None, Some (fmt_Errorf_w "decode response" err))
        | (result, None) =>
            match OpenAIResponse.Choices result with
            | [] => (None, Some (errors_New "no choices in response"))
            | choice :: _ =>
                (Some (Response.mk (OpenAIChoice.Message_Content choice)
                         (OpenAIChoice.FinishReason choice)
                         (Some (OpenAIResponse.Usage result))),
                 None)
            end
        end
  end.

Definition OpenAICompatibleClient_Chat (c : OpenAICompatibleClient.t)
  (messages : list Message.t) : M (option Response.t * option error) :=
  let config := OpenAICompatibleClient.config c in
  match json_Marshal (OpenAI_reqBody config messages) with
  | inr err => mret (None, Some (fmt_Errorf_w "marshal request" err))
  | inl body =>
      match http_NewRequest "POST"
              (LLMConfig.Endpoint config +:+ "/chat/completions") body with
      | inr err => mret (None, Some (fmt_Errorf_w "create request" err))
      | inl req =>
          let req := Request.Header_Set "Content-Type" "application/json" req in
          let req :=
            if String.eqb (LLMConfig.APIKey config) EmptyString then req
            else Request.Header_Set "Authorization"
                   ("Bearer " +:+ LLMConfig.APIKey config) req in
          resp ← httpClient_Do req;
          mret (OpenAI_result resp)
      end
  end.

Definition OpenAICompatibleClient_Validate (c : OpenAICompatibleClient.t)
  : M (option error) :=
  '(_, err) ← OpenAICompatibleClient_Chat c [Message.mk "user" "hi"];
  mret err.

Definition Anthropic_result (resp : HttpResponse.t + error)
  : option Response.t * option error :=
  match resp with
  | inr err => (None, Some (fmt_Errorf_w "send request" err))
  | inl resp =>
      if negb (HttpResponse.StatusCode resp =? StatusOK) then
        (None,
         Some (errors_New ("API error: " +:+ HttpResponse.Status resp
                           +:+ " - " +:+ HttpResponse.Body resp)))
      else
        match Decode_AnthropicResponse (HttpResponse.Body resp) with
        | (_, Some err) => (None, Some (fmt_Errorf_w "decode response" err))
        | (result, None) =>
            match AnthropicResponse.Content result with
            | [] => (None, Some (errors_New "no content in response"))
            | block :: _ =>
                let u := AnthropicResponse.Usage result in
                (Some (Response.mk (AnthropicBlock.Text block)
                         (AnthropicResponse.StopReason result)
                         (Some (Usage.mk (AnthropicUsage.InputTokens u)
                                  (AnthropicUsage.OutputTokens u)
                                  (wrap_int (AnthropicUsage.InputTokens u
                                             + AnthropicUsage.OutputTokens u))))),
                 None)
            end
        end
  end.

Definition AnthropicClient_Chat (c : AnthropicClient.t)
  (messages : list Message.t) : M (option Response.t * option error) :=
  let config := AnthropicClient.config c in
  match json_Marshal (Anthropic_reqBody config messages) with
  | inr err => mret (None, Some (fmt_Errorf_w "marshal request" err))
  | inl body =>
      match http_NewRequest "POST"
              (LLMConfig.Endpoint config +:+ "/messages") body with
      | inr err => mret (None, Some (fmt_Errorf_w "create request" err))
      | inl req =>
          let req := Request.Header_Set "Content-Type" "application/json" req in
          let req := Request.Header_Set "x-api-key" (LLMConfig.APIKey config) req in
          let req := Request.Header_Set "anthropic-version" "2023-06-01" req in
          resp ← httpClient_Do req;
          mret (Anthropic_result resp)
      end
  end.

Definition AnthropicClient_Validate (c : AnthropicClient.t) : M (option error) :=
  '(_, err) ← AnthropicClient_Chat c [Message.mk "user" "hi"];
  mret err.

(** The two implementations of the interface. *)
Definition OpenAICompatibleClient_LLMClient (c : OpenAICompatibleClient.t)
  : LLMClient :=
  mkLLMClient (OpenAICompatibleClient_Chat c) (OpenAICompatibleClient_Validate c).

Definition AnthropicClient_LLMClient (c : AnthropicClient.t) : LLMClient :=
  mkLLMClient (AnthropicClient_Chat c) (AnthropicClient_Validate c).

(** [LLMClientFactory.NewClient]: the client (nil is [None]) and the
    error. *)
Definition NewClient (config : LLMConfig.t) : option LLMClient * option error :=
  if String.eqb (LLMConfig.Provider config) LLMProviderAnthropic then
    (Some (AnthropicClient_LLMClient (NewAnthropicClient config)), None)
  else
    (Some (OpenAICompatibleClient_LLMClient (NewOpenAICompatibleClient config)),
     None).

(** The caller's configuration record after [NewClient] has run on a
    pointer to it. *)
Definition config_after_NewClient (config : LLMConfig.t) : LLMConfig.t :=
  if String.eqb (LLMConfig.Provider config) LLMProviderAnthropic then
    AnthropicClient.config (NewAnthropicClient config)
  else OpenAICompatibleClient.config (NewOpenAICompatibleClient config).

(** ** planner.go *)

Record AIPlanner : Type := mkAIPlanner { llmClient : option LLMClient }.

Definition NewAIPlanner (c : option LLMClient) : AIPlanner := mkAIPlanner c.

(** [p.llmClient.Chat(ctx, messages)]; a method call on a nil interface
    panics. *)
Definition llmClient_Chat (p : AIPlanner) (messages : list Message.t)
  : M (option Response.t * option error) :=
  match llmClient p with
  | Some c => Chat c messages
  | None => panic nil_dereference
  end.

Definition ParseTask (p : AIPlanner) (req : PlanRequest.t)
  : M (option TaskPlan.t * option error) :=
  let prompt := buildTaskParsePrompt req in
  let messages :=
    [Message.mk "system" systemPrompt; Message.mk "user" prompt] in
  '(resp, err) ← llmClient_Chat p messages;
  match err with
  | Some e => mret (None, Some (fmt_Errorf_w "llm chat" e))
  | None =>
      match resp with
      | None => panic nil_dereference
      | Some resp => mret (plan_of_reply (Response.Content resp))
      end
  end.

(** [snapshot] is a pointer; building the prompt dereferences it. *)
Definition RefineStep (p : AIPlanner) (step : ActionStep.t)
  (snapshot : option PageSnapshot.t) : M (option ActionStep.t * option error) :=
  match snapshot with
  | None => panic nil_dereference
  | Some snap =>
      let prompt := refinePrompt step snap in
      let messages :=
        [Message.mk "system" systemPrompt; Message.mk "user" prompt] in
      '(resp, err) ← llmClient_Chat p messages;
      match err with
      | Some e => mret (None, Some (fmt_Errorf_w "llm chat" e))
      | None =>
          match resp with
          | None => panic nil_dereference
          | Some resp => mret (step_of_reply (Response.Content resp))
          end
      end
  end.

(** ** authenticator.go *)

(** [for _, sel := range sels { if err := f(sel); err == nil { break } }] *)
Fixpoint first_success (f : string -> M (option error)) (sels : list string)
  : M unit :=
  match sels with
  | [] => mret ()
  | sel :: rest =>
      err ← f sel;
      match err with
      | None => mret ()
      | Some _ => first_success f rest
      end
  end.

(** A session struct literal: its fields are evaluated in the order
    they are written, [ID], then [ExpiresAt], then [CreatedAt]. *)
Definition new_session (cookies : list Cookie.t) (headers : gmap string string)
  : M Session.t :=
  id ← uuid_New_String;
  expires ← time_Now;
  created ← time_Now;
  mret (Session.mk id EmptyString cookies headers (expires + 24 * Hour) created).

Definition createEmptySession : M Session.t := new_session [] ∅.

Definition harvest_cookies : M (option Session.t * option error) :=
  '(cookies, err) ← browser_GetCookies;
  match err with
  | Some e => mret (None, Some (fmt_Errorf_w "get cookies" e))
  | None => s ← new_session cookies ∅; mret (Some s, None)
  end.

Definition authenticateWithForm (config : AuthConfig.t)
  : M (option Session.t * option error) :=
  match AuthConfig.Credentials config with
  | None => mret (None, Some (errors_New "credentials required for form auth"))
  | Some creds =>
      err ← browser_WaitForSelector "input[type='password']" (10 * Second);
      match err with
      | Some e => mret (None, Some (fmt_Errorf_w "login form not found" e))
      | None =>
          _ ← first_success
                (fun sel => browser_Fill sel (Credentials.Username creds))
                ["input[name='username']"; "input[name='email']";
                 "input[type='email']"; "input[id='username']";
                 "input[id='email']"];
          err ← browser_Fill "input[type='password']" (Credentials.Password creds);
          match err with
          | Some e => mret (None, Some (fmt_Errorf_w "fill password" e))
          | None =>
              _ ← first_success browser_Click
                    ["button[type='submit']"; "input[type='submit']";
                     "button:has-text('登录')"; "button:has-text('Login')"];
              _ ← time_Sleep (3 * Second);
              harvest_cookies
          end
      end
  end.

Definition isOnSSOPage (url : string) (ssoConfig : SSOConfig.t) : bool :=
  if negb (String.eqb (SSOConfig.LoginURL ssoConfig) EmptyString) then
    Contains url (SSOConfig.LoginURL ssoConfig)
  else
    existsb (fun indicator => Contains (ToLower url) indicator)
      ["login"; "signin"; "auth"; "sso"; "oauth"; "saml"].

Definition isOnLoginPage (url : string) : bool :=
  existsb (fun indicator => Contains (ToLower url) indicator)
    ["login"; "signin"; "sign-in"; "auth"].

Definition performSSOLogin (creds : Credentials.t) (ssoConfig : SSOConfig.t)
  : M (option error) :=
  _ ← first_success (fun sel => browser_Fill sel (Credentials.Username creds))
        ["input[name='username']"; "input[name='email']";
         "input[type='email']"; "input[id='username']"];
  err ← browser_Fill "input[type='password']" (Credentials.Password creds);
  match err with
  | Some e => mret (Some (fmt_Errorf_w "fill password" e))
  | None =>
      _ ← first_success browser_Click
            ["button[type='submit']"; "input[type='submit']"; "#submit"];
      mret None
  end.

Definition authenticateWithSSO (config : AuthConfig.t)
  : M (option Session.t * option error) :=
  match AuthConfig.SSOConfig config with
  | None => mret (None, Some (errors_New "sso config required"))
  | Some sso =>
      err ← browser_WaitForNavigation (10 * Second);
      match err with
      | Some e => mret (None, Some (fmt_Errorf_w "wait for sso redirect" e))
      | None =>
          '(currentURL, _) ← browser_GetCurrentURL;
          err ← (if isOnSSOPage currentURL sso then
                   match AuthConfig.Credentials config with
                   | Some creds => performSSOLogin creds sso
                   | None => mret None
                   end
                 else mret None);
          match err with
          | Some e => mret (None, Some (fmt_Errorf_w "sso login" e))
          | None =>
              _ ← time_Sleep (5 * Second);
              harvest_cookies
          end
      end
  end.

(** The manual login polls inside a [select] over the context, a
    5-minute timer and a 2-second ticker.  Which case a round takes is
    the environment's answer; the ticker can deliver at most
    [manual_ticks] ticks before the timer is ready, and the timer is
    taken once they are used up. *)
Definition manual_ticks : nat := 150.

Fixpoint authenticateManually_loop (ticks : nat)
  : M (option Session.t * option error) :=
  match ticks with
  | O => mret (None, Some (errors_New "manual login timeout"))
  | S ticks' =>
      tr ← call Call.ManualSelect;
      match manual_select env tr with
      | ContextDone e => mret (None, Some e)
      | TimeoutFired => mret (None, Some (errors_New "manual login timeout"))
      | Tick =>
          '(currentURL, _) ← browser_GetCurrentURL;
          if negb (isOnLoginPage currentURL) then harvest_cookies
          else authenticateManually_loop ticks'
      end
  end.

Definition authenticateManually (config : AuthConfig.t)
  : M (option Session.t * option error) :=
  authenticateManually_loop manual_ticks.

Definition authenticateWithCookies (config : AuthConfig.t)
  : M (option Session.t * option error) :=
  match AuthConfig.Cookies config with
  | [] => mret (None, Some (errors_New "cookies required"))
  | cookies =>
      err ← browser_SetCookies cookies;
      match err with
      | Some e => mret (None, Some (fmt_Errorf_w "set cookies" e))
      | None => s ← new_session cookies ∅; mret (Some s, None)
      end
  end.

Definition authenticateWithToken (config : AuthConfig.t)
  : M (option Session.t * option error) :=
  match AuthConfig.Credentials config with
  | None => mret (None, Some (errors_New "token required"))
  | Some creds =>
      if String.eqb (Credentials.Token creds) EmptyString then
        mret (None, Some (errors_New "token required"))
      else
        s ← new_session []
              {[ "Authorization" := "Bearer " +:+ Credentials.Token creds ]};
        mret (Some s, None)
  end.

(** [Service.Authenticate] *)
Definition Authenticate (config : AuthConfig.t)
  : M (option Session.t * option error) :=
  let ty := AuthConfig.Type_ config in
  if String.eqb ty AuthTypeNone then
    s ← createEmptySession; mret (Some s, None)
  else if String.eqb ty AuthTypeForm then authenticateWithForm config
  else if String.eqb ty AuthTypeSSO then authenticateWithSSO config
  else if String.eqb ty AuthTypeManual then authenticateManually config
  else if String.eqb ty AuthTypeCookie then authenticateWithCookies config
  else if String.eqb ty AuthTypeToken then authenticateWithToken config
  else mret (None, Some (errors_New ("unsupported auth type: " +:+ ty))).

(** [Service.ValidateSession]; [time.Now().After(t)] is [t < now]. *)
Definition ValidateSession (session : option Session.t)
  : M (bool * option error) :=
  match session with
  | None => mret (false, None)
  | Some s =>
      now ← time_Now;
      if Session.ExpiresAt s <? now then mret (false, None)
      else mret (true, None)
  end.

(** ** task_store.go: the memory store

    Every method holds the store's lock for its whole body, so each is
    one step of the state. *)
Definition ErrNotFound : error := errors_New "resource not found".

(** [*task]: a nil or dangling address panics. *)
Definition deref (task : nat) : M Task.t :=
  fun st =>
    match heap st !! task with
    | Some t => Returned t st
    | None => Panicked nil_dereference st
    end.

Definition update_task (task : nat) (f : Task.t -> Task.t) : M unit :=
  fun st =>
    match heap st !! task with
    | Some t => Returned () (set_heap (<[task := f t]> (heap st)) st)
    | None => Panicked nil_dereference st
    end.

Definition store_Create (task : nat) : M (option error) :=
  t ← deref task;
  ((fun st => Returned None (set_tasks (<[Task.ID t := task]> (tasks st)) st))
   : M (option error)).

Definition store_Get (id : string) : M (option nat * option error) :=
  fun st =>
    match tasks st !! id with
    | Some task => Returned (Some task, None) st
    | None => Returned (None, Some ErrNotFound) st
    end.

Definition store_Update (task : nat) : M (option error) :=
  t ← deref task;
  ((fun st =>
      match tasks st !! Task.ID t with
      | Some _ =>
          Returned None (set_tasks (<[Task.ID t := task]> (tasks st)) st)
      | None => Returned (Some ErrNotFound) st
      end) : M (option error)).

Definition store_UpdateStatus (id : string) (status : TaskStatus)
  : M (option error) :=
  fun st =>
    match tasks st !! id with
    | Some task =>
        match update_task task (Task.set_Status status) st with
        | Returned _ st' => Returned None st'
        | Panicked reason st' => Panicked reason st'
        end
    | None => Returned (Some ErrNotFound) st
    end.

Definition store_Delete (id : string) : M (option error) :=
  fun st => Returned None (set_tasks (delete id (tasks st)) st).

(** [TaskHandler.CancelTask]: the HTTP status of the answer. *)
Definition CancelTask (taskID : string) : M Z :=
  err ← store_UpdateStatus taskID TaskStatusCancelled;
  match err with
  | Some _ => mret 500
  | None => mret 200
  end.

(** ** orchestrator.go *)

(** The [switch step.Action] of [executeStep]: the driver operation of
    the step, and its error.  A kind without a case makes no call. *)
Definition dispatch (step : ActionStep.t) : M (option error) :=
  let a := ActionStep.Action step in
  if String.eqb a ActionNavigate then browser_Navigate (ActionStep.Target step)
  else if String.eqb a ActionClick then browser_Click (ActionStep.Target step)
  else if String.eqb a ActionFill then
    browser_Fill (ActionStep.Target step) (ActionStep.Value step)
  else if String.eqb a ActionHover then browser_Hover (ActionStep.Target step)
  else if String.eqb a ActionSelect then
    browser_Select (ActionStep.Target step) (ActionStep.Value step)
  else if String.eqb a ActionWait then
    if negb (String.eqb (ActionStep.WaitFor step) EmptyString) then
      browser_WaitForSelector (ActionStep.WaitFor step) (10 * Second)
    else
      _ ← time_Sleep (2 * Second); mret None
  else mret None.

(** The screenshot taken after a step that asks for one. *)
Definition capture (step : ActionStep.t) : M (option Screenshot.t) :=
  if ActionStep.Screenshot step then
    '(_, err) ← browser_TakeScreenshot (ScreenshotOptions.mk false 90 "png");
    match err with
    | None =>
        id ← uuid_New_String;
        now ← time_Now;
        mret (Some (Screenshot.mk id EmptyString (ActionStep.Order step) 0 0 now))
    | Some _ => mret None
    end
  else mret None.

(** [executeStep]: the result (always the address of a fresh struct,
    kept as the struct), the screenshot and the error. *)
Definition executeStep (step : ActionStep.t)
  : M (StepResult.t * option Screenshot.t * option error) :=
  err ← dispatch step;
  match err with
  | Some e =>
      mret (StepResult.mk false (Error e) EmptyString, None, Some e)
  | None =>
      _ ← time_Sleep (500 * Millisecond);
      screenshot ← capture step;
      mret (StepResult.mk true EmptyString EmptyString, screenshot, None)
  end.

(** The end of an iteration that has a result of [executeStep]: the
    result and the screenshot are appended and the snapshot is taken
    again, its error dropped. *)
Definition record_result (result : StepResult.t)
  (screenshot : option Screenshot.t) (ls : Loop.t) : M Loop.t :=
  '(snapshot', _) ← browser_TakeSnapshot;
  mret (Loop.mk (Loop.stepResults ls ++ [result])
                (Loop.screenshots ls ++ match screenshot with
                                        | Some s => [s]
                                        | None => []
                                        end)
                snapshot').

(** The body of [for i, step := range plan.Steps]. *)
Definition iteration (aiPlanner : AIPlanner) (step : ActionStep.t)
  (ls : Loop.t) : M Loop.t :=
  '(result, screenshot, err) ← executeStep step;
  match err with
  | Some e =>
      '(refined, refineErr) ← RefineStep aiPlanner step (Loop.snapshot ls);
      match refineErr with
      | Some _ =>
          mret (Loop.mk
                  (Loop.stepResults ls
                   ++ [StepResult.mk false (Error e) EmptyString])
                  (Loop.screenshots ls) (Loop.snapshot ls))
      | None =>
          match refined with
          | None => panic nil_dereference
          | Some refined =>
              '(result', screenshot', _) ← executeStep refined;
              record_result result' screenshot' ls
          end
      end
  | None => record_result result screenshot ls
  end.

Fixpoint executeSteps (aiPlanner : AIPlanner) (steps : list ActionStep.t)
  (ls : Loop.t) : M Loop.t :=
  match steps with
  | [] => mret ls
  | step :: rest =>
      ls' ← iteration aiPlanner step ls;
      executeSteps aiPlanner rest ls'
  end.

Fixpoint generateDocuments_loop (plan : TaskPlan.t)
  (results : list StepResult.t) (formats : list DocFormat)
  (docs : list DocumentInfo.t) : M (list DocumentInfo.t) :=
  match formats with
  | [] => mret docs
  | format :: rest =>
      if String.eqb format DocFormatMarkdown || String.eqb format DocFormatHTML
      then
        tr ← call (Call.Generate format plan results);
        match docgen_Generate env tr with
        | inr _ => generateDocuments_loop plan results rest docs
        | inl doc =>
            id ← uuid_New_String;
            now ← time_Now;
            generateDocuments_loop plan results rest
              (docs ++ [DocumentInfo.mk id format EmptyString
                          (Document.Content doc)
                          (Z.of_nat (String.length (Document.Content doc)))
                          now])
        end
      else generateDocuments_loop plan results rest docs
  end.

Definition generateDocuments (task : nat) (plan : TaskPlan.t)
  (results : list StepResult.t) : M (list DocumentInfo.t * option error) :=
  t ← deref task;
  match Task.Output t with
  | None => panic nil_dereference
  | Some output =>
      docs ← generateDocuments_loop plan results (OutputConfig.Formats output) [];
      mret (docs, None)
  end.

Definition failTask (task : nat) (err : error) : M (option error) :=
  _ ← update_task task (Task.set_Status TaskStatusFailed);
  _ ← update_task task (Task.set_ErrorMessage (Error err));
  now ← time_Now;
  _ ← update_task task (Task.set_UpdatedAt now);
  _ ← store_Update task;
  mret (Some err).

Fixpoint convertStepResults_loop (i : Z) (results : list StepResult.t)
  (domainResults : list TaskStep.t) : M (list TaskStep.t) :=
  match results with
  | [] => mret domainResults
  | r :: rest =>
      now ← time_Now;
      convertStepResults_loop (i + 1) rest
        (domainResults
         ++ [TaskStep.mk (i + 1) EmptyString EmptyString (StepResult.Success r)
               (StepResult.Error r) None now])
  end.

Definition convertStepResults (results : list StepResult.t)
  : M (list TaskStep.t) :=
  convertStepResults_loop 0 results [].

(** Lines 73 to 129 of [ExecuteTask]: authentication, navigation, the
    first snapshot and the plan.  [inl] is the value [ExecuteTask]
    returns at once; [inr] carries on to the step loop. *)
Definition ExecuteTask_plan (task : nat) (aiPlanner : AIPlanner)
  : M (option error + TaskPlan.t * option PageSnapshot.t) :=
  let fail (prefix : string) (e : error) :=
    r ← failTask task (fmt_Errorf_w prefix e);
    mret (inl r : option error + TaskPlan.t * option PageSnapshot.t) in
  let planning : M (option error + TaskPlan.t * option PageSnapshot.t) :=
    _ ← time_Sleep (2 * Second);
    '(snapshot, err) ← browser_TakeSnapshot;
    match err with
    | Some e => fail "take snapshot" e
    | None =>
        match snapshot with
        | None => panic nil_dereference
        | Some _ =>
            t ← deref task;
            '(plan, err) ← ParseTask aiPlanner
                             (PlanRequest.mk (Task.Description t)
                                (Task.TargetURL t) snapshot);
            match err with
            | Some e => fail "parse task" e
            | None =>
                match plan with
                | None => panic nil_dereference
                | Some plan => mret (inr (plan, snapshot))
                end
            end
        end
    end in
  let direct : M (option error + TaskPlan.t * option PageSnapshot.t) :=
    t ← deref task;
    err ← browser_Navigate (Task.TargetURL t);
    match err with
    | Some e => fail "navigate" e
    | None => planning
    end in
  let with_auth (a : AuthConfig.t)
    : M (option error + TaskPlan.t * option PageSnapshot.t) :=
    t ← deref task;
    err ← browser_Navigate (Task.TargetURL t);
    match err with
    | Some e => fail "navigate for auth" e
    | None =>
        '(session, err) ← Authenticate a;
        match err with
        | Some e => fail "authenticate" e
        | None =>
            match session with
            | None => panic nil_dereference
            | Some session =>
                err ← match Session.Cookies session with
                      | [] => mret None
                      | cookies => browser_SetCookies cookies
                      end;
                match err with
                | Some e => fail "set cookies" e
                | None =>
                    t' ← deref task;
                    err ← browser_Navigate (Task.TargetURL t');
                    match err with
                    | Some e => fail "navigate after auth" e
                    | None => planning
                    end
                end
            end
        end
    end in
  t ← deref task;
  match Task.Auth t with
  | Some a =>
      if negb (String.eqb (AuthConfig.Type_ a) AuthTypeNone) then with_auth a
      else direct
  | None => direct
  end.

(** Lines 164 to 187: the documents and the final record. *)
Definition ExecuteTask_finish (task : nat) (startTime : Z) (plan : TaskPlan.t)
  (ls : Loop.t) : M (option error) :=
  '(docs, err) ← generateDocuments task plan (Loop.stepResults ls);
  match err with
  | Some e => failTask task (fmt_Errorf_w "generate docs" e)
  | None =>
      _ ← update_task task (Task.set_Status TaskStatusCompleted);
      now ← time_Now;
      _ ← update_task task (Task.set_UpdatedAt now);
      completedAt ← time_Now;
      _ ← update_task task (Task.set_CompletedAt (Some completedAt));
      steps ← convertStepResults (Loop.stepResults ls);
      since ← time_Now;
      _ ← update_task task
            (Task.set_Result
               (Some (TaskResult.mk steps (Loop.screenshots ls) docs
                        (since - startTime))));
      err ← store_Update task;
      match err with
      | Some e => mret (Some (fmt_Errorf_w "update task result" e))
      | None => mret None
      end
  end.

Definition ExecuteTask (task : nat) : M (option error) :=
  _ ← update_task task (Task.set_Status TaskStatusRunning);
  now ← time_Now;
  _ ← update_task task (Task.set_UpdatedAt now);
  err ← store_Update task;
  match err with
  | Some e => mret (Some (fmt_Errorf_w "update task status" e))
  | None =>
      startTime ← time_Now;
      t ← deref task;
      match Task.LLM t with
      | None => panic nil_dereference
      | Some config =>
          let '(llmClient, err) := NewClient config in
          _ ← update_task task (Task.set_LLM (Some (config_after_NewClient config)));
          match err with
          | Some e => failTask task (fmt_Errorf_w "create llm client" e)
          | None =>
              let aiPlanner := NewAIPlanner llmClient in
              err ← browser_Connect;
              match err with
              | Some e => failTask task (fmt_Errorf_w "connect browser" e)
              | None =>
                  defer_ browser_Close
                    (r ← ExecuteTask_plan task aiPlanner;
                     match r with
                     | inl result => mret result
                     | inr (plan, snapshot) =>
                         ls ← executeSteps aiPlanner (TaskPlan.Steps plan)
                                (Loop.mk [] [] snapshot);
                         ExecuteTask_finish task startTime plan ls
                     end)
              end
          end
      end
  end.

End Program.

(** * The rest of the packages

    The code of the store, the handlers, the planner, the domain
    presets and the document generator that the task pipeline above
    does not pass through. *)

(** ** task_store.go: [List] *)

(** The panic of a slice expression whose bounds are out of range (the
    runtime's message goes on with the offending bounds). *)
Definition slice_bounds_out_of_range : string :=
  "runtime error: slice bounds out of range".

(** [MemoryTaskStore.List].  The order in which [range] yields the
    entries of a Go map is not specified: [range_order] is the order of
    the run at hand.  [offset + limit] is an addition of [int]s, and
    [tasks[offset:end]] panics unless [0 <= offset <= end]. *)
Definition store_List (range_order : gmap string nat -> list (string * nat))
  (limit offset : Z) : M (list nat * option error) :=
  fun st =>
    let all := (range_order (tasks st)).*2 in
    let len := Z.of_nat (length all) in
    if len <=? offset then Returned ([], None) st
    else
      let end_ := wrap_int (offset + limit) in
      let end_ := if len <? end_ then len else end_ in
      if (offset <? 0) || (end_ <? offset) then
        Panicked slice_bounds_out_of_range st
      else
        Returned (take (Z.to_nat (end_ - offset)) (drop (Z.to_nat offset) all),
                  None) st.

(** ** The task handlers

    A handler is embedded from the request gin has bound to the answer
    it writes: the HTTP status and what the body is made of.  Writing a
    task into the body reads its record. *)

(** [TaskHandler.GetTask] *)
Definition GetTask (taskID : string) : M (Z * option Task.t) :=
  '(task, err) ← store_Get taskID;
  match err with
  | Some _ => mret (404, None)
  | None =>
      match task with
      | None => mret (200, None)
      | Some task => t ← deref task; mret (200, Some t)
      end
  end.

(** The records behind a slice of pointers, as the encoder of the body
    reads them. *)
Fixpoint deref_all (tasks : list nat) : M (list Task.t) :=
  match tasks with
  | [] => mret []
  | task :: rest => t ← deref task; ts ← deref_all rest; mret (t :: ts)
  end.

(** [TaskHandler.ListTasks]: the status, the tasks and the "total" of
    the body. *)
Definition ListTasks (range_order : gmap string nat -> list (string * nat))
  : M (Z * list Task.t * Z) :=
  '(tasks, err) ← store_List range_order 100 0;
  match err with
  | Some _ => mret (500, [], 0)
  | None =>
      ts ← deref_all tasks;
      mret (200, ts, Z.of_nat (length tasks))
  end.

Module CookieRequest.
Record t : Type := mk
  { Name : string; Value : string; Domain : string; Path : string;
    Secure : bool; HTTPOnly : bool }.
End CookieRequest.

Module AuthConfigRequest.
Record t : Type := mk
  { Type_ : string; Username : string; Password : string;
    SSOProvider : string; SSOLoginURL : string; Token : string;
    SessionID : string; Cookies : list CookieRequest.t }.
End AuthConfigRequest.

(** The zero [time.Time], January 1 of year 1, in nanoseconds from the
    Unix epoch. *)
Definition zero_Time : Z := -62135596800 * Second.

(** The zero [float64]. *)
Definition zero_float64 : float64.t := float64.mk false true.

(** [TaskHandler.convertAuthConfig] *)
Definition convertAuthConfig (req : option AuthConfigRequest.t)
  : option AuthConfig.t :=
  match req with
  | None => None
  | Some req =>
      let cookies :=
        map (fun c =>
               Cookie.mk (CookieRequest.Name c) (CookieRequest.Value c)
                 (CookieRequest.Domain c) (CookieRequest.Path c) zero_Time
                 (CookieRequest.Secure c) (CookieRequest.HTTPOnly c))
            (AuthConfigRequest.Cookies req) in
      Some (AuthConfig.mk (AuthConfigRequest.Type_ req)
              (Some (Credentials.mk (AuthConfigRequest.Username req)
                       (AuthConfigRequest.Password req)
                       (AuthConfigRequest.Token req) EmptyString))
              (Some (SSOConfig.mk (AuthConfigRequest.SSOProvider req)
                       (AuthConfigRequest.SSOLoginURL req) EmptyString
                       EmptyString EmptyString EmptyString EmptyString))
              (AuthConfigRequest.SessionID req) cookies ∅)
  end.

(** ** domain: the presets of llm.go *)

Module LLMPreset.
Record t : Type := mk
  { Provider : LLMProvider; Name : string; DefaultModel : string;
    AvailableModels : list string; DefaultEndpoint : string;
    RequiresAPIKey : bool }.
End LLMPreset.

Definition GetLLMPresets : list LLMPreset.t :=
  [ LLMPreset.mk LLMProviderOpenAI "OpenAI" "gpt-4o"
      ["gpt-4o"; "gpt-4o-mini"; "gpt-4-turbo"; "gpt-3.5-turbo"]
      "https://api.openai.com/v1" true;
    LLMPreset.mk LLMProviderAnthropic "Anthropic (Claude)"
      "claude-sonnet-4-20250514"
      ["claude-sonnet-4-20250514"; "claude-opus-4-20250514";
       "claude-3-5-sonnet-20241022"]
      "https://api.anthropic.com/v1" true;
    LLMPreset.mk LLMProviderDeepSeek "DeepSeek" "deepseek-chat"
      ["deepseek-chat"; "deepseek-coder"]
      "https://api.deepseek.com/v1" true;
    LLMPreset.mk LLMProviderQwen "通义千问" "qwen-max"
      ["qwen-max"; "qwen-plus"; "qwen-turbo"]
      "https://dashscope.aliyuncs.com/compatible-mode/v1" true;
    LLMPreset.mk LLMProviderMoonshot "Moonshot (Kimi)" "moonshot-v1-8k"
      ["moonshot-v1-8k"; "moonshot-v1-32k"; "moonshot-v1-128k"]
      "https://api.moonshot.cn/v1" true;
    LLMPreset.mk LLMProviderOllama "Ollama (本地)" "llama3.1"
      ["llama3.1"; "qwen2.5"; "mistral"; "codellama"; "deepseek-coder"]
      "http://localhost:11434/v1" false;
    LLMPreset.mk LLMProviderLocalProxy "本地代理" EmptyString []
      "http://localhost:8000/v1" false;
    LLMPreset.mk LLMProviderCustom "自定义 (OpenAI 兼容)" EmptyString []
      EmptyString false ].

(** ** planner.go: [GenerateStepDescription] *)

Definition stepDescriptionPrompt (step : ActionStep.t) (result : StepResult.t)
  : string :=
  "请为以下操作步骤生成用户友好的描述（用于帮助文档）：

操作: "
  +:+ ActionStep.Action step
  +:+ "
目标: "
  +:+ ActionStep.Target step
  +:+ "
值: "
  +:+ ActionStep.Value step
  +:+ "
执行结果: "
  +:+ btoa (StepResult.Success result)
  +:+ "

要求：
1. 使用简洁明了的语言
2. 面向普通用户，不要使用技术术语
3. 描述应该是指导性的，告诉用户如何操作

直接输出描述文本，不要包含其他内容。".

(** [step] and [result] are pointers, and building the prompt
    dereferences both. *)
Definition GenerateStepDescription (p : AIPlanner) (step : option ActionStep.t)
  (result : option StepResult.t) : M (string * option error) :=
  match step, result with
  | Some step, Some result =>
      let messages := [Message.mk "user" (stepDescriptionPrompt step result)] in
      '(resp, err) ← llmClient_Chat p messages;
      match err with
      | Some _ => mret (ActionStep.Description step, None)
      | None =>
          match resp with
          | None => panic nil_dereference
          | Some resp => mret (Response.Content resp, None)
          end
      end
  | _, _ => panic nil_dereference
  end.

(** ** docgen: the numbering of the steps *)

Module ContentConfig.
Record t : Type := mk
  { IncludeTOC : bool; IncludeCover : bool; StepNumbering : string;
    IncludeTips : bool }.
End ContentConfig.

(** The conversion of an [int] to a [rune], an [int32]. *)
Definition wrap_int32 (z : Z) : Z := (z + 2 ^ 31) mod 2 ^ 32 - 2 ^ 31.

(** [string(r)] for a rune [r]: its UTF-8 encoding, and that of U+FFFD
    when [r] is no Unicode scalar value. *)
Definition string_of_rune (r : Z) : string :=
  string_of_list_ascii
    (json.utf8_encode
       (if (r <? 0) || (1114111 <? r) || json.is_surrogate r
        then json.replacement_char else r)).

(** [formatStepNumber]; ['A'] is 65. *)
Definition formatStepNumber (num : Z) (config : option ContentConfig.t)
  : string :=
  match config with
  | None => itoa num
  | Some config =>
      let numbering := ContentConfig.StepNumbering config in
      if String.eqb numbering "letter" then
        string_of_rune (wrap_int32 (wrap_int (wrap_int (65 + num) - 1)))
      else if String.eqb numbering "none" then EmptyString
      else itoa num
  end.

(** ** The configuration handlers: [ValidateLLM] *)

Module ValidateLLMRequest.
Record t : Type := mk
  { Provider : string; Model : string; Endpoint : string; APIKey : string;
    Temperature : float64.t; MaxTokens : Z }.
End ValidateLLMRequest.

(** The answer of [ValidateLLM]: the HTTP status and the "valid",
    "error" and "message" members of the body (a member the handler
    does not write is empty). *)
Module ValidateLLMAnswer.
Record t : Type := mk
  { Status : Z; valid : bool; error_ : string; message : string }.
End ValidateLLMAnswer.

Section ConfigHandler.
Context (env : Env).

(** [ConfigHandler.ValidateLLM], from the bound request on.  The
    10-second timeout of the context reaches the code through the
    answer of the transport only. *)
Definition ValidateLLM (req : ValidateLLMRequest.t) : M ValidateLLMAnswer.t :=
  let config :=
    LLMConfig.mk (ValidateLLMRequest.Provider req)
      (ValidateLLMRequest.Model req) (ValidateLLMRequest.Endpoint req)
      (ValidateLLMRequest.APIKey req)
      (Some (LLMOptions.mk (ValidateLLMRequest.Temperature req)
               (ValidateLLMRequest.MaxTokens req) zero_float64 zero_float64
               zero_float64 0 0)) in
  let '(client, err) := NewClient env config in
  match err with
  | Some e =>
      mret (ValidateLLMAnswer.mk 400 false (Error e) "无效的 LLM 配置")
  | None =>
      match client with
      | None => panic nil_dereference
      | Some client =>
          err ← Validate client;
          match err with
          | Some e =>
              mret (ValidateLLMAnswer.mk 400 false (Error e)
                      "无法连接到 LLM 服务，请检查配置")
          | None =>
              mret (ValidateLLMAnswer.mk 200 true EmptyString
                      "LLM 配置验证成功")
          end
      end
  end.

End ConfigHandler.

(** * Example environments

    Test doubles for the collaborators, used where a property is
    exercised on a concrete run. *)
Module Example.

(** The page as the driver reports it after [n] calls. *)
Definition page (n : nat) : PageSnapshot.t :=
  PageSnapshot.mk ("https://shop.example/" +:+ itoa (Z.of_nat n)) "Shop"
    EmptyString EmptyString
    [Element.mk "button" EmptyString "Buy" true true] (Z.of_nat n).

(** A chat completion whose message wraps a refined step in prose. *)
Definition refined_body : string :=
  go_str "{'choices':[{'message':{'content':'Use this: {\'order\':2,\'action\':\'click\',\'target\':\'#buy\',\'description\':\'Buy\'}'},'finish_reason':'stop'}],'usage':{'prompt_tokens':5,'completion_tokens':7,'total_tokens':12}}".

(** A driver that cannot find the selector [#missing] and does
    everything else; the model endpoint is [http]. *)
Definition env_with (http : list Call.t -> HttpResponse.t + error) : Env :=
  mkEnv
    (fun tr =>
       match tr with
       | Call.Click selector :: _ =>
           if String.eqb selector "#missing"
           then Some (errors_New "selector not found: #missing") else None
       | _ => None
       end)
    (fun _ => ("https://shop.example/", None))
    (fun tr => (Some (page (length tr)), None))
    (fun _ => ("png", None))
    (fun _ => ([], None))
    (fun tr => Z.of_nat (length tr) * Second)
    (fun tr => "id-" +:+ itoa (Z.of_nat (length tr)))
    (fun _ => None)
    http
    (fun _ => TimeoutFired)
    (fun _ => inr (errors_New "no generator")).

(** The model answers every request with the refined step. *)
Definition env_refining : Env :=
  env_with (fun _ => inl (HttpResponse.mk "200 OK" 200 refined_body)).

(** The model endpoint cannot be reached. *)
Definition env_offline : Env :=
  env_with (fun _ => inr (errors_New "dial tcp: connection refused")).

Definition config : LLMConfig.t :=
  LLMConfig.mk LLMProviderOpenAI "gpt-4o" EmptyString "sk-test" None.

(** The request at the head of a trace. *)
Definition head_request (tr : list Call.t) : Request.t :=
  match tr with
  | Call.HttpDo req :: _ => req
  | _ => Request.mk EmptyString EmptyString ∅
           (ChatBody.mk EmptyString [] None None)
  end.

(** A client whose model always answers [content]. *)
Definition answering (content : string) : LLMClient :=
  mkLLMClient
    (fun _ => mret (Some (Response.mk content "stop" None), None))
    (mret None).

(** The reply of the spec's example, and a reply with a closing brace
    in the prose before the object. *)
Definition wrapped_reply : string :=
  go_str "Here is the plan:
{'task_id':'t1','description':'d','steps':[]}
Thanks".

Definition stray_brace_reply : string :=
  go_str "Plan ready :-} {'task_id':'t1','description':'d','steps':[]}".

Definition request : PlanRequest.t :=
  PlanRequest.mk "buy the book" "https://shop.example/" None.

Definition click (order : Z) (selector : string) : ActionStep.t :=
  ActionStep.mk order ActionClick selector EmptyString EmptyString false
    ("click " +:+ selector).

Definition scroll : ActionStep.t :=
  ActionStep.mk 1 ActionScroll "#list" EmptyString EmptyString true "scroll".

Definition task : Task.t :=
  Task.mk "task-1" "buy the book" "https://shop.example/" TaskStatusRunning
    None (Some config) (Some (OutputConfig.mk [DocFormatMarkdown] "en" "Guide"))
    None EmptyString 0 0 None.

(** One task record at address 1, known to the store. *)
Definition st0 : State := mkState [] {[ 1%nat := task ]} {[ "task-1" := 1%nat ]}.

End Example.

(** More data for examples: the pages, configurations and tasks the
    properties of the login, the step loop and the documents are tried
    on. *)
Module Sample.

(** A login page on which only the password field is found: every
    other field and every button is missing. *)
Definition env_password_only : Env :=
  mkEnv
    (fun tr =>
       match tr with
       | Call.Fill selector _ :: _ =>
           if String.eqb selector "input[type='password']" then None
           else Some (errors_New "no such element")
       | Call.Click _ :: _ => Some (errors_New "no such element")
       | _ => None
       end)
    (fun _ => ("https://shop.example/login", None))
    (fun tr => (Some (Example.page (length tr)), None))
    (fun _ => ("png", None))
    (fun _ => ([Cookie.mk "sid" "abc" "shop.example" "/" 0 true true], None))
    (fun tr => Z.of_nat (length tr) * Second)
    (fun tr => "id-" +:+ itoa (Z.of_nat (length tr)))
    (fun _ => None)
    (fun _ => inr (errors_New "dial tcp: connection refused"))
    (fun _ => TimeoutFired)
    (fun _ => inr (errors_New "no generator")).

(** A site whose login form never appears. *)
Definition env_no_form : Env :=
  mkEnv
    (fun tr =>
       match tr with
       | Call.WaitForSelector _ _ :: _ => Some (errors_New "timeout 10000ms")
       | _ => None
       end)
    (fun _ => ("https://shop.example/", None))
    (fun tr => (Some (Example.page (length tr)), None))
    (fun _ => ("png", None))
    (fun _ => ([], None))
    (fun tr => Z.of_nat (length tr) * Second)
    (fun tr => "id-" +:+ itoa (Z.of_nat (length tr)))
    (fun _ => None)
    (fun _ => inr (errors_New "dial tcp: connection refused"))
    (fun _ => TimeoutFired)
    (fun _ => inr (errors_New "no generator")).

Definition credentials : Credentials.t :=
  Credentials.mk "ann" "secret" "tok-1" EmptyString.

Definition form_config : AuthConfig.t :=
  AuthConfig.mk AuthTypeForm (Some credentials) None EmptyString [] ∅.

Definition token_config : AuthConfig.t :=
  AuthConfig.mk AuthTypeToken (Some credentials) None EmptyString [] ∅.

Definition cookie : Cookie.t :=
  Cookie.mk "sid" "abc" "shop.example" "/" 0 true true.

Definition cookie_config : AuthConfig.t :=
  AuthConfig.mk AuthTypeCookie None None EmptyString [cookie] ∅.

(** A chat completion whose message is the empty JSON object, and a
    model that answers every request with it. *)
Definition empty_object_body : string :=
  go_str "{'choices':[{'message':{'content':'{}'},'finish_reason':'stop'}]}".

Definition env_empty_object : Env :=
  Example.env_with (fun _ => inl (HttpResponse.mk "200 OK" 200 empty_object_body)).

(** A task that asks for formats without a generator. *)
Definition pdf_output : OutputConfig.t :=
  OutputConfig.mk [DocFormatPDF; DocFormatDOCX] "en" "Guide".

Definition pdf_task : Task.t :=
  Task.mk "task-2" "print the invoice" "https://shop.example/"
    TaskStatusRunning None (Some Example.config) (Some pdf_output) None
    EmptyString 0 0 None.

Definition pdf_state : State :=
  mkState [] {[ 2%nat := pdf_task ]} {[ "task-2" := 2%nat ]}.

(** Generators of which the one for markdown works and the one for
    HTML fails, and a task that asks for three formats. *)
Definition env_markdown_only : Env :=
  let env := Example.env_offline in
  mkEnv (driver_error env) (driver_url env) (driver_snapshot env)
    (driver_screenshot env) (driver_cookies env) (clock env) (uuid env)
    (http_NewRequest_error env) (http_Do env) (manual_select env)
    (fun tr =>
       match tr with
       | Call.Generate format _ _ :: _ =>
           if String.eqb format DocFormatMarkdown
           then inl (Document.mk "Guide" "# Guide" format 0)
           else inr (errors_New "template: unexpected EOF")
       | _ => inr (errors_New "no generator")
       end).

Definition mixed_output : OutputConfig.t :=
  OutputConfig.mk [DocFormatPDF; DocFormatMarkdown; DocFormatHTML] "en" "Guide".

Definition mixed_task : Task.t :=
  Task.mk "task-3" "write the guide" "https://shop.example/"
    TaskStatusRunning None (Some Example.config) (Some mixed_output) None
    EmptyString 0 0 None.

Definition mixed_state : State :=
  mkState [] {[ 3%nat := mixed_task ]} {[ "task-3" := 3%nat ]}.





End Sample.

(** * The vocabulary of the properties *)

(** The six driver operations a step can stand for. *)
Definition is_action_call (c : Call.t) : bool :=
  match c with
  | Call.Navigate _ | Call.Click _ | Call.Fill _ _ | Call.Hover _
  | Call.Select _ _ | Call.WaitForSelector _ _ => true
  | _ => false
  end.

(** The calls of [dispatch]: at most one, never a snapshot. *)
Definition dispatch_calls (step : ActionStep.t) : list Call.t :=
  let a := ActionStep.Action step in
  if String.eqb a ActionNavigate then [Call.Navigate (ActionStep.Target step)]
  else if String.eqb a ActionClick then [Call.Click (ActionStep.Target step)]
  else if String.eqb a ActionFill then
    [Call.Fill (ActionStep.Target step) (ActionStep.Value step)]
  else if String.eqb a ActionHover then [Call.Hover (ActionStep.Target step)]
  else if String.eqb a ActionSelect then
    [Call.Select (ActionStep.Target step) (ActionStep.Value step)]
  else if String.eqb a ActionWait then
    if negb (String.eqb (ActionStep.WaitFor step) EmptyString) then
      [Call.WaitForSelector (ActionStep.WaitFor step) (10 * Second)]
    else [Call.Sleep (2 * Second)]
  else [].

(** [m] returns [a] from [st] after making the calls [delta] (most
    recent first) and nothing else to the state. *)
Definition runs {A : Type} (m : M A) (st : State) (a : A)
  (delta : list Call.t) : Prop :=
  m st = Returned a (set_trace (delta ++ trace st) st).

(** What a computation guarantees about the value it returns, when it
    returns. *)
Definition ensures {A : Type} (m : M A) (P : A -> Prop) : Prop :=
  forall st a st', m st = Returned a st' -> P a.

(** A computation returns from [st], with a value and a final state
    related by [Q]. *)
Definition returns_with {A : Type} (m : M A) (st : State)
  (Q : A -> State -> Prop) : Prop :=
  exists a st', m st = Returned a st' /\ Q a st'.

(** A computation that returns from every state. *)
Definition total {A : Type} (m : M A) : Prop :=
  forall st, exists a st', m st = Returned a st'.

(** A result of [ExecuteTask] that is not the failure of its "create
    llm client" branch. *)
Definition foreign_failure (r : option error) : Prop :=
  forall e, r <> Some (fmt_Errorf_w "create llm client" e).

(** What [Authenticate] promises: a session that expires after the
    instant at which it is returned, or an error and no session. *)
Definition session_or_error (env : Env)
  (r : option Session.t * option error) (st' : State) : Prop :=
  match r with
  | (Some s, None) => clock env (trace st') < Session.ExpiresAt s
  | (None, Some _) => True
  | _ => False
  end.

(** Whether [Chat] gets as far as sending: the body can be encoded and
    the URL is accepted by [http.NewRequestWithContext]. *)
Definition request_built (env : Env) (body : ChatBody.t) (url : string) : bool :=
  match json_Marshal body, http_NewRequest_error env url with
  | inl _, None => true
  | _, _ => false
  end.

(** The result of a [Chat]: a response and no error, or an error and no
    response. *)
Definition chat_result (r : option Response.t * option error) : Prop :=
  (exists resp, r = (Some resp, None)) \/ (exists e, r = (None, Some e)).

(** What a [Chat] does to the state: one request satisfying [P] when
    the request can be built, nothing otherwise. *)
Definition sends (env : Env) (m : M (option Response.t * option error))
  (body : ChatBody.t) (url : string) (P : Request.t -> Prop) (st : State)
  : Prop :=
  if request_built env body url then
    exists req r,
      m st = Returned r (set_trace (Call.HttpDo req :: trace st) st)
      /\ chat_result r
      /\ Request.Method req = "POST" /\ Request.URL req = url
      /\ Request.Body req = body /\ P req
  else
    exists e, m st = Returned (None, Some e) st.

(** The planner [ExecuteTask] builds: over the client of the factory. *)
Definition factory_planner (env : Env) (config : LLMConfig.t) : AIPlanner :=
  NewAIPlanner (fst (NewClient env config)).

(** The result of a refinement: a step and no error, or an error. *)
Definition refine_result (r : option ActionStep.t * option error) : Prop :=
  (exists refined, r = (Some refined, None)) \/ (exists x e, r = (x, Some e)).

(** Calls that are neither a driver action nor a snapshot. *)
Definition quiet (c : Call.t) : Prop :=
  is_action_call c = false /\ c <> Call.TakeSnapshot.

(** What the refinement does to the state: nothing, or the one request
    that carries the prompt made of [step] and [snap]. *)
Definition refine_request (step : ActionStep.t) (snap : PageSnapshot.t)
  (st1 st2 : State) : Prop :=
  st2 = st1
  \/ exists req,
       st2 = set_trace (Call.HttpDo req :: trace st1) st1
       /\ ChatBody.messages (Request.Body req)
          = [Message.mk "system" systemPrompt;
             Message.mk "user" (refinePrompt step snap)].

(** The screenshots an iteration appends. *)
Definition shots_of (screenshot : option Screenshot.t) : list Screenshot.t :=
  match screenshot with
  | Some s => [s]
  | None => []
  end.

(** The loop variables and the state at the end of an iteration that
    appends [result]. *)
Definition recorded (env : Env) (result : StepResult.t)
  (screenshot : option Screenshot.t) (ls : Loop.t) (st : State)
  : Loop.t * State :=
  (Loop.mk (Loop.stepResults ls ++ [result])
     (Loop.screenshots ls ++ shots_of screenshot)
     (fst (driver_snapshot env (Call.TakeSnapshot :: trace st))),
   set_trace (Call.TakeSnapshot :: trace st) st).

(** The ways an iteration ends, with the planner of the factory: the
    first attempt succeeds; it fails and the refinement fails; it fails
    and the refined step is executed; it fails while the loop holds no
    snapshot, and building the refinement prompt panics. *)
Inductive iteration_path (env : Env) (config : LLMConfig.t)
  (step : ActionStep.t) (ls : Loop.t) (st : State)
  : Outcome Loop.t -> Prop :=
| first_attempt_succeeds result shot st1 :
    executeStep env step st = Returned (result, shot, None) st1 ->
    iteration_path env config step ls st
      (Returned (fst (recorded env result shot ls st1))
                (snd (recorded env result shot ls st1)))
| refinement_fails result shot e st1 snap x rerr st2 :
    executeStep env step st = Returned (result, shot, Some e) st1 ->
    Loop.snapshot ls = Some snap ->
    RefineStep (factory_planner env config) step (Some snap) st1
    = Returned (x, Some rerr) st2 ->
    refine_request step snap st1 st2 ->
    iteration_path env config step ls st
      (Returned (Loop.mk (Loop.stepResults ls
                          ++ [StepResult.mk false (Error e) EmptyString])
                   (Loop.screenshots ls) (Loop.snapshot ls)) st2)
| refined_step_runs result shot e st1 snap refined st2 result' shot' err' st3 :
    executeStep env step st = Returned (result, shot, Some e) st1 ->
    Loop.snapshot ls = Some snap ->
    RefineStep (factory_planner env config) step (Some snap) st1
    = Returned (Some refined, None) st2 ->
    refine_request step snap st1 st2 ->
    executeStep env refined st2 = Returned (result', shot', err') st3 ->
    iteration_path env config step ls st
      (Returned (fst (recorded env result' shot' ls st3))
                (snd (recorded env result' shot' ls st3)))
| refinement_without_snapshot result shot e st1 :
    executeStep env step st = Returned (result, shot, Some e) st1 ->
    Loop.snapshot ls = None ->
    iteration_path env config step ls st (Panicked nil_dereference st1).

(** The snapshot claim as the spec states it, on an iteration that ends
    in [ls'] and [st']: the iteration ends by taking the snapshot again,
    and every request to the model comes right after a snapshot call
    whose answer is the one in its prompt. *)
Definition recaptured_after_step (env : Env) (ls' : Loop.t) (st' : State) : Prop :=
  exists earlier,
    trace st' = Call.TakeSnapshot :: earlier
    /\ Loop.snapshot ls' = fst (driver_snapshot env (trace st')).

Definition refined_from_fresh_snapshot (env : Env) (step : ActionStep.t)
  (st' : State) : Prop :=
  forall req later earlier,
    trace st' = later ++ Call.HttpDo req :: earlier ->
    exists before snap,
      earlier = Call.TakeSnapshot :: before
      /\ fst (driver_snapshot env earlier) = Some snap
      /\ ChatBody.messages (Request.Body req)
         = [Message.mk "system" systemPrompt;
            Message.mk "user" (refinePrompt step snap)].

(** The same run, seen with other task records. *)
Definition with_records {A : Type} (h : gmap nat Task.t) (tk : gmap string nat)
  (o : Outcome A) : Outcome A :=
  match o with
  | Returned a st' => Returned a (mkState (trace st') h tk)
  | Panicked reason st' => Panicked reason (mkState (trace st') h tk)
  end.

(** A computation that reads and writes nothing of the state but the
    trace: run on other task records it does the same, and leaves them
    as they are. *)
Definition trace_only {A : Type} (m : M A) : Prop :=
  forall st h tk, m (mkState (trace st) h tk) = with_records h tk (m st).

(** What a run shows to the world: the value it returns, if it returns,
    and the calls it has made. *)
Definition observed {A : Type} (o : Outcome A) : option A * list Call.t :=
  match o with
  | Returned a st' => (Some a, trace st')
  | Panicked _ st' => (None, trace st')
  end.

(** The status of the task at an address. *)
Definition status_at (task : nat) (st : State) : option TaskStatus :=
  Task.Status <$> heap st !! task.

(** A computation that leaves a status [s] of the task in place. *)
Definition keeps_status (task : nat) (s : TaskStatus) {A : Type} (m : M A)
  : Prop :=
  forall st a st',
    status_at task st = Some s -> m st = Returned a st' ->
    status_at task st' = Some s.

(** A brace. *)
Definition is_brace (c : ascii) : bool := Ascii.eqb c "{" || Ascii.eqb c "}".

(** The cancellation claim as the spec states it, between the state
    [st_c] in which the cancelled status is visible and a later state
    [st']: none of the calls made in between is a driver action, that
    is, no step was executed. *)
Definition no_step_after_cancellation (st_c st' : State) : Prop :=
  forall later,
    trace st' = later ++ trace st_c ->
    Forall (fun c => is_action_call c = false) later.

(** What a computation guarantees about the value and the state it
    returns with, when it returns. *)
Definition establishes {A : Type} (m : M A) (Q : A -> State -> Prop) : Prop :=
  forall st a st', m st = Returned a st' -> Q a st'.

(** The lifetime of a session: 24 hours from the instant at which
    [Authenticate] returns it. *)
Definition expires_in_24h (env : Env) (r : option Session.t * option error)
  (st' : State) : Prop :=
  forall s, fst r = Some s ->
            Session.ExpiresAt s = clock env (trace st') + 24 * Hour.

(** The line of an element in a prompt, the line that stands for the
    elements that are left out, and the lines of a list of elements. *)
Definition element_line (el : Element.t) : string :=
  "- <" +:+ Element.TagName el +:+ "> " +:+ Element.Text el +:+ LF.

Definition elements_left_out (n : Z) : string :=
  "... 还有 " +:+ itoa n +:+ " 个元素" +:+ LF.

Definition lines_of (elements : list Element.t) : string :=
  foldr (fun el rest => element_line el +:+ rest) EmptyString elements.

(** What of an element reaches a prompt. *)
Definition shown (el : Element.t) : string * string :=
  (Element.TagName el, Element.Text el).

(** The formats for which [generateDocuments] has a generator. *)
Definition has_generator (format : DocFormat) : bool :=
  String.eqb format DocFormatMarkdown || String.eqb format DocFormatHTML.

(** The entry of the task result that stands for the [k]-th step
    result [r], converted at the instant [now]. *)
Definition converted (now : Z) (k : nat) (r : StepResult.t) : TaskStep.t :=
  TaskStep.mk (Z.of_nat k + 1) EmptyString EmptyString (StepResult.Success r)
    (StepResult.Error r) None now.


(** A string that is one capital Latin letter. *)
Definition is_capital_letter (s : string) : bool :=
  match s with
  | String c EmptyString =>
      ((65 <=? nat_of_ascii c) && (nat_of_ascii c <=? 90))%nat
  | _ => false
  end.

(** The calls to a generator in a trace, and what the generators that
    succeeded produced (format and content), both oldest first. *)
Definition is_Generate (c : Call.t) : bool :=
  match c with
  | Call.Generate _ _ _ => true
  | _ => false
  end.

Fixpoint generate_calls (tr : list Call.t) : list Call.t :=
  match tr with
  | [] => []
  | c :: earlier => generate_calls earlier ++ (if is_Generate c then [c] else [])
  end.

Fixpoint generated (env : Env) (tr : list Call.t) : list (DocFormat * string) :=
  match tr with
  | [] => []
  | c :: earlier =>
      generated env earlier
      ++ match c with
         | Call.Generate format _ _ =>
             match docgen_Generate env tr with
             | inl doc => [(format, Document.Content doc)]
             | inr _ => []
             end
         | _ => []
         end
  end.

(** What a returned document says it is. *)
Definition format_and_content (d : DocumentInfo.t) : DocFormat * string :=
  (DocumentInfo.Format d, DocumentInfo.Content d).

(** * Properties *)

(** ** Running a computation *)

Lemma bind_Returned {A B : Type} (m : M A) (f : A -> M B) st a st1 :
  m st = Returned a st1 -> (m ≫= f) st = f a st1.
Proof. intros H. unfold mbind, M_mbind, M_bind. now rewrite H. Qed.

Lemma bind_Panicked {A B : Type} (m : M A) (f : A -> M B) st reason st1 :
  m st = Panicked reason st1 -> (m ≫= f) st = Panicked reason st1.
Proof. intros H. unfold mbind, M_mbind, M_bind. now rewrite H. Qed.

Lemma bind_inv {A B : Type} (m : M A) (f : A -> M B) st b st2 :
  (m ≫= f) st = Returned b st2 ->
  exists a st1, m st = Returned a st1 /\ f a st1 = Returned b st2.
Proof.
  unfold mbind, M_mbind, M_bind. destruct (m st) as [a st1|r st1]; intros H.
  - now exists a, st1.
  - discriminate.
Qed.

(** Unfold the monad down to functions on states. *)
Ltac monad_unfold :=
  unfold mbind, M_mbind, M_bind, mret, M_mret, M_ret, call, panic in *.

Lemma trace_set_trace tr st : trace (set_trace tr st) = tr.
Proof. reflexivity. Qed.

Lemma set_trace_set_trace t1 t2 st :
  set_trace t2 (set_trace t1 st) = set_trace t2 st.
Proof. reflexivity. Qed.

Lemma set_trace_trace st : set_trace (trace st) st = st.
Proof. now destruct st. Qed.

Lemma runs_ret {A : Type} (a : A) st : runs (mret a) st a [].
Proof. unfold runs. cbn. now rewrite set_trace_trace. Qed.

Lemma runs_bind {A B : Type} (m : M A) (f : A -> M B) st a d1 b d2 :
  runs m st a d1 ->
  runs (f a) (set_trace (d1 ++ trace st) st) b d2 ->
  runs (m ≫= f) st b (d2 ++ d1).
Proof.
  unfold runs. intros H1 H2. rewrite (bind_Returned _ _ _ _ _ H1), H2.
  now rewrite trace_set_trace, set_trace_set_trace, app_assoc.
Qed.

Lemma runs_call c st : runs (call c) st (c :: trace st) [c].
Proof. reflexivity. Qed.

Lemma runs_state {A : Type} (m : M A) st a delta :
  runs m st a delta ->
  exists st', m st = Returned a st' /\ trace st' = delta ++ trace st
              /\ heap st' = heap st /\ tasks st' = tasks st.
Proof. intros H. eexists. split; [exact H|]. now destruct st. Qed.

Section Steps.
Context (env : Env).

Lemma runs_driver c st :
  runs (driver env c) st (driver_error env (c :: trace st)) [c].
Proof. reflexivity. Qed.

Lemma runs_time_Sleep d st : runs (time_Sleep d) st () [Call.Sleep d].
Proof. reflexivity. Qed.

Lemma runs_time_Now st : runs (time_Now env) st (clock env (trace st)) [].
Proof. unfold runs, time_Now. cbn. now rewrite set_trace_trace. Qed.

Lemma runs_uuid st :
  runs (uuid_New_String env) st (uuid env (Call.UuidNew :: trace st))
    [Call.UuidNew].
Proof. reflexivity. Qed.

Lemma runs_TakeSnapshot st :
  runs (browser_TakeSnapshot env) st
    (driver_snapshot env (Call.TakeSnapshot :: trace st)) [Call.TakeSnapshot].
Proof. reflexivity. Qed.

Lemma dispatch_runs step st :
  exists err, runs (dispatch env step) st err (dispatch_calls step).
Proof.
  unfold dispatch, dispatch_calls.
  repeat (destruct (String.eqb _ _); [eexists; apply runs_driver|]).
  destruct (String.eqb _ ActionWait).
  - destruct (negb _); eexists; [apply runs_driver|reflexivity].
  - eexists. apply runs_ret.
Qed.

(** The calls of [capture]. *)
Lemma capture_runs step st :
  exists shot delta,
    runs (capture env step) st shot delta
    /\ Forall (fun c => is_action_call c = false /\ c <> Call.TakeSnapshot) delta.
Proof.
  unfold capture. destruct (ActionStep.Screenshot step).
  - unfold browser_TakeScreenshot.
    destruct (driver_screenshot env
                (Call.TakeScreenshot (ScreenshotOptions.mk false 90 "png")
                 :: trace st)) as [img [e|]] eqn:E.
    + exists None, [Call.TakeScreenshot (ScreenshotOptions.mk false 90 "png")].
      split.
      * unfold runs. monad_unfold. cbn. now rewrite E.
      * repeat constructor; discriminate.
    + eexists _, [Call.UuidNew;
                  Call.TakeScreenshot (ScreenshotOptions.mk false 90 "png")].
      split.
      * unfold runs, uuid_New_String, time_Now. monad_unfold. cbn.
        now rewrite E.
      * repeat constructor; discriminate.
  - exists None, []. split; [apply runs_ret|constructor].
Qed.

(** [executeStep] always returns.  Its calls are those of [dispatch]
    and, when that succeeds, the settle delay and the screenshot; a
    failure is reported with the text of the driver's error. *)
Lemma executeStep_runs step st :
  exists result shot err delta,
    runs (executeStep env step) st (result, shot, err) (delta ++ dispatch_calls step)
    /\ Forall (fun c => is_action_call c = false /\ c <> Call.TakeSnapshot) delta
    /\ match err with
       | Some e => result = StepResult.mk false (Error e) EmptyString
                   /\ shot = None /\ delta = []
       | None => result = StepResult.mk true EmptyString EmptyString
       end.
Proof.
  destruct (dispatch_runs step st) as [err Hd].
  unfold executeStep. destruct err as [e|].
  - exists (StepResult.mk false (Error e) EmptyString), None, (Some e), [].
    split; [|split; [constructor|easy]].
    unfold runs in *. now rewrite (bind_Returned _ _ _ _ _ Hd).
  - destruct (capture_runs step
                (set_trace (Call.Sleep (500 * Millisecond)
                            :: dispatch_calls step ++ trace st) st))
      as (shot & dc & Hc & Hf).
    exists (StepResult.mk true EmptyString EmptyString), shot, None,
      (dc ++ [Call.Sleep (500 * Millisecond)]).
    split; [|split; [|reflexivity]].
    + unfold runs in *. rewrite (bind_Returned _ _ _ _ _ Hd). cbn beta iota.
      erewrite bind_Returned by reflexivity.
      erewrite bind_Returned by exact Hc.
      cbn. now rewrite <- !app_assoc.
    + apply Forall_app. split; [exact Hf|]. repeat constructor; discriminate.
Qed.

End Steps.

(** ** Unhandled action kinds *)

Lemma dispatch_unhandled (env : Env) (step : ActionStep.t) :
  ActionStep.Action step
    ∉ [ActionNavigate; ActionClick; ActionFill; ActionHover; ActionSelect;
       ActionWait] ->
  dispatch env step = mret None.
Proof.
  intros Hkind. unfold dispatch.
  repeat match goal with
         | |- context [String.eqb ?a ?b] =>
             destruct (String.eqb_spec a b) as [Heq|_];
             [exfalso; apply Hkind; rewrite Heq; set_solver|]
         end.
  reflexivity.
Qed.

(** C9.  A step whose kind is none of navigate, click, fill, hover,
    select and wait (so also screenshot, scroll and any other string)
    makes [executeStep] return a successful result without an error,
    and none of the calls it makes is one of the driver's action
    operations: the state changes by the trace only, and the trace grows
    by calls that are not actions (the settle delay and, when the step
    asks for it, the screenshot). *)
Theorem executeStep_unhandled_kind (env : Env) (step : ActionStep.t) (st : State) :
  ActionStep.Action step
    ∉ [ActionNavigate; ActionClick; ActionFill; ActionHover; ActionSelect;
       ActionWait] ->
  exists shot delta,
    runs (executeStep env step) st
      (StepResult.mk true EmptyString EmptyString, shot, None) delta
    /\ Forall (fun c => is_action_call c = false) delta.
Proof.
  intros Hkind.
  destruct (capture_runs env step
              (set_trace (Call.Sleep (500 * Millisecond) :: trace st) st))
    as (shot & dc & Hc & Hf).
  exists shot, (dc ++ [Call.Sleep (500 * Millisecond)]). split.
  - unfold runs in *. unfold executeStep.
    rewrite (dispatch_unhandled env step Hkind).
    erewrite bind_Returned by reflexivity. cbn beta iota.
    erewrite bind_Returned by reflexivity.
    erewrite bind_Returned by exact Hc.
    cbn. now rewrite <- !app_assoc.
  - apply Forall_app. split.
    + eapply Forall_impl; [exact Hf|]. now intros c [H _].
    + now repeat constructor.
Qed.

Lemma executeStep_unhandled_kind_witness :
  (ActionStep.Action Example.scroll
     ∉ [ActionNavigate; ActionClick; ActionFill; ActionHover; ActionSelect;
        ActionWait])
  /\ exists shot delta,
       runs (executeStep Example.env_offline Example.scroll) Example.st0
         (StepResult.mk true EmptyString EmptyString, shot, None) delta
       /\ Forall (fun c => is_action_call c = false) delta.
Proof.
  assert (H : ActionStep.Action Example.scroll
                ∉ [ActionNavigate; ActionClick; ActionFill; ActionHover;
                   ActionSelect; ActionWait]).
  { apply (bool_decide_unpack _). vm_compute. exact I. }
  split; [exact H|].
  apply (executeStep_unhandled_kind Example.env_offline Example.scroll
           Example.st0 H).
Defined.

(** ** The client factory *)

Lemma ensures_ret {A : Type} (a : A) (P : A -> Prop) : P a -> ensures (mret a) P.
Proof. intros H st a' st' E. cbv in E. now injection E as <- _. Qed.

Lemma ensures_panic {A : Type} reason (P : A -> Prop) : ensures (panic reason) P.
Proof. intros st a st' E. discriminate. Qed.

Lemma ensures_bind {A B : Type} (m : M A) (f : A -> M B) (P : B -> Prop) :
  (forall a, ensures (f a) P) -> ensures (m ≫= f) P.
Proof.
  intros H st b st' E. apply bind_inv in E as (a & st1 & _ & E).
  exact (H a _ _ _ E).
Qed.

Lemma ensures_bind_with {A B : Type} (Q : A -> Prop) (m : M A) (f : A -> M B)
  (P : B -> Prop) :
  ensures m Q -> (forall a, Q a -> ensures (f a) P) -> ensures (m ≫= f) P.
Proof.
  intros Hm H st b st' E. apply bind_inv in E as (a & st1 & Em & E).
  exact (H a (Hm _ _ _ Em) _ _ _ E).
Qed.

Lemma ensures_defer {A B : Type} (f : M B) (body : M A) (P : A -> Prop) :
  ensures body P -> ensures (defer_ f body) P.
Proof.
  intros H st a st' E. unfold defer_ in E.
  destruct (body st) as [a0 st1|r st1] eqn:Eb.
  - destruct (f st1); [|discriminate]. injection E as <- _. exact (H _ _ _ Eb).
  - destruct (f st1); discriminate.
Qed.

Lemma ensures_failTask env task err :
  ensures (failTask env task err) (fun r => r = Some err).
Proof.
  unfold failTask. repeat (apply ensures_bind; intros). now apply ensures_ret.
Qed.

(** One step of a proof of [ensures] along the shape of the code. *)
Ltac ensures_step :=
  match goal with
  | |- ensures (mret _) _ => apply ensures_ret
  | |- ensures (panic _) _ => apply ensures_panic
  | |- ensures (failTask _ _ _) _ =>
      intros ? ? ? E; apply ensures_failTask in E; subst
  | |- ensures (failTask _ _ ?err ≫= _) _ =>
      apply (ensures_bind_with (fun r => r = Some err));
      [apply ensures_failTask | intros ? ->]
  | |- ensures (_ ≫= _) _ => apply ensures_bind; intros
  | |- ensures (match ?x with _ => _ end) _ => destruct x
  end.

Lemma ExecuteTask_plan_failures env task aiPlanner :
  ensures (ExecuteTask_plan env task aiPlanner)
    (fun r => match r with
              | inl result => foreign_failure result
              | inr _ => True
              end).
Proof.
  unfold ExecuteTask_plan.
  repeat first [ensures_step | exact I | (unfold foreign_failure; intros; discriminate)].
Qed.

Lemma ExecuteTask_finish_failures env task startTime plan ls :
  ensures (ExecuteTask_finish env task startTime plan ls) foreign_failure.
Proof.
  unfold ExecuteTask_finish.
  repeat first [ensures_step | (unfold foreign_failure; intros; discriminate)].
Qed.

(** C10.  For every configuration the factory returns a client and no
    error: the Anthropic client when the provider is [anthropic], the
    OpenAI-compatible client for every other provider string.  So
    [ExecuteTask] never returns the failure of its "create llm client"
    branch. *)
Theorem NewClient_never_fails (env : Env) (config : LLMConfig.t) :
  (exists c : LLMClient,
     NewClient env config = (Some c, None)
     /\ c = if String.eqb (LLMConfig.Provider config) LLMProviderAnthropic
            then AnthropicClient_LLMClient env (NewAnthropicClient config)
            else OpenAICompatibleClient_LLMClient env
                   (NewOpenAICompatibleClient config))
  /\ (forall task : nat, ensures (ExecuteTask env task) foreign_failure).
Proof.
  split.
  - unfold NewClient.
    destruct (String.eqb (LLMConfig.Provider config) LLMProviderAnthropic);
      eexists; split; reflexivity.
  - intros task. unfold ExecuteTask.
    repeat first
      [ match goal with
        | |- ensures (let '(_, _) := NewClient ?e ?c in _) _ =>
            let HN := fresh "HN" in
            assert (HN : snd (NewClient e c) = None)
              by (unfold NewClient; now destruct (String.eqb _ _));
            destruct (NewClient e c) as [? ?]; cbn in HN; subst;
            cbv beta iota
        | |- ensures (defer_ _ _) _ => apply ensures_defer
        | |- ensures (ExecuteTask_plan _ _ _ ≫= _) _ =>
            eapply ensures_bind_with;
            [apply ExecuteTask_plan_failures|]; intros [?|[? ?]] ?
        | |- ensures (ExecuteTask_finish _ _ _ _ _) _ =>
            apply ExecuteTask_finish_failures
        | |- ensures (match None with _ => _ end) _ => cbv beta iota
        end
      | ensures_step
      | assumption
      | (unfold foreign_failure; intros; discriminate) ].
Qed.

(** ** Sessions *)

(** C7.  [ValidateSession] answers [false] for a nil session and for a
    session whose expiry lies before the current instant, and [true]
    otherwise (the comparison is [time.Time.After], so a session is
    still valid at the very instant of its expiry); its error is always
    nil, and it makes no call. *)
Theorem ValidateSession_spec (env : Env) (session : option Session.t) (st : State) :
  let now := clock env (trace st) in
  exists valid : bool,
    ValidateSession env session st = Returned (valid, None) st
    /\ (valid = true <->
        exists s, session = Some s /\ now <= Session.ExpiresAt s)
    /\ (valid = false <->
        session = None \/ exists s, session = Some s /\ Session.ExpiresAt s < now).
Proof.
  intros now. destruct session as [s|]; cbn.
  - unfold time_Now. monad_unfold. fold now.
    destruct (Z.ltb_spec (Session.ExpiresAt s) now) as [Hlt|Hge].
    + exists false. split; [reflexivity|]. split; split; try discriminate.
      * intros (s' & [= <-] & H). lia.
      * intros _. right. now exists s.
      * reflexivity.
    + exists true. split; [reflexivity|]. split; split; try discriminate.
      * intros _. now exists s.
      * reflexivity.
      * intros [H|(s' & [= <-] & H)]; [discriminate|lia].
  - exists false. split; [reflexivity|]. split; split; try discriminate.
    + intros (s & H & _). discriminate.
    + intros _. now left.
    + reflexivity.
Qed.

Lemma returns_ret {A : Type} (a : A) st (Q : A -> State -> Prop) :
  Q a st -> returns_with (mret a) st Q.
Proof. intros H. now exists a, st. Qed.

Lemma returns_bind {A B : Type} (m : M A) (f : A -> M B) st
  (Q : B -> State -> Prop) :
  total m -> (forall a st1, returns_with (f a) st1 Q) ->
  returns_with (m ≫= f) st Q.
Proof.
  intros Hm Hf. destruct (Hm st) as (a & st1 & E).
  destruct (Hf a st1) as (b & st2 & E2 & HQ).
  exists b, st2. split; [|exact HQ]. now rewrite (bind_Returned _ _ _ _ _ E).
Qed.

Lemma total_ret {A : Type} (a : A) : total (mret a).
Proof. intros st. now exists a, st. Qed.

Lemma total_bind {A B : Type} (m : M A) (f : A -> M B) :
  total m -> (forall a, total (f a)) -> total (m ≫= f).
Proof.
  intros Hm Hf st. destruct (Hm st) as (a & st1 & E).
  destruct (Hf a st1) as (b & st2 & E2). exists b, st2.
  now rewrite (bind_Returned _ _ _ _ _ E).
Qed.

Lemma total_call c : total (call c).
Proof. intros st. eexists _, _. reflexivity. Qed.

Lemma total_driver env c : total (driver env c).
Proof. intros st. eexists _, _. reflexivity. Qed.

Lemma total_time_Sleep d : total (time_Sleep d).
Proof. intros st. eexists _, _. reflexivity. Qed.

Lemma total_GetCurrentURL env : total (browser_GetCurrentURL env).
Proof. intros st. eexists _, _. reflexivity. Qed.

Lemma total_GetCookies env : total (browser_GetCookies env).
Proof. intros st. eexists _, _. reflexivity. Qed.

Lemma total_first_success (f : string -> M (option error)) sels :
  (forall sel, total (f sel)) -> total (first_success f sels).
Proof.
  intros Hf. induction sels as [|sel rest IH]; cbn.
  - apply total_ret.
  - apply total_bind; [apply Hf|]. intros [e|]; [exact IH|apply total_ret].
Qed.

Lemma total_performSSOLogin env creds sso : total (performSSOLogin env creds sso).
Proof.
  unfold performSSOLogin.
  apply total_bind; [apply total_first_success; intros; apply total_driver|].
  intros _. apply total_bind; [apply total_driver|].
  intros [e|]; [apply total_ret|].
  apply total_bind; [apply total_first_success; intros; apply total_driver|].
  intros _. apply total_ret.
Qed.

Lemma new_session_fresh env cookies headers st :
  returns_with (new_session env cookies headers) st
    (fun s st' => clock env (trace st') < Session.ExpiresAt s
                  /\ trace st' = Call.UuidNew :: trace st).
Proof.
  eexists _, _. split; [reflexivity|]. cbn. split; [|reflexivity].
  unfold Hour, Minute, Second, Millisecond. lia.
Qed.

Lemma new_session_ok env cookies headers st :
  returns_with (s ← new_session env cookies headers; mret (Some s, None)) st
    (session_or_error env).
Proof.
  destruct (new_session_fresh env cookies headers st) as (s & st' & E & H & _).
  exists (Some s, None), st'. split; [|exact H].
  now rewrite (bind_Returned _ _ _ _ _ E).
Qed.

Lemma harvest_cookies_ok env st :
  returns_with (harvest_cookies env) st (session_or_error env).
Proof.
  unfold harvest_cookies. apply returns_bind; [apply total_GetCookies|].
  intros [cookies [e|]] st1; [now apply returns_ret|apply new_session_ok].
Qed.

(** One step of a proof of [returns_with] along the shape of the code. *)
Ltac returns_step env :=
  match goal with
  | |- returns_with (mret _) _ _ => apply returns_ret; exact I
  | |- returns_with (harvest_cookies _) _ _ => apply harvest_cookies_ok
  | |- returns_with (_ ← new_session _ _ _; mret (Some _, None)) _ _ =>
      apply new_session_ok
  | |- returns_with (_ ≫= _) _ _ =>
      apply returns_bind;
      [first [apply total_driver | apply total_time_Sleep
             | apply total_GetCurrentURL | apply total_performSSOLogin
             | apply total_call | apply total_ret
             | (apply total_first_success; intros; apply total_driver)]
      |intros ? ?]
  | |- returns_with (match ?x with _ => _ end) _ _ => destruct x
  | |- returns_with (if ?b then _ else _) _ _ => destruct b
  end.

Lemma authenticateManually_loop_ok env ticks st :
  returns_with (authenticateManually_loop env ticks) st (session_or_error env).
Proof.
  revert st. induction ticks as [|n IH]; intros st; cbn.
  - now apply returns_ret.
  - repeat first [apply IH | returns_step env].
Qed.

Lemma Authenticate_ok env config st :
  returns_with (Authenticate env config) st (session_or_error env).
Proof.
  unfold Authenticate.
  repeat match goal with
         | |- returns_with (if String.eqb ?a ?b then _ else _) _ _ =>
             destruct (String.eqb a b)
         end.
  - unfold createEmptySession. apply new_session_ok.
  - unfold authenticateWithForm. repeat returns_step env.
  - unfold authenticateWithSSO.
    repeat first
      [ returns_step env
      | (apply returns_bind;
         [destruct (isOnSSOPage _ _);
          [destruct (AuthConfig.Credentials config);
           [apply total_performSSOLogin|apply total_ret]|apply total_ret]
         |intros ? ?]) ].
  - apply authenticateManually_loop_ok.
  - unfold authenticateWithCookies. repeat returns_step env.
  - unfold authenticateWithToken. repeat returns_step env.
  - now apply returns_ret.
Qed.

(** C6.  For every configuration [Authenticate] returns, and what it
    returns is either a session whose expiry lies after the instant of
    the return and no error, or an error and no session.  Type [none]
    gives a session and no error at once (no driver call and no delay:
    the only call is the one that draws the session id); type [cookie]
    without cookies fails with "cookies required" and type [token]
    without a token fails with "token required", both before any
    call. *)
Theorem Authenticate_session_or_error (env : Env) (config : AuthConfig.t) (st : State) :
  exists session err st',
    Authenticate env config st = Returned (session, err) st'
    /\ ((err = None /\ exists s, session = Some s
                                 /\ clock env (trace st') < Session.ExpiresAt s)
        \/ (session = None /\ exists e, err = Some e))
    /\ (AuthConfig.Type_ config = AuthTypeNone ->
        err = None /\ trace st' = Call.UuidNew :: trace st)
    /\ (AuthConfig.Type_ config = AuthTypeCookie ->
        AuthConfig.Cookies config = [] ->
        err = Some (errors_New "cookies required") /\ st' = st)
    /\ (AuthConfig.Type_ config = AuthTypeToken ->
        (forall creds, AuthConfig.Credentials config = Some creds ->
                       Credentials.Token creds = EmptyString) ->
        err = Some (errors_New "token required") /\ st' = st).
Proof.
  destruct (Authenticate_ok env config st) as ([session err] & st' & E & H).
  exists session, err, st'. split; [exact E|]. split; [|split; [|split]].
  - unfold session_or_error in H.
    destruct session as [s|], err as [e|]; try contradiction.
    + left. split; [reflexivity|]. now exists s.
    + right. split; [reflexivity|]. now exists e.
  - intros Hty. unfold Authenticate in E. rewrite Hty in E. cbn in E.
    unfold createEmptySession in E.
    destruct (new_session_fresh env [] ∅ st) as (s & st1 & E1 & _ & Htr).
    rewrite (bind_Returned _ _ _ _ _ E1) in E. cbv in E.
    injection E as _ <- <-. now split.
  - intros Hty Hc. unfold Authenticate in E. rewrite Hty in E. cbn in E.
    unfold authenticateWithCookies in E. rewrite Hc in E. cbv in E.
    injection E as _ <- <-. now split.
  - intros Hty Hc. unfold Authenticate in E. rewrite Hty in E. cbn in E.
    unfold authenticateWithToken in E.
    destruct (AuthConfig.Credentials config) as [creds|].
    + rewrite (Hc creds eq_refl) in E. cbv in E. injection E as _ <- <-.
      now split.
    + cbv in E. injection E as _ <- <-. now split.
Qed.

(** ** The requests of the two clients *)

Lemma OpenAICompatibleClient_Chat_sends env c messages st :
  let config := OpenAICompatibleClient.config c in
  sends env (OpenAICompatibleClient_Chat env c messages)
    (OpenAI_reqBody config messages)
    (LLMConfig.Endpoint config +:+ "/chat/completions")
    (fun req =>
       Request.Header req !! "Authorization"
       = if String.eqb (LLMConfig.APIKey config) EmptyString then None
         else Some ("Bearer " +:+ LLMConfig.APIKey config))
    st.
Proof.
  intros config. unfold sends, request_built, OpenAICompatibleClient_Chat.
  fold config. unfold http_NewRequest.
  destruct (json_Marshal (OpenAI_reqBody config messages)) as [body|err] eqn:Em;
    [|eexists; reflexivity].
  assert (Hb : body = OpenAI_reqBody config messages).
  { unfold json_Marshal in Em.
    destruct (ChatBody.temperature _) as [t|]; [destruct (float64.finite t)|];
      congruence. }
  destruct (http_NewRequest_error env _) as [err|]; [eexists; reflexivity|].
  eexists _, _. split; [|split; [|split; [|split; [|split]]]].
  - unfold httpClient_Do. monad_unfold. cbn beta iota. reflexivity.
  - unfold chat_result, OpenAI_result.
    destruct (http_Do env _) as [resp|err]; [|right; eauto].
    destruct (negb _); [right; eauto|].
    destruct (Decode_OpenAIResponse _) as [result [err|]]; [right; eauto|].
    destruct (OpenAIResponse.Choices result); [right|left]; eauto.
  - destruct (String.eqb _ _); reflexivity.
  - destruct (String.eqb _ _); reflexivity.
  - destruct (String.eqb _ _); cbn; exact Hb.
  - destruct (String.eqb _ _); cbn.
    + now rewrite lookup_insert_ne.
    + now rewrite lookup_insert_eq.
Qed.

Lemma AnthropicClient_Chat_sends env c messages st :
  let config := AnthropicClient.config c in
  sends env (AnthropicClient_Chat env c messages)
    (Anthropic_reqBody config messages)
    (LLMConfig.Endpoint config +:+ "/messages")
    (fun req =>
       Request.Header req !! "x-api-key" = Some (LLMConfig.APIKey config)
       /\ Request.Header req !! "anthropic-version" = Some "2023-06-01"
       /\ Request.Header req !! "Authorization" = None)
    st.
Proof.
  intros config. unfold sends, request_built, AnthropicClient_Chat.
  fold config. unfold http_NewRequest.
  destruct (json_Marshal (Anthropic_reqBody config messages)) as [body|err] eqn:Em;
    [|eexists; reflexivity].
  assert (Hb : body = Anthropic_reqBody config messages).
  { unfold json_Marshal in Em.
    destruct (ChatBody.temperature _) as [t|]; [destruct (float64.finite t)|];
      congruence. }
  destruct (http_NewRequest_error env _) as [err|]; [eexists; reflexivity|].
  eexists _, _. split; [|split; [|split; [|split; [|split]]]].
  - unfold httpClient_Do. monad_unfold. cbn beta iota. reflexivity.
  - unfold chat_result, Anthropic_result.
    destruct (http_Do env _) as [resp|err]; [|right; eauto].
    destruct (negb _); [right; eauto|].
    destruct (Decode_AnthropicResponse _) as [result [err|]]; [right; eauto|].
    destruct (AnthropicResponse.Content result); [right|left]; eauto.
  - reflexivity.
  - reflexivity.
  - exact Hb.
  - cbn. split; [|split].
    + rewrite lookup_insert_ne by discriminate. now rewrite lookup_insert_eq.
    + now rewrite lookup_insert_eq.
    + now repeat (rewrite lookup_insert_ne by discriminate).
Qed.

(** C8.  For provider [openai] and an empty endpoint the factory's
    client works against https://api.openai.com/v1: whenever its [Chat]
    can build the request, it makes exactly one call, a POST to
    <endpoint>/chat/completions, whose Authorization header is
    "Bearer <key>" when the key is not empty (and absent when it is).
    For provider [anthropic] the client's [Chat] posts to
    <endpoint>/messages with the key in x-api-key, with
    anthropic-version, and without an Authorization header. *)
Theorem factory_clients_requests (env : Env) :
  (forall model key options,
     let config := LLMConfig.mk LLMProviderOpenAI model EmptyString key options in
     exists c : LLMClient,
       NewClient env config = (Some c, None)
       /\ LLMConfig.Endpoint (config_after_NewClient config)
          = "https://api.openai.com/v1"
       /\ forall messages st,
            sends env (Chat c messages) (OpenAI_reqBody config messages)
              ("https://api.openai.com/v1" +:+ "/chat/completions")
              (fun req =>
                 Request.Header req !! "Authorization"
                 = if String.eqb key EmptyString then None
                   else Some ("Bearer " +:+ key))
              st)
  /\ (forall model endpoint key options,
        let config :=
          LLMConfig.mk LLMProviderAnthropic model endpoint key options in
        exists c : LLMClient,
          NewClient env config = (Some c, None)
          /\ forall messages st,
               sends env (Chat c messages) (Anthropic_reqBody config messages)
                 (LLMConfig.Endpoint (config_after_NewClient config)
                  +:+ "/messages")
                 (fun req =>
                    Request.Header req !! "x-api-key" = Some key
                    /\ Request.Header req !! "anthropic-version"
                       = Some "2023-06-01"
                    /\ Request.Header req !! "Authorization" = None)
                 st).
Proof.
  split.
  - intros model key options config. eexists. split; [reflexivity|].
    split; [reflexivity|]. intros messages st.
    exact (OpenAICompatibleClient_Chat_sends env
             (NewOpenAICompatibleClient config) messages st).
  - intros model endpoint key options config. eexists.
    split; [reflexivity|]. intros messages st.
    pose proof (AnthropicClient_Chat_sends env (NewAnthropicClient config)
                  messages st) as H.
    cbn zeta in H. unfold config_after_NewClient. cbn [LLMConfig.Provider config].
    replace (String.eqb LLMProviderAnthropic LLMProviderAnthropic) with true
      by reflexivity.
    unfold NewAnthropicClient in *. cbn [AnthropicClient.config] in *.
    destruct (String.eqb (LLMConfig.Endpoint config) EmptyString); exact H.
Qed.

(** ** Recovering the plan from the reply *)

(** Where the reply has no brace before the opening brace of its first
    balanced run, [extractJSON] returns that run: the first balanced
    brace-delimited substring of the spec. *)

Lemma substring_as_list (s : string) (n m : nat) :
  list_ascii_of_string (String.substring n m s)
  = take m (drop n (list_ascii_of_string s)).
Proof.
  revert n m. induction s as [|c s IH]; intros [|n] [|m]; cbn; try reflexivity.
  - now rewrite IH.
  - now rewrite IH.
  - now rewrite IH.
Qed.

Lemma extractJSON_loop_inside (rest : list ascii) (j start : Z) (k : nat) :
  start <> -1 ->
  extractJSON_loop rest j start (Z.of_nat (S k))
  = match matching_brace rest k with
    | Some n => (start, j + Z.of_nat n)
    | None => (start, -1)
    end.
Proof.
  intros Hs. revert j k. induction rest as [|c rest IH]; intros j k.
  - reflexivity.
  - cbn [extractJSON_loop matching_brace].
    destruct (Z.eqb_spec start (-1)) as [|_]; [contradiction|].
    destruct (Ascii.eqb c "{").
    + replace (Z.of_nat (S k) + 1) with (Z.of_nat (S (S k))) by lia.
      rewrite IH. destruct (matching_brace rest (S k)) as [n|]; cbn; [|reflexivity].
      f_equal. lia.
    + destruct (Ascii.eqb c "}").
      * destruct k as [|k].
        -- cbn. f_equal.
        -- replace (Z.of_nat (S (S k)) - 1) with (Z.of_nat (S k)) by lia.
           destruct (Z.eqb_spec (Z.of_nat (S k)) 0) as [H0|_]; [lia|].
           rewrite IH. destruct (matching_brace rest k) as [n|]; cbn; [|reflexivity].
           f_equal. lia.
      * rewrite IH. destruct (matching_brace rest k) as [n|]; cbn; [|reflexivity].
        f_equal. lia.
Qed.

Lemma extractJSON_loop_prose (pre rest : list ascii) (i : Z) :
  forallb (fun c => negb (is_brace c)) pre = true ->
  extractJSON_loop (pre ++ rest) i (-1) 0
  = extractJSON_loop rest (i + Z.of_nat (length pre)) (-1) 0.
Proof.
  revert i. induction pre as [|c pre IH]; intros i H.
  - cbn. f_equal. lia.
  - cbn in H. apply andb_prop in H as [Hc H]. unfold is_brace in Hc.
    apply negb_true_iff, orb_false_elim in Hc as [H1 H2].
    cbn [app extractJSON_loop]. rewrite H1, H2, (IH _ H). f_equal.
    cbn [length]. lia.
Qed.

Lemma spec_first_balanced_loop_prose (pre rest : list ascii) :
  forallb (fun c => negb (is_brace c)) pre = true ->
  spec_first_balanced_loop (pre ++ rest) = spec_first_balanced_loop rest.
Proof.
  induction pre as [|c pre IH]; intros H; [reflexivity|].
  cbn in H. apply andb_prop in H as [Hc H]. unfold is_brace in Hc.
  apply negb_true_iff, orb_false_elim in Hc as [H1 _].
  cbn [app spec_first_balanced_loop]. now rewrite H1, (IH H).
Qed.

Lemma extractJSON_first_balanced (content : string) (pre rest : list ascii)
  (n : nat) :
  list_ascii_of_string content = pre ++ "{"%char :: rest ->
  forallb (fun c => negb (is_brace c)) pre = true ->
  matching_brace rest 0 = Some n ->
  spec_first_balanced content = Some (extractJSON content)
  /\ extractJSON content = string_of_list_ascii ("{"%char :: take n rest).
Proof.
  intros Hc Hpre Hm.
  assert (E : extractJSON content = string_of_list_ascii ("{"%char :: take n rest)).
  { unfold extractJSON. rewrite Hc, (extractJSON_loop_prose _ _ _ Hpre).
    cbn [extractJSON_loop]. replace (Ascii.eqb "{" "{") with true by reflexivity.
    replace (-1 =? -1) with true by reflexivity.
    replace (0 + 1) with (Z.of_nat 1) by reflexivity.
    rewrite extractJSON_loop_inside by lia. rewrite Hm.
    destruct (Z.eqb_spec (0 + Z.of_nat (length pre)) (-1)) as [H|_]; [lia|].
    destruct (Z.eqb_spec (0 + Z.of_nat (length pre) + 1 + Z.of_nat n) (-1))
      as [H|_]; [lia|].
    cbn [negb andb].
    rewrite <- (string_of_list_ascii_of_string (String.substring _ _ content)).
    f_equal. rewrite substring_as_list, Hc.
    replace (Z.to_nat (0 + Z.of_nat (length pre))) with (length pre) by lia.
    replace (Z.to_nat (0 + Z.of_nat (length pre) + 1 + Z.of_nat n
                       - (0 + Z.of_nat (length pre))))
      with (S n) by lia.
    rewrite drop_app_length. reflexivity. }
  split; [|exact E].
  unfold spec_first_balanced.
  rewrite Hc, (spec_first_balanced_loop_prose _ _ Hpre).
  cbn [spec_first_balanced_loop]. replace (Ascii.eqb "{" "{") with true by reflexivity.
  rewrite Hm. cbn. now rewrite E.
Qed.

Lemma ParseTask_of_reply (p : AIPlanner) (req : PlanRequest.t) st resp st' :
  llmClient_Chat p
    [Message.mk "system" systemPrompt;
     Message.mk "user" (buildTaskParsePrompt req)] st
  = Returned (Some resp, None) st' ->
  ParseTask p req st = Returned (plan_of_reply (Response.Content resp)) st'.
Proof.
  intros H. unfold ParseTask. now rewrite (bind_Returned _ _ _ _ _ H).
Qed.

(** The reply of the spec's example: strict parsing fails on the prose,
    the object between the braces is extracted and decoded. *)
Lemma ParseTask_wrapped_reply (st : State) :
  Unmarshal_TaskPlan Example.wrapped_reply TaskPlan.zero
  = (TaskPlan.zero, Some json.SyntaxError)
  /\ extractJSON Example.wrapped_reply
     = go_str "{'task_id':'t1','description':'d','steps':[]}"
  /\ ParseTask (NewAIPlanner (Some (Example.answering Example.wrapped_reply)))
       Example.request st
     = Returned (Some (TaskPlan.mk "t1" "d" []), None) st.
Proof.
  split; [|split]; vm_compute; reflexivity.
Qed.

(** C5, where the code departs from it.  The reply
    [Plan ready :-} {"task_id":"t1","description":"d","steps":[]}] is not
    JSON as a whole, and its first balanced brace-delimited substring is
    an object that decodes to the plan [t1]/[d] without steps.
    [extractJSON] counts the closing brace of the prose before any
    opening brace, never sees the depth come back to zero and returns
    the whole reply, so [ParseTask] fails with "parse plan". *)
Theorem ParseTask_stray_closing_brace (st : State) :
  (exists object,
     spec_first_balanced Example.stray_brace_reply = Some object
     /\ Unmarshal_TaskPlan object TaskPlan.zero
        = (TaskPlan.mk "t1" "d" [], None))
  /\ extractJSON Example.stray_brace_reply = Example.stray_brace_reply
  /\ ParseTask (NewAIPlanner (Some (Example.answering Example.stray_brace_reply)))
       Example.request st
     = Returned (None, Some (fmt_Errorf_w "parse plan" json.SyntaxError)) st.
Proof.
  split; [|split].
  - exists (go_str "{'task_id':'t1','description':'d','steps':[]}").
    split; vm_compute; reflexivity.
  - vm_compute; reflexivity.
  - vm_compute; reflexivity.
Qed.

(** ** The step loop *)

(** A [Chat] of the factory's client returns, and what it does to the
    state is at most one request, carrying the messages. *)
Lemma factory_Chat env config messages st :
  exists r st',
    llmClient_Chat (factory_planner env config) messages st = Returned r st'
    /\ chat_result r
    /\ (st' = st
        \/ exists req,
             st' = set_trace (Call.HttpDo req :: trace st) st
             /\ ChatBody.messages (Request.Body req) = messages).
Proof.
  unfold factory_planner, NewClient, llmClient_Chat.
  destruct (String.eqb (LLMConfig.Provider config) LLMProviderAnthropic); cbn.
  - pose proof (AnthropicClient_Chat_sends env (NewAnthropicClient config)
                  messages st) as H.
    cbn zeta in H. unfold sends in H. destruct (request_built _ _ _).
    + destruct H as (req & r & E & Hr & _ & _ & Hb & _).
      exists r, (set_trace (Call.HttpDo req :: trace st) st).
      split; [exact E|]. split; [exact Hr|]. right. exists req.
      split; [reflexivity|]. rewrite Hb. unfold Anthropic_reqBody.
      now destruct (LLMConfig.Options _).
    + destruct H as (e & E). exists (None, Some e), st.
      split; [exact E|]. split; [right; eauto|now left].
  - pose proof (OpenAICompatibleClient_Chat_sends env
                  (NewOpenAICompatibleClient config) messages st) as H.
    cbn zeta in H. unfold sends in H. destruct (request_built _ _ _).
    + destruct H as (req & r & E & Hr & _ & _ & Hb & _).
      exists r, (set_trace (Call.HttpDo req :: trace st) st).
      split; [exact E|]. split; [exact Hr|]. right. exists req.
      split; [reflexivity|]. rewrite Hb. unfold OpenAI_reqBody.
      now destruct (LLMConfig.Options _).
    + destruct H as (e & E). exists (None, Some e), st.
      split; [exact E|]. split; [right; eauto|now left].
Qed.

Lemma step_of_reply_result content : refine_result (step_of_reply content).
Proof.
  unfold step_of_reply.
  destruct (Unmarshal_ActionStep _ _) as [refined [e|]]; [right|left]; eauto.
Qed.

(** With a snapshot at hand [RefineStep] returns; its only call is the
    request whose user message is the prompt made of the step and of
    that snapshot. *)
Lemma factory_RefineStep env config step snap st :
  exists r st',
    RefineStep (factory_planner env config) step (Some snap) st = Returned r st'
    /\ refine_result r
    /\ (st' = st
        \/ exists req,
             st' = set_trace (Call.HttpDo req :: trace st) st
             /\ ChatBody.messages (Request.Body req)
                = [Message.mk "system" systemPrompt;
                   Message.mk "user" (refinePrompt step snap)]).
Proof.
  destruct (factory_Chat env config
              [Message.mk "system" systemPrompt;
               Message.mk "user" (refinePrompt step snap)] st)
    as (r & st' & E & Hr & Hst).
  unfold RefineStep. rewrite (bind_Returned _ _ _ _ _ E).
  destruct Hr as [(resp & ->)|(e & ->)].
  - eexists _, st'. split; [reflexivity|]. split; [|exact Hst].
    apply step_of_reply_result.
  - eexists _, st'. split; [reflexivity|]. split; [|exact Hst].
    right. eauto.
Qed.

Lemma RefineStep_needs_snapshot (p : AIPlanner) step snapshot st r st' :
  RefineStep p step snapshot st = Returned r st' ->
  exists snap, snapshot = Some snap.
Proof. destruct snapshot as [snap|]; [eauto|discriminate]. Qed.

Section Iteration.
Context (env : Env) (p : AIPlanner).

Lemma record_result_eq result screenshot ls st :
  record_result env result screenshot ls st
  = Returned (fst (recorded env result screenshot ls st))
             (snd (recorded env result screenshot ls st)).
Proof.
  unfold record_result, recorded, browser_TakeSnapshot. monad_unfold. cbn.
  now destruct (driver_snapshot env _).
Qed.

Lemma iteration_first_attempt step ls st result screenshot st1 :
  executeStep env step st = Returned (result, screenshot, None) st1 ->
  iteration env p step ls st = record_result env result screenshot ls st1.
Proof.
  intros H. unfold iteration. now rewrite (bind_Returned _ _ _ _ _ H).
Qed.

Lemma iteration_refine_failed step ls st result screenshot e st1 x rerr st2 :
  executeStep env step st = Returned (result, screenshot, Some e) st1 ->
  RefineStep p step (Loop.snapshot ls) st1 = Returned (x, Some rerr) st2 ->
  iteration env p step ls st
  = Returned (Loop.mk (Loop.stepResults ls
                       ++ [StepResult.mk false (Error e) EmptyString])
                (Loop.screenshots ls) (Loop.snapshot ls)) st2.
Proof.
  intros H1 H2. unfold iteration. rewrite (bind_Returned _ _ _ _ _ H1).
  cbn beta iota. now rewrite (bind_Returned _ _ _ _ _ H2).
Qed.

Lemma iteration_refined step ls st result screenshot e st1 refined st2
  result' screenshot' err' st3 :
  executeStep env step st = Returned (result, screenshot, Some e) st1 ->
  RefineStep p step (Loop.snapshot ls) st1 = Returned (Some refined, None) st2 ->
  executeStep env refined st2 = Returned (result', screenshot', err') st3 ->
  iteration env p step ls st = record_result env result' screenshot' ls st3.
Proof.
  intros H1 H2 H3. unfold iteration. rewrite (bind_Returned _ _ _ _ _ H1).
  cbn beta iota. rewrite (bind_Returned _ _ _ _ _ H2). cbn beta iota.
  now rewrite (bind_Returned _ _ _ _ _ H3).
Qed.

End Iteration.

Lemma executeStep_returns env step st :
  exists result shot err st1,
    executeStep env step st = Returned (result, shot, err) st1.
Proof.
  destruct (executeStep_runs env step st) as (r & s & e & d & H & _).
  now exists r, s, e, (set_trace ((d ++ dispatch_calls step) ++ trace st) st).
Qed.

Lemma iteration_paths env config step ls st :
  iteration_path env config step ls st
    (iteration env (factory_planner env config) step ls st).
Proof.
  destruct (executeStep_returns env step st) as (result & shot & [e|] & st1 & E1).
  - destruct (Loop.snapshot ls) as [snap|] eqn:Hs.
    + destruct (factory_RefineStep env config step snap st1)
        as (r & st2 & E2 & Hr & Hreq).
      destruct Hr as [(refined & ->)|(x & rerr & ->)].
      * destruct (executeStep_returns env refined st2)
          as (result' & shot' & err' & st3 & E3).
        assert (E2' := E2). rewrite <- Hs in E2'.
        rewrite (iteration_refined env _ _ _ _ _ _ _ _ _ _ _ _ _ _ E1 E2' E3).
        rewrite record_result_eq.
        now apply (refined_step_runs env config step ls st result shot e st1
                     snap refined st2 result' shot' err' st3).
      * assert (E2' := E2). rewrite <- Hs in E2'.
        rewrite (iteration_refine_failed env _ _ _ _ _ _ _ _ _ _ _ E1 E2').
        now apply (refinement_fails env config step ls st result shot e st1
                     snap x rerr st2).
    + replace (iteration env (factory_planner env config) step ls st)
        with (@Panicked Loop.t nil_dereference st1).
      * now apply (refinement_without_snapshot env config step ls st
                     result shot e st1).
      * unfold iteration. rewrite (bind_Returned _ _ _ _ _ E1).
        cbn beta iota. rewrite Hs. reflexivity.
  - rewrite (iteration_first_attempt env _ _ _ _ _ _ _ E1).
    rewrite record_result_eq.
    now apply (first_attempt_succeeds env config step ls st result shot st1).
Qed.

Lemma executeStep_trace env step st x st1 :
  executeStep env step st = Returned x st1 ->
  exists delta,
    st1 = set_trace (delta ++ dispatch_calls step ++ trace st) st
    /\ Forall quiet delta.
Proof.
  intros H.
  destruct (executeStep_runs env step st) as (r & s & e & d & Hr & Hq & _).
  unfold runs in Hr. rewrite Hr in H. injection H as _ <-.
  exists d. split; [now rewrite <- app_assoc|exact Hq].
Qed.

(** An iteration that returns has appended exactly one result, has
    made the calls of the step's dispatch first, and has touched
    nothing but the trace. *)
Lemma iteration_appends env config step ls st ls' st' :
  iteration env (factory_planner env config) step ls st = Returned ls' st' ->
  exists r later,
    Loop.stepResults ls' = Loop.stepResults ls ++ [r]
    /\ st' = set_trace (later ++ dispatch_calls step ++ trace st) st.
Proof.
  intros H. pose proof (iteration_paths env config step ls st) as P.
  rewrite H in P.
  inversion P as [result shot st1 E1 Heq
                 |result shot e st1 snap x rerr st2 E1 Hs E2 Hreq Heq
                 |result shot e st1 snap refined st2 result' shot' err' st3
                    E1 Hs E2 Hreq E3 Heq|]; subst; clear P.
  - apply executeStep_trace in E1 as (d & -> & _).
    exists result, (Call.TakeSnapshot :: d). split; reflexivity.
  - apply executeStep_trace in E1 as (d & -> & _).
    eexists. destruct Hreq as [->|(req & -> & _)].
    + exists d. split; reflexivity.
    + exists (Call.HttpDo req :: d). split; reflexivity.
  - apply executeStep_trace in E1 as (d & -> & _).
    apply executeStep_trace in E3 as (d3 & -> & _).
    exists result'. destruct Hreq as [->|(req & -> & _)].
    + exists (Call.TakeSnapshot :: d3 ++ dispatch_calls refined ++ d).
      split; [reflexivity|]. cbn. now rewrite <- !app_assoc.
    + exists (Call.TakeSnapshot :: d3 ++ dispatch_calls refined
              ++ Call.HttpDo req :: d).
      split; [reflexivity|]. cbn. now rewrite <- !app_assoc.
Qed.

(** With a snapshot at hand an iteration returns. *)
Lemma iteration_returns env config step ls st snap :
  Loop.snapshot ls = Some snap ->
  exists ls' st',
    iteration env (factory_planner env config) step ls st = Returned ls' st'.
Proof.
  intros Hs. pose proof (iteration_paths env config step ls st) as P.
  inversion P as [| | |result shot e st1 E1 Hn Heq]; try (eexists _, _; reflexivity).
  congruence.
Qed.

(** Without a snapshot (the recapture failed and its error was
    dropped) a failed attempt ends the run: [RefineStep] dereferences
    the nil snapshot. *)
Lemma iteration_panics_without_snapshot env config step ls st result shot e st1 :
  executeStep env step st = Returned (result, shot, Some e) st1 ->
  Loop.snapshot ls = None ->
  iteration env (factory_planner env config) step ls st
  = Panicked nil_dereference st1.
Proof.
  intros E1 Hs. unfold iteration. rewrite (bind_Returned _ _ _ _ _ E1).
  cbn beta iota. now rewrite Hs.
Qed.

(** A first attempt that succeeds needs no snapshot. *)
Lemma iteration_returns_on_success env config step ls st result shot st1 :
  executeStep env step st = Returned (result, shot, None) st1 ->
  exists ls' st',
    iteration env (factory_planner env config) step ls st = Returned ls' st'.
Proof.
  intros E1. rewrite (iteration_first_attempt env _ _ _ _ _ _ _ E1).
  rewrite record_result_eq. now eexists _, _.
Qed.

(** Every step of the plan contributes exactly one result, in plan
    order, whenever the loop returns. *)
Lemma executeSteps_results env config steps ls st ls' st' :
  executeSteps env (factory_planner env config) steps ls st = Returned ls' st' ->
  exists new,
    Loop.stepResults ls' = Loop.stepResults ls ++ new
    /\ length new = length steps.
Proof.
  revert ls st. induction steps as [|step rest IH]; intros ls st H; cbn in H.
  - injection H as <- _. exists []. split; [now rewrite app_nil_r|reflexivity].
  - apply bind_inv in H as (ls1 & st1 & H1 & H2).
    apply iteration_appends in H1 as (r & _ & Hr & _).
    apply IH in H2 as (new & Hn & Hl).
    exists (r :: new). split; [|cbn; now rewrite Hl].
    now rewrite Hn, Hr, <- app_assoc.
Qed.

Lemma executeSteps_three env (p : AIPlanner) s1 s2 s3 ls0 st0 ls1 st1 ls2 st2 :
  iteration env p s1 ls0 st0 = Returned ls1 st1 ->
  iteration env p s2 ls1 st1 = Returned ls2 st2 ->
  executeSteps env p [s1; s2; s3] ls0 st0 = iteration env p s3 ls2 st2.
Proof.
  intros H1 H2. cbn [executeSteps].
  rewrite (bind_Returned _ _ _ _ _ H1), (bind_Returned _ _ _ _ _ H2).
  unfold mbind, M_mbind, M_bind.
  destruct (iteration env p s3 ls2 st2); reflexivity.
Qed.

(** Where the loop gets past step 3 it reports the refined step.  A
    plan of three steps, run as [ExecuteTask] runs it (the results
    empty at the start, the planner over the factory's client).  When
    the execution of step 2 fails and [RefineStep] returns a refined
    step without error, what the iteration does after the refinement is
    one execution of the refined step and the snapshot recapture,
    nothing more.  When that recapture gave a snapshot, or the first
    attempt of step 3 succeeds, the loop returns three results, one per
    step in plan order, and the one at index 1 is the result of
    executing the refined step.  In the case that is left, no snapshot
    and a failing step 3, the loop panics. *)
Lemma refined_step_result_is_reported (env : Env) (config : LLMConfig.t)
  (s1 s2 s3 : ActionStep.t) (snapshot0 : option PageSnapshot.t) (st0 : State)
  ls1 st1 r2 sh2 e st2 refined st3 r2' sh2' err2' st4 :
  let p := factory_planner env config in
  let ls0 := Loop.mk [] [] snapshot0 in
  let ls2 := fst (recorded env r2' sh2' ls1 st4) in
  let st5 := set_trace (Call.TakeSnapshot :: trace st4) st4 in
  iteration env p s1 ls0 st0 = Returned ls1 st1 ->
  executeStep env s2 st1 = Returned (r2, sh2, Some e) st2 ->
  RefineStep p s2 (Loop.snapshot ls1) st2 = Returned (Some refined, None) st3 ->
  executeStep env refined st3 = Returned (r2', sh2', err2') st4 ->
  iteration env p s2 ls1 st1 = Returned ls2 st5
  /\ (Loop.snapshot ls2 <> None
      \/ (exists r3 sh3 st6,
            executeStep env s3 st5 = Returned (r3, sh3, None) st6) ->
      exists ls3 st6 r1 r3,
        executeSteps env p [s1; s2; s3] ls0 st0 = Returned ls3 st6
        /\ length (Loop.stepResults ls3) = 3%nat
        /\ Loop.stepResults ls3 !! 1%nat = Some r2'
        /\ Loop.stepResults ls3 = [r1; r2'; r3])
  /\ (forall r3 sh3 e3 st6,
        Loop.snapshot ls2 = None ->
        executeStep env s3 st5 = Returned (r3, sh3, Some e3) st6 ->
        executeSteps env p [s1; s2; s3] ls0 st0
        = Panicked nil_dereference st6).
Proof.
  intros p ls0 ls2 st5 H1 H2 H3 H4.
  assert (E2 : iteration env p s2 ls1 st1 = Returned ls2 st5).
  { rewrite (iteration_refined env p _ _ _ _ _ _ _ _ _ _ _ _ _ H2 H3 H4).
    apply record_result_eq. }
  pose proof (executeSteps_three env p s1 s2 s3 ls0 st0 ls1 st1 ls2 st5 H1 E2)
    as E.
  split; [exact E2|]. split.
  - intros Hgo.
    assert (E3 : exists ls3 st6, iteration env p s3 ls2 st5 = Returned ls3 st6).
    { destruct Hgo as [Hs|(r3 & sh3 & st6 & Hok)].
      - destruct (Loop.snapshot ls2) as [snap|] eqn:Hsnap; [|contradiction].
        exact (iteration_returns env config s3 ls2 st5 snap Hsnap).
      - exact (iteration_returns_on_success env config s3 ls2 st5 _ _ _ Hok). }
    destruct E3 as (ls3 & st6 & E3). rewrite E3 in E.
    apply iteration_appends in H1 as (r1 & _ & Hr1 & _).
    apply iteration_appends in E3 as (r3 & _ & Hr3 & _).
    cbn in Hr1. cbn [ls2 recorded fst Loop.stepResults] in Hr3.
    rewrite Hr1 in Hr3. cbn in Hr3.
    exists ls3, st6, r1, r3. split; [exact E|]. rewrite Hr3.
    split; [reflexivity|]. split; reflexivity.
  - intros r3 sh3 e3 st6 Hs Hfail. rewrite E.
    exact (iteration_panics_without_snapshot env config s3 ls2 st5 r3 sh3 e3
             st6 Hfail Hs).
Qed.


(** C2.  A plan of three steps, run as [ExecuteTask] runs it.  When the
    execution of step 2 fails with [e] and [RefineStep] returns an
    error, the loop goes on: the third iteration runs from the state the
    failed refinement left (its dispatch calls follow in the trace), the
    loop returns three results, and the one at index 1 is a failure
    carrying the text of [e], the error of the step, not the error of
    the refinement. *)
Theorem refine_error_keeps_original_failure (env : Env) (config : LLMConfig.t)
  (s1 s2 s3 : ActionStep.t) (snapshot0 : option PageSnapshot.t) (st0 : State)
  ls1 st1 r2 sh2 e st2 x rerr st3 :
  let p := factory_planner env config in
  let ls0 := Loop.mk [] [] snapshot0 in
  let failure := StepResult.mk false (Error e) EmptyString in
  let ls2 := Loop.mk (Loop.stepResults ls1 ++ [failure]) (Loop.screenshots ls1)
               (Loop.snapshot ls1) in
  iteration env p s1 ls0 st0 = Returned ls1 st1 ->
  executeStep env s2 st1 = Returned (r2, sh2, Some e) st2 ->
  RefineStep p s2 (Loop.snapshot ls1) st2 = Returned (x, Some rerr) st3 ->
  exists ls3 st4 r1 r3 later,
    executeSteps env p [s1; s2; s3] ls0 st0 = Returned ls3 st4
    /\ iteration env p s3 ls2 st3 = Returned ls3 st4
    /\ st4 = set_trace (later ++ dispatch_calls s3 ++ trace st3) st3
    /\ length (Loop.stepResults ls3) = 3%nat
    /\ Loop.stepResults ls3 !! 1%nat = Some failure
    /\ Loop.stepResults ls3 = [r1; failure; r3].
Proof.
  intros p ls0 failure ls2 H1 H2 H3.
  assert (E2 : iteration env p s2 ls1 st1 = Returned ls2 st3)
    by exact (iteration_refine_failed env p _ _ _ _ _ _ _ _ _ _ H2 H3).
  destruct (RefineStep_needs_snapshot _ _ _ _ _ _ H3) as (snap & Hs).
  destruct (iteration_returns env config s3 ls2 st3 snap Hs) as (ls3 & st4 & E3).
  assert (E : executeSteps env p [s1; s2; s3] ls0 st0 = Returned ls3 st4).
  { now rewrite (executeSteps_three env p _ _ _ _ _ _ _ _ _ H1 E2). }
  apply iteration_appends in H1 as (r1 & _ & Hr1 & _).
  destruct (iteration_appends _ _ _ _ _ _ _ E3) as (r3 & later & Hr3 & Hst).
  cbn in Hr1. cbn [ls2 Loop.stepResults] in Hr3. rewrite Hr1 in Hr3. cbn in Hr3.
  exists ls3, st4, r1, r3, later.
  split; [exact E|]. split; [exact E3|]. split; [exact Hst|]. rewrite Hr3.
  split; [reflexivity|]. split; reflexivity.
Qed.

Lemma refined_step_result_is_reported_example :
  let env := Example.env_refining in
  let p := factory_planner env Example.config in
  let s1 := Example.click 1 "#cart" in
  let s2 := Example.click 2 "#missing" in
  let s3 := Example.click 3 "#pay" in
  let ls0 := Loop.mk [] [] (Some (Example.page 0)) in
  exists ls3 st6,
    executeSteps env p [s1; s2; s3] ls0 Example.st0 = Returned ls3 st6
    /\ Loop.stepResults ls3 !! 1%nat
       = Some (StepResult.mk true EmptyString EmptyString).
Proof.
  intros env p s1 s2 s3 ls0.
  pose (o1 := iteration env p s1 ls0 Example.st0).
  pose (ls1 := value_of o1 ls0). pose (st1 := state_of o1).
  pose (o2 := executeStep env s2 st1).
  pose (e := errors_New "selector not found: #missing").
  pose (r2 := StepResult.mk false (Error e) EmptyString).
  pose (st2 := state_of o2).
  pose (o3 := RefineStep p s2 (Loop.snapshot ls1) st2).
  pose (refined := ActionStep.mk 2 ActionClick "#buy" EmptyString EmptyString
                     false "Buy").
  pose (st3 := state_of o3).
  pose (o4 := executeStep env refined st3).
  pose (r2' := StepResult.mk true EmptyString EmptyString).
  pose (st4 := state_of o4).
  assert (H1 : iteration env p s1 ls0 Example.st0 = Returned ls1 st1)
    by (vm_compute; reflexivity).
  assert (H2 : executeStep env s2 st1 = Returned (r2, None, Some e) st2)
    by (vm_compute; reflexivity).
  assert (H3 : RefineStep p s2 (Loop.snapshot ls1) st2
               = Returned (Some refined, None) st3)
    by (vm_compute; reflexivity).
  assert (H4 : executeStep env refined st3 = Returned (r2', None, None) st4)
    by (vm_compute; reflexivity).
  destruct (refined_step_result_is_reported env Example.config s1 s2 s3
              (Some (Example.page 0)) Example.st0 ls1 st1 r2 None e st2 refined
              st3 r2' None None st4 H1 H2 H3 H4) as (_ & Hgo & _).
  destruct Hgo as (ls3 & st6 & _ & _ & E & _ & Hi & _).
  - left. vm_compute. discriminate.
  - now exists ls3, st6.
Qed.

Lemma refine_error_keeps_original_failure_witness :
  let env := Example.env_offline in
  let p := factory_planner env Example.config in
  let s1 := Example.click 1 "#cart" in
  let s2 := Example.click 2 "#missing" in
  let s3 := Example.click 3 "#pay" in
  let ls0 := Loop.mk [] [] (Some (Example.page 0)) in
  let e := errors_New "selector not found: #missing" in
  let failure := StepResult.mk false "selector not found: #missing" EmptyString in
  exists ls1 st1 st2 rerr st3,
    iteration env p s1 ls0 Example.st0 = Returned ls1 st1
    /\ executeStep env s2 st1 = Returned (failure, None, Some e) st2
    /\ RefineStep p s2 (Loop.snapshot ls1) st2 = Returned (None, Some rerr) st3
    /\ exists ls3 st4 r1 r3 later,
         executeSteps env p [s1; s2; s3] ls0 Example.st0 = Returned ls3 st4
         /\ iteration env p s3
              (Loop.mk (Loop.stepResults ls1 ++ [failure]) (Loop.screenshots ls1)
                 (Loop.snapshot ls1)) st3
            = Returned ls3 st4
         /\ st4 = set_trace (later ++ dispatch_calls s3 ++ trace st3) st3
         /\ length (Loop.stepResults ls3) = 3%nat
         /\ Loop.stepResults ls3 !! 1%nat = Some failure
         /\ Loop.stepResults ls3 = [r1; failure; r3].
Proof.
  intros env p s1 s2 s3 ls0 e failure.
  pose (o1 := iteration env p s1 ls0 Example.st0).
  pose (ls1 := value_of o1 ls0). pose (st1 := state_of o1).
  pose (o2 := executeStep env s2 st1). pose (st2 := state_of o2).
  pose (o3 := RefineStep p s2 (Loop.snapshot ls1) st2).
  pose (rerr := fmt_Errorf_w "llm chat"
                  (fmt_Errorf_w "send request"
                     (errors_New "dial tcp: connection refused"))).
  pose (st3 := state_of o3).
  assert (H1 : iteration env p s1 ls0 Example.st0 = Returned ls1 st1)
    by (vm_compute; reflexivity).
  assert (H2 : executeStep env s2 st1 = Returned (failure, None, Some e) st2)
    by (vm_compute; reflexivity).
  assert (H3 : RefineStep p s2 (Loop.snapshot ls1) st2
               = Returned (None, Some rerr) st3)
    by (vm_compute; reflexivity).
  exists ls1, st1, st2, rerr, st3.
  split; [exact H1|]. split; [exact H2|]. split; [exact H3|].
  exact (refine_error_keeps_original_failure env Example.config s1 s2 s3
           (Some (Example.page 0)) Example.st0 ls1 st1 failure None e st2 None
           rerr st3 H1 H2 H3).
Defined.

(** ** The snapshot the loop works with *)

(** C3 fails as stated.  A click on a selector that is not there, with
    the model out of reach: the refinement request follows the failed
    click directly, without a snapshot call in between, and the
    iteration ends on that request, without taking the snapshot
    again. *)
Lemma stale_snapshot_counterexample :
  let env := Example.env_offline in
  let p := factory_planner env Example.config in
  let step := Example.click 1 "#missing" in
  let ls := Loop.mk [] [] (Some (Example.page 0)) in
  exists ls' st',
    iteration env p step ls Example.st0 = Returned ls' st'
    /\ trace st'
       = [Call.HttpDo (Example.head_request (trace st')); Call.Click "#missing"]
    /\ ChatBody.messages (Request.Body (Example.head_request (trace st')))
       = [Message.mk "system" systemPrompt;
          Message.mk "user" (refinePrompt step (Example.page 0))]
    /\ fst (driver_snapshot env [Call.TakeSnapshot; Call.Click "#missing"])
       = Some (Example.page 2)
    /\ Loop.snapshot ls' = Some (Example.page 0)
    /\ ~ recaptured_after_step env ls' st'
    /\ ~ refined_from_fresh_snapshot env step st'.
Proof.
  intros env p step ls.
  pose (o := iteration env p step ls Example.st0).
  pose (ls' := value_of o ls). pose (st' := state_of o).
  assert (E : iteration env p step ls Example.st0 = Returned ls' st')
    by (vm_compute; reflexivity).
  assert (Ht : trace st'
               = [Call.HttpDo (Example.head_request (trace st'));
                  Call.Click "#missing"])
    by (vm_compute; reflexivity).
  exists ls', st'. split; [exact E|]. split; [exact Ht|].
  split; [vm_compute; reflexivity|]. split; [vm_compute; reflexivity|].
  split; [vm_compute; reflexivity|]. split.
  - intros (earlier & H & _). rewrite Ht in H. discriminate.
  - intros H.
    destruct (H (Example.head_request (trace st')) [] [Call.Click "#missing"] Ht)
      as (before & snap & Hb & _).
    discriminate.
Qed.

Lemma dispatch_calls_no_snapshot step : Call.TakeSnapshot ∉ dispatch_calls step.
Proof.
  unfold dispatch_calls.
  repeat destruct (String.eqb _ _); try destruct (negb _);
    intros H; apply list_elem_of_In in H; cbn in H; intuition discriminate.
Qed.

Lemma executeStep_no_snapshot env step st x st1 :
  executeStep env step st = Returned x st1 ->
  exists calls,
    st1 = set_trace (calls ++ trace st) st /\ Call.TakeSnapshot ∉ calls.
Proof.
  intros H. apply executeStep_trace in H as (d & -> & Hq).
  exists (d ++ dispatch_calls step). split; [now rewrite <- app_assoc|].
  rewrite elem_of_app. intros [H|H].
  - rewrite Forall_forall in Hq. now destruct (Hq _ H).
  - exact (dispatch_calls_no_snapshot step H).
Qed.

(** C3, as the code has it.  An iteration that returns made its first
    attempt without a snapshot call.  When that attempt succeeded, the
    iteration ends by the snapshot call whose answer the loop carries
    on.  When it failed, [RefineStep] was given the snapshot the
    iteration started with, and its request, if it made one, follows the
    failed attempt directly; when the refinement gave a step, that step
    was executed and the iteration ends by the snapshot call whose
    answer the loop carries on. *)
Theorem snapshot_follows_recorded_results (env : Env) (config : LLMConfig.t)
  (step : ActionStep.t) (ls : Loop.t) (st : State) (ls' : Loop.t) (st' : State) :
  iteration env (factory_planner env config) step ls st = Returned ls' st' ->
  exists result shot err st1 calls,
    executeStep env step st = Returned (result, shot, err) st1
    /\ st1 = set_trace (calls ++ trace st) st
    /\ (Call.TakeSnapshot ∉ calls)
    /\ match err with
       | None =>
           st' = set_trace (Call.TakeSnapshot :: trace st1) st1
           /\ Loop.snapshot ls' = fst (driver_snapshot env (trace st'))
       | Some _ =>
           exists snap r st2,
             Loop.snapshot ls = Some snap
             /\ RefineStep (factory_planner env config) step (Some snap) st1
                = Returned r st2
             /\ refine_request step snap st1 st2
             /\ match r with
                | (Some refined, None) =>
                    exists x st3,
                      executeStep env refined st2 = Returned x st3
                      /\ st' = set_trace (Call.TakeSnapshot :: trace st3) st3
                      /\ Loop.snapshot ls'
                         = fst (driver_snapshot env (trace st'))
                | _ => True
                end
       end.
Proof.
  intros H. pose proof (iteration_paths env config step ls st) as P.
  rewrite H in P.
  inversion P as [result shot st1 E1 Heq
                 |result shot e st1 snap x rerr st2 E1 Hs E2 Hreq Heq
                 |result shot e st1 snap refined st2 result' shot' err' st3
                    E1 Hs E2 Hreq E3 Heq|]; subst; clear P.
  - destruct (executeStep_no_snapshot _ _ _ _ _ E1) as (calls & Hst & Hn).
    exists result, shot, None, st1, calls.
    split; [exact E1|]. split; [exact Hst|]. split; [exact Hn|].
    split; reflexivity.
  - destruct (executeStep_no_snapshot _ _ _ _ _ E1) as (calls & Hst & Hn).
    exists result, shot, (Some e), st1, calls.
    split; [exact E1|]. split; [exact Hst|]. split; [exact Hn|].
    exists snap, (x, Some rerr), st'.
    split; [exact Hs|]. split; [exact E2|]. split; [exact Hreq|].
    now destruct x.
  - destruct (executeStep_no_snapshot _ _ _ _ _ E1) as (calls & Hst & Hn).
    exists result, shot, (Some e), st1, calls.
    split; [exact E1|]. split; [exact Hst|]. split; [exact Hn|].
    exists snap, (Some refined, None), st2.
    split; [exact Hs|]. split; [exact E2|]. split; [exact Hreq|].
    exists (result', shot', err'), st3. split; [exact E3|]. split; reflexivity.
Qed.

Lemma snapshot_follows_recorded_results_witness :
  let env := Example.env_refining in
  let p := factory_planner env Example.config in
  let step := Example.click 2 "#missing" in
  let ls := Loop.mk [] [] (Some (Example.page 0)) in
  exists ls' st',
    iteration env p step ls Example.st0 = Returned ls' st'
    /\ exists result shot err st1 calls,
         executeStep env step Example.st0 = Returned (result, shot, err) st1
         /\ st1 = set_trace (calls ++ trace Example.st0) Example.st0
         /\ (Call.TakeSnapshot ∉ calls)
         /\ match err with
            | None =>
                st' = set_trace (Call.TakeSnapshot :: trace st1) st1
                /\ Loop.snapshot ls' = fst (driver_snapshot env (trace st'))
            | Some _ =>
                exists snap r st2,
                  Loop.snapshot ls = Some snap
                  /\ RefineStep p step (Some snap) st1 = Returned r st2
                  /\ refine_request step snap st1 st2
                  /\ match r with
                     | (Some refined, None) =>
                         exists x st3,
                           executeStep env refined st2 = Returned x st3
                           /\ st' = set_trace (Call.TakeSnapshot :: trace st3) st3
                           /\ Loop.snapshot ls'
                              = fst (driver_snapshot env (trace st'))
                     | _ => True
                     end
            end.
Proof.
  intros env p step ls.
  pose (o := iteration env p step ls Example.st0).
  pose (ls' := value_of o ls). pose (st' := state_of o).
  assert (E : iteration env p step ls Example.st0 = Returned ls' st')
    by (vm_compute; reflexivity).
  exists ls', st'. split; [exact E|].
  exact (snapshot_follows_recorded_results env Example.config step ls
           Example.st0 ls' st' E).
Defined.

(** ** Cancellation *)

Lemma trace_only_ret {A : Type} (a : A) : trace_only (mret a).
Proof. intros st h tk. reflexivity. Qed.

Lemma trace_only_panic {A : Type} reason : trace_only (@panic A reason).
Proof. intros st h tk. reflexivity. Qed.

Lemma trace_only_call c : trace_only (call c).
Proof. intros st h tk. reflexivity. Qed.

Lemma trace_only_bind {A B : Type} (m : M A) (f : A -> M B) :
  trace_only m -> (forall a, trace_only (f a)) -> trace_only (m ≫= f).
Proof.
  intros Hm Hf st h tk. unfold mbind, M_mbind, M_bind. rewrite Hm.
  destruct (m st) as [a st1|r st1]; cbn; [|reflexivity].
  apply (Hf a st1 h tk).
Qed.

Lemma trace_only_time_Now env : trace_only (time_Now env).
Proof. intros st h tk. reflexivity. Qed.

(** One step of a proof of [trace_only] along the shape of the code. *)
Ltac trace_only_step :=
  match goal with
  | |- trace_only (mret _) => apply trace_only_ret
  | |- trace_only (panic _) => apply trace_only_panic
  | |- trace_only (call _) => apply trace_only_call
  | |- trace_only (time_Now _) => apply trace_only_time_Now
  | |- trace_only (_ ≫= _) => apply trace_only_bind; [|intros]
  | |- trace_only (match ?x with _ => _ end) => destruct x
  | |- trace_only (if ?b then _ else _) => destruct b
  end.

Lemma trace_only_dispatch env step : trace_only (dispatch env step).
Proof.
  unfold dispatch, browser_Navigate, browser_Click, browser_Fill,
    browser_Hover, browser_Select, browser_WaitForSelector, driver, time_Sleep.
  repeat trace_only_step.
Qed.

Lemma trace_only_executeStep env step : trace_only (executeStep env step).
Proof.
  unfold executeStep.
  apply trace_only_bind; [apply trace_only_dispatch|]. intros [e|].
  - apply trace_only_ret.
  - unfold capture, time_Sleep, browser_TakeScreenshot, uuid_New_String.
    repeat trace_only_step.
Qed.

Lemma trace_only_factory_Chat env config messages :
  trace_only (llmClient_Chat (factory_planner env config) messages).
Proof.
  unfold factory_planner, NewClient, llmClient_Chat.
  destruct (String.eqb _ _); cbn.
  - unfold AnthropicClient_Chat, httpClient_Do. repeat trace_only_step.
  - unfold OpenAICompatibleClient_Chat, httpClient_Do. repeat trace_only_step.
Qed.

Lemma trace_only_factory_RefineStep env config step snapshot :
  trace_only (RefineStep (factory_planner env config) step snapshot).
Proof.
  unfold RefineStep. destruct snapshot as [snap|]; [|apply trace_only_panic].
  apply trace_only_bind; [apply trace_only_factory_Chat|].
  intros [resp err]. repeat trace_only_step.
Qed.

Lemma trace_only_iteration env config step ls :
  trace_only (iteration env (factory_planner env config) step ls).
Proof.
  unfold iteration.
  apply trace_only_bind; [apply trace_only_executeStep|].
  intros [[result shot] [e|]].
  - apply trace_only_bind; [apply trace_only_factory_RefineStep|].
    intros [refined [rerr|]]; [apply trace_only_ret|].
    destruct refined as [refined|]; [|apply trace_only_panic].
    apply trace_only_bind; [apply trace_only_executeStep|].
    intros [[result' shot'] err'].
    unfold record_result, browser_TakeSnapshot. repeat trace_only_step.
  - unfold record_result, browser_TakeSnapshot. repeat trace_only_step.
Qed.

(** The step loop reads and writes nothing of the task records. *)
Lemma trace_only_executeSteps env config steps ls :
  trace_only (executeSteps env (factory_planner env config) steps ls).
Proof.
  revert ls. induction steps as [|step rest IH]; intros ls; cbn.
  - apply trace_only_ret.
  - apply trace_only_bind; [apply trace_only_iteration|]. intros ls'. apply IH.
Qed.

Lemma observed_with_records {A : Type} h tk (o : Outcome A) :
  observed (with_records h tk o) = observed o.
Proof. now destruct o. Qed.

Lemma CancelTask_state taskID st code st' :
  CancelTask taskID st = Returned code st' ->
  trace st' = trace st
  /\ (code = 200 ->
      exists task, tasks st !! taskID = Some task
                   /\ status_at task st' = Some TaskStatusCancelled).
Proof.
  unfold CancelTask, store_UpdateStatus, update_task. monad_unfold.
  unfold status_at.
  destruct (tasks st !! taskID) as [task|] eqn:Et.
  - destruct (heap st !! task) as [t|] eqn:Eh; [|discriminate].
    intros [= <- <-]. split; [reflexivity|]. intros _. exists task.
    split; [reflexivity|]. cbn. now rewrite lookup_insert_eq.
  - intros [= <- <-]. split; [reflexivity|]. discriminate.
Qed.

Lemma trace_only_heap {A : Type} (m : M A) st a st' :
  trace_only m -> m st = Returned a st' -> heap st' = heap st.
Proof.
  intros T H. specialize (T st (heap st) (tasks st)).
  replace (mkState (trace st) (heap st) (tasks st)) with st in T
    by now destruct st.
  rewrite H in T. cbn in T. now injection T as ->.
Qed.

Lemma keeps_status_trace_only task s {A : Type} (m : M A) :
  trace_only m -> keeps_status task s m.
Proof.
  intros T st a st' Hs H. unfold status_at in *.
  now rewrite (trace_only_heap m st a st' T H).
Qed.

Lemma keeps_status_bind task s {A B : Type} (m : M A) (f : A -> M B) :
  keeps_status task s m -> (forall a, keeps_status task s (f a)) ->
  keeps_status task s (m ≫= f).
Proof.
  intros Hm Hf st b st' Hs H. apply bind_inv in H as (a & st1 & H1 & H2).
  exact (Hf a st1 b st' (Hm st a st1 Hs H1) H2).
Qed.

Lemma keeps_status_update task s (f : Task.t -> Task.t) :
  (forall t, Task.Status (f t) = Task.Status t) ->
  keeps_status task s (update_task task f).
Proof.
  intros Hf st a st' Hs H. unfold update_task, status_at in *.
  destruct (heap st !! task) as [t|] eqn:E; [|discriminate].
  injection H as _ <-. cbn. rewrite lookup_insert_eq. cbn. rewrite Hf.
  exact Hs.
Qed.

Lemma keeps_status_store_Update task s : keeps_status task s (store_Update task).
Proof.
  intros st a st' Hs H. unfold store_Update, deref in H. monad_unfold.
  destruct (heap st !! task) as [t|]; [|discriminate].
  destruct (tasks st !! Task.ID t); injection H as _ <-; exact Hs.
Qed.

Lemma trace_only_convertStepResults_loop env i results acc :
  trace_only (convertStepResults_loop env i results acc).
Proof.
  revert i acc. induction results as [|r rest IH]; intros i acc; cbn.
  - apply trace_only_ret.
  - apply trace_only_bind; [apply trace_only_time_Now|]. intros now. apply IH.
Qed.

Lemma trace_only_generateDocuments_loop env plan results formats docs :
  trace_only (generateDocuments_loop env plan results formats docs).
Proof.
  revert docs. induction formats as [|format rest IH]; intros docs; cbn.
  - apply trace_only_ret.
  - destruct (_ || _); [|apply IH].
    apply trace_only_bind; [apply trace_only_call|]. intros tr.
    destruct (docgen_Generate env tr); [|apply IH].
    unfold uuid_New_String.
    apply trace_only_bind;
      [apply trace_only_bind; [apply trace_only_call|intros; apply trace_only_ret]|].
    intros id. apply trace_only_bind; [apply trace_only_time_Now|].
    intros now. apply IH.
Qed.

(** Whatever the status was, the last phase of [ExecuteTask] leaves
    the task completed when it returns. *)
Lemma ExecuteTask_finish_completes env task startTime plan ls st r st' :
  ExecuteTask_finish env task startTime plan ls st = Returned r st' ->
  status_at task st' = Some TaskStatusCompleted.
Proof.
  unfold ExecuteTask_finish. intros H.
  apply bind_inv in H as ([docs err] & st1 & H1 & H).
  assert (err = None) as ->.
  { unfold generateDocuments in H1.
    apply bind_inv in H1 as (t & st0 & _ & H1).
    destruct (Task.Output t); [|discriminate].
    apply bind_inv in H1 as (d & st2 & _ & H1). now injection H1. }
  apply bind_inv in H as ([] & st2 & H2 & H).
  assert (Hs : status_at task st2 = Some TaskStatusCompleted).
  { unfold update_task in H2. destruct (heap st1 !! task) as [t|]; [|discriminate].
    injection H2 as <-. unfold status_at. cbn. now rewrite lookup_insert_eq. }
  revert H. generalize st2 r st' Hs. clear.
  change (keeps_status task TaskStatusCompleted
            (now ← time_Now env;
             _ ← update_task task (Task.set_UpdatedAt now);
             completedAt ← time_Now env;
             _ ← update_task task (Task.set_CompletedAt (Some completedAt));
             steps ← convertStepResults env (Loop.stepResults ls);
             since ← time_Now env;
             _ ← update_task task
                   (Task.set_Result
                      (Some (TaskResult.mk steps (Loop.screenshots ls) docs
                               (since - startTime))));
             err ← store_Update task;
             match err with
             | Some e => mret (Some (fmt_Errorf_w "update task result" e))
             | None => mret None
             end)).
  repeat first
    [ apply keeps_status_store_Update
    | (apply keeps_status_update; intros; reflexivity)
    | (apply keeps_status_trace_only;
       first [apply trace_only_time_Now
             | apply trace_only_convertStepResults_loop
             | apply trace_only_ret])
    | apply keeps_status_bind; [|intros]
    | match goal with
      | |- keeps_status _ _ (match ?x with _ => _ end) => destruct x
      end ].
Qed.

(** C4 fails as stated.  The first step of a plan runs, the cancel
    endpoint sets the status to cancelled and answers 200, and the loop
    goes on with the second step all the same: its click is made after
    the cancellation. *)
Lemma cancelled_task_keeps_running_counterexample :
  let env := Example.env_offline in
  let p := factory_planner env Example.config in
  let s1 := Example.click 1 "#cart" in
  let s2 := Example.click 2 "#pay" in
  let ls0 := Loop.mk [] [] (Some (Example.page 0)) in
  let ok := StepResult.mk true EmptyString EmptyString in
  exists ls1 st1 st_c ls2 st2,
    iteration env p s1 ls0 Example.st0 = Returned ls1 st1
    /\ CancelTask "task-1" st1 = Returned 200 st_c
    /\ status_at 1 st_c = Some TaskStatusCancelled
    /\ executeSteps env p [s2] ls1 st_c = Returned ls2 st2
    /\ trace st2
       = [Call.TakeSnapshot; Call.Sleep (500 * Millisecond); Call.Click "#pay"]
         ++ trace st_c
    /\ Loop.stepResults ls2 = [ok; ok]
    /\ ~ no_step_after_cancellation st_c st2.
Proof.
  intros env p s1 s2 ls0 ok.
  pose (o1 := iteration env p s1 ls0 Example.st0).
  pose (ls1 := value_of o1 ls0). pose (st1 := state_of o1).
  pose (st_c := state_of (CancelTask "task-1" st1)).
  pose (o2 := executeSteps env p [s2] ls1 st_c).
  pose (ls2 := value_of o2 ls0). pose (st2 := state_of o2).
  assert (Ht : trace st2
               = [Call.TakeSnapshot; Call.Sleep (500 * Millisecond);
                  Call.Click "#pay"] ++ trace st_c)
    by (vm_compute; reflexivity).
  exists ls1, st1, st_c, ls2, st2.
  split; [vm_compute; reflexivity|]. split; [vm_compute; reflexivity|].
  split; [vm_compute; reflexivity|]. split; [vm_compute; reflexivity|].
  split; [exact Ht|]. split; [vm_compute; reflexivity|].
  intros H. specialize (H _ Ht).
  apply Forall_cons in H as [_ H]. apply Forall_cons in H as [_ H].
  apply Forall_cons in H as [H _]. discriminate.
Qed.

(** C4, as the code has it.  When the cancel endpoint has set the
    task's status to cancelled (it answered 200, and the status is
    visible in the shared record), the step loop run from that state
    returns the same results and makes the same calls as it would have
    without the cancellation, and leaves the status as it found it: the
    loop does not look at the task.  The last phase of [ExecuteTask]
    then sets the status to completed whatever it was. *)
Theorem cancellation_is_not_observed (env : Env) (config : LLMConfig.t)
  (taskID : string) (steps : list ActionStep.t) (ls : Loop.t)
  (st st_c : State) :
  let p := factory_planner env config in
  CancelTask taskID st = Returned 200 st_c ->
  (exists task,
     tasks st !! taskID = Some task
     /\ status_at task st_c = Some TaskStatusCancelled
     /\ status_at task (state_of (executeSteps env p steps ls st_c))
        = Some TaskStatusCancelled)
  /\ observed (executeSteps env p steps ls st_c)
     = observed (executeSteps env p steps ls st)
  /\ executeSteps env p steps ls st_c
     = with_records (heap st_c) (tasks st_c) (executeSteps env p steps ls st)
  /\ (forall task startTime plan ls' st1 r st2,
        ExecuteTask_finish env task startTime plan ls' st1 = Returned r st2 ->
        status_at task st2 = Some TaskStatusCompleted).
Proof.
  intros p H. destruct (CancelTask_state _ _ _ _ H) as (Htr & Hc).
  destruct (Hc eq_refl) as (task & Ht & Hs).
  assert (E : executeSteps env p steps ls st_c
              = with_records (heap st_c) (tasks st_c)
                  (executeSteps env p steps ls st)).
  { pose proof (trace_only_executeSteps env config steps ls st
                  (heap st_c) (tasks st_c)) as T.
    rewrite <- Htr in T. now destruct st_c. }
  split; [|split; [|split; [exact E|]]].
  - exists task. split; [exact Ht|]. split; [exact Hs|].
    rewrite E. now destruct (executeSteps env p steps ls st).
  - rewrite E. apply observed_with_records.
  - intros task' startTime plan ls' st1 r st2.
    apply ExecuteTask_finish_completes.
Qed.

Lemma cancellation_is_not_observed_witness :
  let env := Example.env_offline in
  let p := factory_planner env Example.config in
  let steps := [Example.click 1 "#cart"; Example.click 2 "#pay"] in
  let ls := Loop.mk [] [] (Some (Example.page 0)) in
  let st_c := state_of (CancelTask "task-1" Example.st0) in
  CancelTask "task-1" Example.st0 = Returned 200 st_c
  /\ (exists task,
        tasks Example.st0 !! "task-1" = Some task
        /\ status_at task st_c = Some TaskStatusCancelled
        /\ status_at task (state_of (executeSteps env p steps ls st_c))
           = Some TaskStatusCancelled)
  /\ observed (executeSteps env p steps ls st_c)
     = observed (executeSteps env p steps ls Example.st0)
  /\ executeSteps env p steps ls st_c
     = with_records (heap st_c) (tasks st_c)
         (executeSteps env p steps ls Example.st0)
  /\ (forall task startTime plan ls' st1 r st2,
        ExecuteTask_finish env task startTime plan ls' st1 = Returned r st2 ->
        status_at task st2 = Some TaskStatusCompleted).
Proof.
  intros env p steps ls st_c.
  assert (H : CancelTask "task-1" Example.st0 = Returned 200 st_c)
    by (vm_compute; reflexivity).
  split; [exact H|].
  exact (cancellation_is_not_observed env Example.config "task-1" steps ls
           Example.st0 st_c H).
Defined.

(** * The rest of the packages: properties *)

(** ** The memory store *)

Lemma state_eta st : mkState (trace st) (heap st) (tasks st) = st.
Proof. now destruct st. Qed.

Lemma wrap_int_small z : int64_min <= z <= int64_max -> wrap_int z = z.
Proof.
  unfold int64_min, int64_max, wrap_int. intros H.
  rewrite Z.mod_small; lia.
Qed.

(** X1.  [Create] registers the pointer under the ID of its task and
    never fails: a [Get] of that ID returns the very pointer and no
    error, whether or not the ID was taken before (the earlier entry is
    replaced; [ErrAlreadyExists] is never returned).  The entries of
    the other IDs, the records and the trace stay as they were. *)
Theorem store_Create_then_Get (task : nat) (t : Task.t) (st : State) :
  heap st !! task = Some t ->
  exists st1,
    store_Create task st = Returned None st1
    /\ store_Get (Task.ID t) st1 = Returned (Some task, None) st1
    /\ heap st1 = heap st /\ trace st1 = trace st
    /\ forall id, id <> Task.ID t -> tasks st1 !! id = tasks st !! id.
Proof.
  intros Ht. eexists. unfold store_Create, deref. monad_unfold. rewrite Ht.
  split; [reflexivity|]. unfold store_Get. cbn.
  rewrite lookup_insert_eq. split; [reflexivity|].
  split; [reflexivity|]. split; [reflexivity|].
  intros id Hid. now rewrite lookup_insert_ne.
Qed.

Lemma store_Create_then_Get_witness :
  heap Example.st0 !! 1%nat = Some Example.task
  /\ exists st1,
       store_Create 1%nat Example.st0 = Returned None st1
       /\ store_Get (Task.ID Example.task) st1 = Returned (Some 1%nat, None) st1
       /\ heap st1 = heap Example.st0 /\ trace st1 = trace Example.st0
       /\ forall id, id <> Task.ID Example.task ->
                     tasks st1 !! id = tasks Example.st0 !! id.
Proof.
  assert (H : heap Example.st0 !! 1%nat = Some Example.task)
    by (vm_compute; reflexivity).
  split; [exact H|].
  exact (store_Create_then_Get 1%nat Example.task Example.st0 H).
Defined.

(** X2.  An ID the store does not hold: [Get] and [UpdateStatus] return
    [ErrNotFound], and so does [Update] of a task that carries this ID;
    [Delete] returns no error.  None of them changes the state.  The
    handlers answer 404 to [GetTask] and 500 to [CancelTask]. *)
Theorem store_missing_id (id : string) (st : State) :
  tasks st !! id = None ->
  store_Get id st = Returned (None, Some ErrNotFound) st
  /\ (forall status,
        store_UpdateStatus id status st = Returned (Some ErrNotFound) st)
  /\ (forall task t,
        heap st !! task = Some t -> Task.ID t = id ->
        store_Update task st = Returned (Some ErrNotFound) st)
  /\ store_Delete id st = Returned None st
  /\ GetTask id st = Returned (404, None) st
  /\ CancelTask id st = Returned 500 st.
Proof.
  intros Hid.
  assert (HG : store_Get id st = Returned (None, Some ErrNotFound) st)
    by (unfold store_Get; now rewrite Hid).
  assert (HU : forall status,
             store_UpdateStatus id status st = Returned (Some ErrNotFound) st)
    by (intros; unfold store_UpdateStatus; now rewrite Hid).
  split; [exact HG|]. split; [exact HU|]. split; [|split; [|split]].
  - intros task t Ht <-. unfold store_Update, deref. monad_unfold.
    rewrite Ht. now rewrite Hid.
  - unfold store_Delete, set_tasks. rewrite delete_id by exact Hid.
    now rewrite state_eta.
  - unfold GetTask. now rewrite (bind_Returned _ _ _ _ _ HG).
  - unfold CancelTask. now rewrite (bind_Returned _ _ _ _ _ (HU _)).
Qed.

Lemma store_missing_id_witness :
  tasks Example.st0 !! "task-9" = None
  /\ store_Get "task-9" Example.st0
     = Returned (None, Some ErrNotFound) Example.st0
  /\ CancelTask "task-9" Example.st0 = Returned 500 Example.st0.
Proof.
  assert (H : tasks Example.st0 !! "task-9" = None)
    by (vm_compute; reflexivity).
  split; [exact H|].
  pose proof (store_missing_id "task-9" Example.st0 H) as T.
  split; [apply T|apply T].
Defined.

(** X3.  [Delete] never fails, and after it a [Get] of the ID returns
    [ErrNotFound].  Only the entry goes: the record stays with whoever
    holds its pointer, and an [Update] through that pointer then
    returns [ErrNotFound].  The other entries are untouched. *)
Theorem store_Delete_forgets (id : string) (st : State) :
  exists st1,
    store_Delete id st = Returned None st1
    /\ store_Get id st1 = Returned (None, Some ErrNotFound) st1
    /\ heap st1 = heap st /\ trace st1 = trace st
    /\ (forall id', id' <> id -> tasks st1 !! id' = tasks st !! id')
    /\ (forall task t,
          heap st !! task = Some t -> Task.ID t = id ->
          store_Update task st1 = Returned (Some ErrNotFound) st1).
Proof.
  eexists. split; [reflexivity|]. unfold store_Get, set_tasks.
  cbn [tasks heap trace]. rewrite lookup_delete_eq. split; [reflexivity|].
  split; [reflexivity|]. split; [reflexivity|]. split.
  - intros id' Hne. now rewrite lookup_delete_ne.
  - intros task t Ht <-. unfold store_Update, deref. monad_unfold.
    cbn [tasks heap trace]. rewrite Ht. cbn beta iota. cbn [tasks heap trace].
    now rewrite lookup_delete_eq.
Qed.

(** X4.  [UpdateStatus] writes through the pointer the store holds:
    whoever holds the same pointer reads the new status, in a record
    that is otherwise as before.  The entry itself, the other records
    and the trace stay as they were. *)
Theorem store_UpdateStatus_shared (id : string) (status : TaskStatus)
  (task : nat) (t : Task.t) (st : State) :
  tasks st !! id = Some task -> heap st !! task = Some t ->
  exists st1,
    store_UpdateStatus id status st = Returned None st1
    /\ deref task st1 = Returned (Task.set_Status status t) st1
    /\ store_Get id st1 = Returned (Some task, None) st1
    /\ tasks st1 = tasks st /\ trace st1 = trace st
    /\ forall other, other <> task -> heap st1 !! other = heap st !! other.
Proof.
  intros Hid Ht. eexists. unfold store_UpdateStatus, update_task.
  rewrite Hid, Ht. split; [reflexivity|]. unfold deref, store_Get. cbn.
  rewrite lookup_insert_eq, Hid. split; [reflexivity|].
  split; [reflexivity|]. split; [reflexivity|]. split; [reflexivity|].
  intros other Hne. now rewrite lookup_insert_ne.
Qed.

Lemma store_UpdateStatus_shared_witness :
  exists st1,
    store_UpdateStatus "task-1" TaskStatusCancelled Example.st0
    = Returned None st1
    /\ deref 1%nat st1
       = Returned (Task.set_Status TaskStatusCancelled Example.task) st1.
Proof.
  assert (H1 : tasks Example.st0 !! "task-1" = Some 1%nat)
    by (vm_compute; reflexivity).
  assert (H2 : heap Example.st0 !! 1%nat = Some Example.task)
    by (vm_compute; reflexivity).
  destruct (store_UpdateStatus_shared "task-1" TaskStatusCancelled 1%nat
              Example.task Example.st0 H1 H2) as (st1 & E1 & E2 & _).
  exists st1. split; [exact E1|exact E2].
Defined.

(** *** Listing *)

Lemma deref_all_returns (l : list nat) (st : State) :
  (forall task, task ∈ l -> is_Some (heap st !! task)) ->
  exists ts,
    deref_all l st = Returned ts st
    /\ length ts = length l
    /\ forall t, t ∈ ts -> exists task, task ∈ l /\ heap st !! task = Some t.
Proof.
  induction l as [|task rest IH]; intros H.
  - exists []. split; [reflexivity|]. split; [reflexivity|].
    intros t Ht. now apply elem_of_nil in Ht.
  - destruct (H task) as [t Ht]; [left|].
    destruct IH as (ts & E & L & Hts); [intros; apply H; now right|].
    exists (t :: ts). cbn [deref_all]. unfold deref at 1. monad_unfold.
    rewrite Ht, E. split; [reflexivity|]. split; [cbn; now rewrite L|].
    intros t' [->|Hin]%elem_of_cons.
    + exists task. split; [left|exact Ht].
    + destruct (Hts t' Hin) as (task' & Hin' & Ht').
      exists task'. split; [now right|exact Ht'].
Qed.

Section RangeOrder.
Variable range_order : gmap string nat -> list (string * nat).
Hypothesis range_order_perm : forall m, range_order m ≡ₚ map_to_list m.

Lemma range_order_length (m : gmap string nat) :
  length (range_order m).*2 = size m.
Proof.
  rewrite length_fmap, (Permutation_length (range_order_perm m)).
  apply length_map_to_list.
Qed.

Lemma range_order_stored (m : gmap string nat) (task : nat) :
  task ∈ (range_order m).*2 -> exists id, m !! id = Some task.
Proof.
  intros ([id task'] & -> & H)%list_elem_of_fmap.
  rewrite (range_order_perm m) in H. apply elem_of_map_to_list in H.
  now exists id.
Qed.

(** With bounds that are not negative, [List] returns the tasks from
    [offset] on, at most [limit] of them. *)
Lemma store_List_returns (limit offset : Z) (st : State) :
  0 <= offset -> 0 <= limit -> offset + limit <= int64_max ->
  store_List range_order limit offset st
  = Returned (take (Z.to_nat limit)
                (drop (Z.to_nat offset) (range_order (tasks st)).*2),
              None) st.
Proof.
  intros Ho Hl Hsum. unfold store_List. cbv zeta.
  remember ((range_order (tasks st)).*2) as all eqn:Eall.
  destruct (Z.leb_spec (Z.of_nat (length all)) offset) as [Hge|Hlt].
  - rewrite drop_ge by lia. now rewrite take_nil.
  - rewrite wrap_int_small by (unfold int64_min, int64_max in *; lia).
    destruct (Z.ltb_spec (Z.of_nat (length all)) (offset + limit)) as [Hc|Hc].
    + replace ((offset <? 0) || (Z.of_nat (length all) <? offset))
        with false by (symmetry; apply orb_false_intro; lia).
      rewrite (take_ge _ (Z.to_nat limit)) by (rewrite length_drop; lia).
      rewrite take_ge by (rewrite length_drop; lia). reflexivity.
    + replace ((offset <? 0) || (offset + limit <? offset))
        with false by (symmetry; apply orb_false_intro; lia).
      now replace (offset + limit - offset) with limit by lia.
Qed.

(** X5.  [List] with an offset and a limit that are not negative (and
    whose sum is an [int]) returns no error and the page of at most
    [limit] tasks that starts [offset] tasks into the order in which
    the map is ranged over: min(limit, max(0, n - offset)) tasks of the
    n stored ones, each of them stored; an offset at or past the end
    gives the empty page.  The state is not changed. *)
Theorem store_List_page (limit offset : Z) (st : State) :
  0 <= offset -> 0 <= limit -> offset + limit <= int64_max ->
  exists page,
    store_List range_order limit offset st = Returned (page, None) st
    /\ page = take (Z.to_nat limit)
                (drop (Z.to_nat offset) (range_order (tasks st)).*2)
    /\ Z.of_nat (length page)
       = Z.min limit (Z.max 0 (Z.of_nat (size (tasks st)) - offset))
    /\ forall task, task ∈ page -> exists id, tasks st !! id = Some task.
Proof.
  intros Ho Hl Hsum. eexists. split; [now apply store_List_returns|].
  split; [reflexivity|]. split.
  - rewrite length_take, length_drop, range_order_length. lia.
  - intros task H. apply (range_order_stored (tasks st)).
    apply subseteq_take, subseteq_drop in H. exact H.
Qed.

(** X6.  [List] panics on a negative offset, and on a negative limit
    when the offset lies before the end: the slice expression
    [tasks[offset:end]] is then out of range. *)
Theorem store_List_out_of_range (limit offset : Z) (st : State) :
  int64_min <= offset + limit <= int64_max ->
  offset < 0 \/ (offset < Z.of_nat (size (tasks st)) /\ limit < 0) ->
  store_List range_order limit offset st
  = Panicked slice_bounds_out_of_range st.
Proof.
  intros Hsum H. unfold store_List. cbv zeta.
  rewrite range_order_length.
  destruct (Z.leb_spec (Z.of_nat (size (tasks st))) offset) as [Hge|Hlt];
    [lia|].
  rewrite wrap_int_small by exact Hsum.
  destruct (Z.ltb_spec (Z.of_nat (size (tasks st))) (offset + limit)) as [Hc|Hc].
  - replace ((offset <? 0) || (Z.of_nat (size (tasks st)) <? offset))
      with true by (symmetry; apply orb_true_intro; lia).
    reflexivity.
  - replace ((offset <? 0) || (offset + limit <? offset))
      with true by (symmetry; apply orb_true_intro; lia).
    reflexivity.
Qed.

(** X7.  [ListTasks] answers 200 with at most 100 tasks, and the
    "total" of its body is the number of tasks in the answer:
    min(100, n) for n stored tasks, not n. *)
Theorem ListTasks_total (st : State) :
  (forall id task, tasks st !! id = Some task -> is_Some (heap st !! task)) ->
  exists ts,
    ListTasks range_order st
    = Returned (200, ts, Z.min 100 (Z.of_nat (size (tasks st)))) st
    /\ Z.of_nat (length ts) = Z.min 100 (Z.of_nat (size (tasks st)))
    /\ forall t, t ∈ ts ->
         exists id task, tasks st !! id = Some task /\ heap st !! task = Some t.
Proof.
  intros Hheap. unfold ListTasks.
  rewrite (bind_Returned _ _ _ _ _
             (store_List_returns 100 0 st ltac:(lia) ltac:(lia)
                ltac:(unfold int64_max; lia))).
  cbv beta iota.
  set (page := take (Z.to_nat 100) (drop (Z.to_nat 0) (range_order (tasks st)).*2)).
  assert (Hpage : forall task, task ∈ page -> exists id, tasks st !! id = Some task).
  { intros task H. apply (range_order_stored (tasks st)).
    apply subseteq_take, subseteq_drop in H. exact H. }
  assert (Hlen : Z.of_nat (length page) = Z.min 100 (Z.of_nat (size (tasks st)))).
  { unfold page. rewrite length_take, length_drop, range_order_length. lia. }
  destruct (deref_all_returns page st) as (ts & E & L & Hts).
  { intros task H. destruct (Hpage task H) as [id Hid]. exact (Hheap id task Hid). }
  exists ts. rewrite (bind_Returned _ _ _ _ _ E). rewrite Hlen.
  split; [reflexivity|]. split; [now rewrite L|].
  intros t Ht. destruct (Hts t Ht) as (task & Hin & Hh).
  destruct (Hpage task Hin) as [id Hid]. now exists id, task.
Qed.

End RangeOrder.

Lemma store_List_page_witness :
  exists page,
    store_List map_to_list 100 0 Example.st0 = Returned (page, None) Example.st0
    /\ Z.of_nat (length page) = 1.
Proof.
  destruct (store_List_page map_to_list (fun m => Permutation_refl _) 100 0
              Example.st0 ltac:(lia) ltac:(lia) ltac:(unfold int64_max; lia))
    as (page & E & _ & L & _).
  exists page. split; [exact E|]. rewrite L. vm_compute. reflexivity.
Defined.

Lemma store_List_out_of_range_witness :
  store_List map_to_list 10 (-1) Example.st0
  = Panicked slice_bounds_out_of_range Example.st0.
Proof.
  apply (store_List_out_of_range map_to_list (fun m => Permutation_refl _)).
  - unfold int64_min, int64_max. lia.
  - left. lia.
Defined.

Lemma ListTasks_total_witness :
  exists ts,
    ListTasks map_to_list Example.st0 = Returned (200, ts, 1) Example.st0
    /\ Z.of_nat (length ts) = 1.
Proof.
  destruct (ListTasks_total map_to_list (fun m => Permutation_refl _)
              Example.st0) as (ts & E & L & _).
  - intros id task H.
    destruct (decide (id = "task-1")) as [->|Hne].
    + vm_compute in H. injection H as <-. vm_compute. eauto.
    + unfold Example.st0 in H. cbn [tasks] in H.
      rewrite lookup_singleton_ne in H by congruence. discriminate.
  - exists ts. split; [exact E|exact L].
Defined.

(** ** The handlers of a task *)

(** X8.  [CancelTask] does not look at the status of the task: for
    every stored task, running or finished, it answers 200, and a
    [GetTask] after it shows the record with the status [cancelled]
    and everything else (the result of a completed task included) as
    it was. *)
Theorem CancelTask_then_GetTask (id : string) (task : nat) (t : Task.t)
  (st : State) :
  tasks st !! id = Some task -> heap st !! task = Some t ->
  exists st1,
    CancelTask id st = Returned 200 st1
    /\ GetTask id st1
       = Returned (200, Some (Task.set_Status TaskStatusCancelled t)) st1
    /\ Task.Result (Task.set_Status TaskStatusCancelled t) = Task.Result t.
Proof.
  intros Hid Ht. eexists. unfold CancelTask, store_UpdateStatus, update_task.
  monad_unfold. rewrite Hid, Ht. split; [reflexivity|].
  unfold GetTask, store_Get, deref. monad_unfold. cbn [tasks heap trace set_heap].
  rewrite Hid. cbn beta iota. cbn [tasks heap trace set_heap].
  rewrite lookup_insert_eq. split; reflexivity.
Qed.

Lemma CancelTask_then_GetTask_witness :
  exists st1,
    CancelTask "task-1" Example.st0 = Returned 200 st1
    /\ GetTask "task-1" st1
       = Returned (200, Some (Task.set_Status TaskStatusCancelled Example.task))
           st1.
Proof.
  assert (H1 : tasks Example.st0 !! "task-1" = Some 1%nat)
    by (vm_compute; reflexivity).
  assert (H2 : heap Example.st0 !! 1%nat = Some Example.task)
    by (vm_compute; reflexivity).
  destruct (CancelTask_then_GetTask "task-1" 1%nat Example.task Example.st0
              H1 H2) as (st1 & E1 & E2 & _).
  exists st1. split; [exact E1|exact E2].
Defined.

(** ** Logging in *)

Lemma Authenticate_form env config :
  AuthConfig.Type_ config = AuthTypeForm ->
  Authenticate env config = authenticateWithForm env config.
Proof. unfold Authenticate. intros ->. reflexivity. Qed.

Lemma Authenticate_sso env config :
  AuthConfig.Type_ config = AuthTypeSSO ->
  Authenticate env config = authenticateWithSSO env config.
Proof. unfold Authenticate. intros ->. reflexivity. Qed.

Lemma Authenticate_cookie env config :
  AuthConfig.Type_ config = AuthTypeCookie ->
  Authenticate env config = authenticateWithCookies env config.
Proof. unfold Authenticate. intros ->. reflexivity. Qed.

Lemma Authenticate_token env config :
  AuthConfig.Type_ config = AuthTypeToken ->
  Authenticate env config = authenticateWithToken env config.
Proof. unfold Authenticate. intros ->. reflexivity. Qed.

Lemma new_session_eq env cookies headers st :
  let tr := Call.UuidNew :: trace st in
  new_session env cookies headers st
  = Returned (Session.mk (uuid env tr) EmptyString cookies headers
                (clock env tr + 24 * Hour) (clock env tr))
      (set_trace tr st).
Proof. reflexivity. Qed.

Lemma harvest_cookies_eq env st :
  let tr := Call.GetCookies :: trace st in
  harvest_cookies env st
  = match driver_cookies env tr with
    | (_, Some e) =>
        Returned (None, Some (fmt_Errorf_w "get cookies" e)) (set_trace tr st)
    | (cookies, None) =>
        let tr' := Call.UuidNew :: tr in
        Returned (Some (Session.mk (uuid env tr') EmptyString cookies ∅
                          (clock env tr' + 24 * Hour) (clock env tr')), None)
          (set_trace tr' st)
    end.
Proof.
  intros tr. unfold harvest_cookies, browser_GetCookies. monad_unfold.
  cbn [trace set_trace]. fold tr.
  destruct (driver_cookies env tr) as [cookies [e|]]; reflexivity.
Qed.

(** X9.  Token login does not touch the browser: with a token that is
    not empty, [Authenticate] makes the one call that draws the session
    id and returns a session without cookies whose only header is
    "Authorization: Bearer <token>", expiring 24 hours later. *)
Theorem token_auth_session (env : Env) (config : AuthConfig.t)
  (creds : Credentials.t) (st : State) :
  AuthConfig.Type_ config = AuthTypeToken ->
  AuthConfig.Credentials config = Some creds ->
  Credentials.Token creds <> EmptyString ->
  exists s,
    runs (Authenticate env config) st (Some s, None) [Call.UuidNew]
    /\ Session.Headers s
       = {[ "Authorization" := "Bearer " +:+ Credentials.Token creds ]}
    /\ Session.Cookies s = []
    /\ Session.ExpiresAt s = clock env (Call.UuidNew :: trace st) + 24 * Hour.
Proof.
  intros Hty Hc Htok. rewrite (Authenticate_token env config Hty).
  unfold authenticateWithToken. rewrite Hc.
  destruct (String.eqb_spec (Credentials.Token creds) EmptyString) as [E|_];
    [contradiction|].
  eexists. split; [reflexivity|]. split; [reflexivity|].
  split; reflexivity.
Qed.

Lemma token_auth_session_witness :
  exists s,
    runs (Authenticate Example.env_offline Sample.token_config) Example.st0
      (Some s, None) [Call.UuidNew]
    /\ Session.Headers s = {[ "Authorization" := "Bearer tok-1" ]}.
Proof.
  destruct (token_auth_session Example.env_offline Sample.token_config
              Sample.credentials Example.st0 eq_refl eq_refl
              ltac:(discriminate)) as (s & R & H & _).
  exists s. split; [exact R|exact H].
Defined.

(** X10.  Cookie login with cookies: [Authenticate] hands exactly the
    configured cookies to the browser, once.  When the browser refuses
    them the error is "set cookies: <cause>" and nothing else is done;
    otherwise the session carries the same cookies and no header. *)
Theorem cookie_auth_sets_cookies (env : Env) (config : AuthConfig.t)
  (st : State) :
  AuthConfig.Type_ config = AuthTypeCookie ->
  AuthConfig.Cookies config <> [] ->
  let cookies := AuthConfig.Cookies config in
  match driver_error env (Call.SetCookies cookies :: trace st) with
  | Some e =>
      runs (Authenticate env config) st
        (None, Some (fmt_Errorf_w "set cookies" e)) [Call.SetCookies cookies]
  | None =>
      exists s,
        runs (Authenticate env config) st (Some s, None)
          [Call.UuidNew; Call.SetCookies cookies]
        /\ Session.Cookies s = cookies /\ Session.Headers s = ∅
  end.
Proof.
  intros Hty Hc cookies. rewrite (Authenticate_cookie env config Hty).
  unfold authenticateWithCookies. fold cookies.
  destruct cookies as [|c rest] eqn:Ecs; [contradiction|].
  unfold browser_SetCookies, driver, runs. monad_unfold.
  cbn [trace set_trace].
  destruct (driver_error env _) as [e|]; [reflexivity|].
  eexists. split; [reflexivity|]. split; reflexivity.
Qed.

Lemma cookie_auth_sets_cookies_witness :
  exists s,
    runs (Authenticate Example.env_offline Sample.cookie_config) Example.st0
      (Some s, None) [Call.UuidNew; Call.SetCookies [Sample.cookie]]
    /\ Session.Cookies s = [Sample.cookie].
Proof.
  destruct (cookie_auth_sets_cookies Example.env_offline Sample.cookie_config
              Example.st0 eq_refl ltac:(discriminate)) as (s & R & H & _).
  exists s. split; [exact R|exact H].
Defined.

(** X11.  Form login that cannot start types nothing: without
    credentials [Authenticate] fails with "credentials required for
    form auth" before any call, and when the password field does not
    show up it fails with "login form not found: <cause>" after the one
    call that waited for it: no field is filled, no button clicked. *)
Theorem form_auth_without_form (env : Env) (config : AuthConfig.t) (st : State) :
  AuthConfig.Type_ config = AuthTypeForm ->
  (AuthConfig.Credentials config = None ->
   Authenticate env config st
   = Returned (None, Some (errors_New "credentials required for form auth")) st)
  /\ (forall creds e,
        AuthConfig.Credentials config = Some creds ->
        let wait := Call.WaitForSelector "input[type='password']" (10 * Second) in
        driver_error env (wait :: trace st) = Some e ->
        runs (Authenticate env config) st
          (None, Some (fmt_Errorf_w "login form not found" e)) [wait]).
Proof.
  intros Hty. rewrite (Authenticate_form env config Hty).
  unfold authenticateWithForm. split.
  - intros ->. reflexivity.
  - intros creds e Hc. rewrite Hc. cbv zeta. intros He.
    unfold browser_WaitForSelector, driver, runs.
    monad_unfold. cbn [trace set_trace]. now rewrite He.
Qed.

Lemma form_auth_without_form_witness :
  runs (Authenticate Sample.env_no_form Sample.form_config) Example.st0
    (None, Some (fmt_Errorf_w "login form not found"
                   (errors_New "timeout 10000ms")))
    [Call.WaitForSelector "input[type='password']" (10 * Second)].
Proof.
  destruct (form_auth_without_form Sample.env_no_form Sample.form_config
              Example.st0 eq_refl) as [_ H].
  exact (H Sample.credentials (errors_New "timeout 10000ms") eq_refl eq_refl).
Defined.

(** X12.  Form login reports success whenever the password field is
    found and filled and the cookies can be read: the failures of the
    attempts to fill a username field and to click a submit button are
    dropped, so a session comes back even when no username was typed
    and nothing was submitted.  Its cookies are what the browser
    reported. *)
Theorem form_auth_needs_only_password (env : Env) (config : AuthConfig.t)
  (creds : Credentials.t) (st : State) :
  AuthConfig.Type_ config = AuthTypeForm ->
  AuthConfig.Credentials config = Some creds ->
  (forall tr,
     driver_error env
       (Call.WaitForSelector "input[type='password']" (10 * Second) :: tr)
     = None) ->
  (forall tr,
     driver_error env
       (Call.Fill "input[type='password']" (Credentials.Password creds) :: tr)
     = None) ->
  (forall tr, snd (driver_cookies env (Call.GetCookies :: tr)) = None) ->
  exists s st' tr,
    Authenticate env config st = Returned (Some s, None) st'
    /\ trace st' = Call.UuidNew :: Call.GetCookies :: tr
    /\ Session.Cookies s = fst (driver_cookies env (Call.GetCookies :: tr)).
Proof.
  intros Hty Hc Hwait Hfill Hcookies.
  rewrite (Authenticate_form env config Hty).
  unfold authenticateWithForm. rewrite Hc. cbv beta iota.
  pose (st1 := set_trace
                 (Call.WaitForSelector "input[type='password']" (10 * Second)
                  :: trace st) st).
  destruct (total_first_success
              (fun sel => browser_Fill env sel (Credentials.Username creds))
              ["input[name='username']"; "input[name='email']";
               "input[type='email']"; "input[id='username']";
               "input[id='email']"]
              (fun sel => total_driver env _) st1) as ([] & st2 & E2).
  pose (st3 := set_trace
                 (Call.Fill "input[type='password']" (Credentials.Password creds)
                  :: trace st2) st2).
  destruct (total_first_success (browser_Click env)
              ["button[type='submit']"; "input[type='submit']";
               "button:has-text('登录')"; "button:has-text('Login')"]
              (fun sel => total_driver env _) st3) as ([] & st4 & E4).
  pose (st5 := set_trace (Call.Sleep (3 * Second) :: trace st4) st4).
  pose proof (harvest_cookies_eq env st5) as E6. cbv zeta in E6.
  pose proof (Hcookies (trace st5)) as Hc6.
  destruct (driver_cookies env (Call.GetCookies :: trace st5))
    as [cookies err] eqn:Ec.
  cbn in Hc6. subst err.
  eexists _, _, (trace st5). split.
  - rewrite (bind_Returned (browser_WaitForSelector env _ _) _ st _ _
               (runs_driver env _ st)).
    cbn [trace set_trace app]. rewrite Hwait.
    change (set_trace _ st) with st1.
    rewrite (bind_Returned _ _ _ _ _ E2).
    rewrite (bind_Returned (browser_Fill env _ _) _ st2 _ _
               (runs_driver env _ st2)).
    cbn [trace set_trace app]. rewrite Hfill.
    change (set_trace _ st2) with st3.
    rewrite (bind_Returned _ _ _ _ _ E4).
    rewrite (bind_Returned _ _ _ _ _ (runs_time_Sleep _ st4)).
    change (set_trace _ st4) with st5.
    exact E6.
  - split; [reflexivity|]. rewrite Ec. reflexivity.
Qed.

Lemma form_auth_needs_only_password_witness :
  exists s st' tr,
    Authenticate Sample.env_password_only Sample.form_config Example.st0
    = Returned (Some s, None) st'
    /\ trace st' = Call.UuidNew :: Call.GetCookies :: tr
    /\ Session.Cookies s = [Sample.cookie].
Proof.
  destruct (form_auth_needs_only_password Sample.env_password_only
              Sample.form_config Sample.credentials Example.st0
              eq_refl eq_refl (fun tr => eq_refl) (fun tr => eq_refl)
              (fun tr => eq_refl)) as (s & st' & tr & E & T & C).
  exists s, st', tr. split; [exact E|]. split; [exact T|exact C].
Defined.

(** *** The lifetime of a session *)

Lemma establishes_ret {A : Type} (a : A) (Q : A -> State -> Prop) :
  (forall st, Q a st) -> establishes (mret a) Q.
Proof. intros H st a' st' E. cbv in E. injection E as <- <-. apply H. Qed.

Lemma establishes_bind {A B : Type} (m : M A) (f : A -> M B)
  (Q : B -> State -> Prop) :
  (forall a, establishes (f a) Q) -> establishes (m ≫= f) Q.
Proof.
  intros H st b st' E. apply bind_inv in E as (a & st1 & _ & E).
  exact (H a _ _ _ E).
Qed.

Lemma establishes_new_session env cookies headers :
  establishes (s ← new_session env cookies headers; mret (Some s, None))
    (expires_in_24h env).
Proof.
  intros st a st' E.
  rewrite (bind_Returned _ _ _ _ _ (new_session_eq env cookies headers st)) in E.
  unfold mret, M_mret, M_ret in E. injection E as <- <-.
  intros s [= <-]. reflexivity.
Qed.

Lemma establishes_harvest_cookies env :
  establishes (harvest_cookies env) (expires_in_24h env).
Proof.
  intros st a st' E. rewrite harvest_cookies_eq in E. cbv zeta in E.
  destruct (driver_cookies env _) as [cookies [e|]]; injection E as <- <-;
    intros s H; [discriminate|]. injection H as <-. reflexivity.
Qed.

(** One step of a proof of [establishes] along the shape of the code. *)
Ltac establishes_step :=
  match goal with
  | |- establishes (mret (None, _)) _ =>
      apply establishes_ret; intros ? ? ?; discriminate
  | |- establishes (harvest_cookies _) _ => apply establishes_harvest_cookies
  | |- establishes (_ ← new_session _ _ _; mret (Some _, None)) _ =>
      apply establishes_new_session
  | |- establishes (_ ≫= _) _ => apply establishes_bind; intros ?
  | |- establishes (match ?x with _ => _ end) _ => destruct x
  | |- establishes (if ?b then _ else _) _ => destruct b
  end.

Lemma Authenticate_expiry env config :
  establishes (Authenticate env config) (expires_in_24h env).
Proof.
  unfold Authenticate.
  repeat match goal with
         | |- establishes (if String.eqb ?a ?b then _ else _) _ =>
             destruct (String.eqb a b)
         end.
  - unfold createEmptySession. apply establishes_new_session.
  - unfold authenticateWithForm. repeat establishes_step.
  - unfold authenticateWithSSO. repeat establishes_step.
  - unfold authenticateManually. generalize manual_ticks.
    intros ticks. induction ticks as [|n IH]; cbn [authenticateManually_loop].
    + establishes_step.
    + repeat first [exact IH | establishes_step].
  - unfold authenticateWithCookies. repeat establishes_step.
  - unfold authenticateWithToken. repeat establishes_step.
  - establishes_step.
Qed.

(** X13.  Whatever the login method, a session that [Authenticate]
    returns expires exactly 24 hours after the instant at which it is
    made (no call lies between that instant and the return), and
    [ValidateSession] accepts it at every instant up to its expiry,
    that instant included. *)
Theorem fresh_session_is_valid (env : Env) (config : AuthConfig.t)
  (st : State) (s : Session.t) (st' : State) :
  Authenticate env config st = Returned (Some s, None) st' ->
  Session.ExpiresAt s = clock env (trace st') + 24 * Hour
  /\ forall st'',
       clock env (trace st'') <= clock env (trace st') + 24 * Hour ->
       ValidateSession env (Some s) st'' = Returned (true, None) st''.
Proof.
  intros E. pose proof (Authenticate_expiry env config st _ st' E s eq_refl) as X.
  split; [exact X|]. intros st'' Hle. unfold ValidateSession, time_Now.
  monad_unfold. rewrite X.
  destruct (Z.ltb_spec (clock env (trace st') + 24 * Hour)
              (clock env (trace st''))); [lia|reflexivity].
Qed.

Lemma fresh_session_is_valid_witness :
  exists s st',
    Authenticate Example.env_offline Sample.cookie_config Example.st0
    = Returned (Some s, None) st'
    /\ ValidateSession Example.env_offline (Some s) st'
       = Returned (true, None) st'.
Proof.
  pose (env := Example.env_offline).
  pose (tr := [Call.UuidNew; Call.SetCookies [Sample.cookie]]).
  pose (s := Session.mk (uuid env tr) EmptyString [Sample.cookie] ∅
               (clock env tr + 24 * Hour) (clock env tr)).
  pose (st' := set_trace tr Example.st0).
  assert (E : Authenticate env Sample.cookie_config Example.st0
              = Returned (Some s, None) st') by (vm_compute; reflexivity).
  exists s, st'. split; [exact E|].
  apply (fresh_session_is_valid env Sample.cookie_config Example.st0 s st' E).
  unfold Hour, Minute, Second, Millisecond. lia.
Defined.

(** *** Logins configured through the API *)

Lemma ensures_harvest_cookies env (P : option Session.t * option error -> Prop) :
  (forall s, P (Some s, None)) ->
  (forall e, P (None, Some (fmt_Errorf_w "get cookies" e))) ->
  ensures (harvest_cookies env) P.
Proof.
  intros Hs He st a st' E. rewrite harvest_cookies_eq in E. cbv zeta in E.
  destruct (driver_cookies env _) as [cookies [e|]]; injection E as <- _;
    [apply He|apply Hs].
Qed.

(** X14.  The authentication block of a request always becomes a
    configuration with credentials and with an SSO block, whatever the
    request left out.  So a login configured through the API never
    fails with "credentials required for form auth" (type [form]) nor
    with "sso config required" (type [sso]), and a [token] login fails
    with "token required" exactly when the token of the request is
    empty. *)
Theorem api_auth_config_is_complete (env : Env) (req : AuthConfigRequest.t) :
  exists config creds sso,
    convertAuthConfig (Some req) = Some config
    /\ AuthConfig.Credentials config = Some creds
    /\ AuthConfig.SSOConfig config = Some sso
    /\ (AuthConfig.Type_ config = AuthTypeForm ->
        ensures (Authenticate env config)
          (fun r => snd r
                    <> Some (errors_New "credentials required for form auth")))
    /\ (AuthConfig.Type_ config = AuthTypeSSO ->
        ensures (Authenticate env config)
          (fun r => snd r <> Some (errors_New "sso config required")))
    /\ (AuthConfig.Type_ config = AuthTypeToken ->
        forall st, exists r st',
          Authenticate env config st = Returned r st'
          /\ (snd r = Some (errors_New "token required")
              <-> AuthConfigRequest.Token req = EmptyString)).
Proof.
  eexists _, _, _. split; [reflexivity|]. split; [reflexivity|].
  split; [reflexivity|]. split; [|split].
  - intros Hty. rewrite (Authenticate_form env _ Hty).
    unfold authenticateWithForm. cbn [AuthConfig.Credentials].
    repeat first
      [ match goal with
        | |- ensures (harvest_cookies _) _ =>
            apply ensures_harvest_cookies; intros; cbn [snd]; discriminate
        | |- snd _ <> _ => cbn [snd]; discriminate
        end
      | ensures_step ].
  - intros Hty. rewrite (Authenticate_sso env _ Hty).
    unfold authenticateWithSSO. cbn [AuthConfig.SSOConfig].
    repeat first
      [ match goal with
        | |- ensures (harvest_cookies _) _ =>
            apply ensures_harvest_cookies; intros; cbn [snd]; discriminate
        | |- snd _ <> _ => cbn [snd]; discriminate
        end
      | ensures_step ].
  - intros Hty st. rewrite (Authenticate_token env _ Hty).
    unfold authenticateWithToken.
    cbn [AuthConfig.Credentials Credentials.Token].
    destruct (String.eqb_spec (AuthConfigRequest.Token req) EmptyString)
      as [E|NE].
    + eexists _, _. split; [reflexivity|]. cbn. split; trivial.
    + eexists _, _. split; [reflexivity|]. cbn. split; [discriminate|].
      intros E. contradiction.
Qed.

(** ** The clients of the factory *)

(** X15.  The default endpoint the factory writes into a configuration
    without endpoint is the [DefaultEndpoint] of the provider's preset
    for every preset but [local_proxy]: that preset advertises
    http://localhost:8000/v1, while the factory has no default for the
    provider, leaves the endpoint empty and the client posts its chat
    request to the bare path "/chat/completions". *)
Theorem preset_default_endpoints (env : Env) :
  Forall
    (fun p =>
       forall model key options,
         LLMConfig.Endpoint
           (config_after_NewClient
              (LLMConfig.mk (LLMPreset.Provider p) model EmptyString key options))
         = if String.eqb (LLMPreset.Provider p) LLMProviderLocalProxy
           then EmptyString else LLMPreset.DefaultEndpoint p)
    GetLLMPresets
  /\ (exists p,
        p ∈ GetLLMPresets
        /\ LLMPreset.Provider p = LLMProviderLocalProxy
        /\ LLMPreset.DefaultEndpoint p = "http://localhost:8000/v1")
  /\ (forall model key options,
        let config :=
          LLMConfig.mk LLMProviderLocalProxy model EmptyString key options in
        exists c : LLMClient,
          NewClient env config = (Some c, None)
          /\ forall messages st,
               sends env (Chat c messages) (OpenAI_reqBody config messages)
                 "/chat/completions"
                 (fun req =>
                    Request.Header req !! "Authorization"
                    = if String.eqb key EmptyString then None
                      else Some ("Bearer " +:+ key))
                 st).
Proof.
  split; [|split].
  - unfold GetLLMPresets. repeat constructor.
  - eexists. split; [unfold GetLLMPresets; do 6 right; left|].
    split; reflexivity.
  - intros model key options config. eexists. split; [reflexivity|].
    intros messages st.
    exact (OpenAICompatibleClient_Chat_sends env
             (NewOpenAICompatibleClient config) messages st).
Qed.


(** X17.  The factory never overrides an endpoint: a configuration
    with an endpoint comes back from [NewClient] as it was.  In every
    case only the endpoint can change, and a second [NewClient] on the
    same configuration changes nothing more. *)
Theorem NewClient_keeps_explicit_endpoint (config : LLMConfig.t) :
  let config' := config_after_NewClient config in
  (LLMConfig.Endpoint config <> EmptyString -> config' = config)
  /\ config' = LLMConfig.set_Endpoint (LLMConfig.Endpoint config') config
  /\ config_after_NewClient config' = config'.
Proof.
  destruct config as [p m e k o].
  unfold config_after_NewClient, NewAnthropicClient, NewOpenAICompatibleClient.
  cbn [LLMConfig.Provider LLMConfig.Endpoint AnthropicClient.config
       OpenAICompatibleClient.config].
  destruct (String.eqb_spec e EmptyString) as [->|He].
  - split; [intros H; now contradiction H|].
    destruct (String.eqb p LLMProviderAnthropic) eqn:Ea.
    + cbn. rewrite Ea. split; reflexivity.
    + destruct (String.eqb p LLMProviderOpenAI) eqn:E1;
        [cbn; rewrite Ea; split; reflexivity|].
      destruct (String.eqb p LLMProviderDeepSeek) eqn:E2;
        [cbn; rewrite Ea; split; reflexivity|].
      destruct (String.eqb p LLMProviderOllama) eqn:E3;
        [cbn; rewrite Ea; split; reflexivity|].
      destruct (String.eqb p LLMProviderMoonshot) eqn:E4;
        [cbn; rewrite Ea; split; reflexivity|].
      destruct (String.eqb p LLMProviderQwen) eqn:E5;
        [cbn; rewrite Ea; split; reflexivity|].
      cbn. rewrite Ea, E1, E2, E3, E4, E5. split; reflexivity.
  - destruct (String.eqb p LLMProviderAnthropic) eqn:Ea; cbn;
      rewrite Ea; cbn;
      destruct (String.eqb_spec e EmptyString); try contradiction;
      repeat split.
Qed.

(** ** The planner *)

Lemma string_app_assoc (a b c : string) : (a +:+ b) +:+ c = a +:+ (b +:+ c).
Proof.
  induction a as [|x a IH]; [reflexivity|].
  change (String x ((a +:+ b) +:+ c) = String x (a +:+ (b +:+ c))).
  now rewrite IH.
Qed.

Lemma string_app_nil_r (a : string) : a +:+ EmptyString = a.
Proof.
  induction a as [|x a IH]; [reflexivity|].
  change (String x (a +:+ EmptyString) = String x a). now rewrite IH.
Qed.

Lemma formatElements_loop_eq (total : Z) (elements : list Element.t) (i : Z)
  (result : string) :
  0 <= i <= 20 ->
  formatElements_loop total i elements result
  = result +:+ lines_of (take (Z.to_nat (20 - i)) elements)
           +:+ (if 20 - i <? Z.of_nat (length elements)
                then elements_left_out (total - 20) else EmptyString).
Proof.
  revert i result. induction elements as [|el rest IH]; intros i result Hi.
  - cbn [formatElements_loop length]. rewrite take_nil.
    destruct (Z.ltb_spec (20 - i) (Z.of_nat 0)) as [H|_]; [lia|].
    cbn [lines_of foldr]. now rewrite !string_app_nil_r.
  - cbn [formatElements_loop]. destruct (Z.leb_spec 20 i) as [H20|Hlt].
    + replace (20 - i) with 0 by lia. cbn [Z.to_nat take lines_of foldr].
      destruct (Z.ltb_spec 0 (Z.of_nat (length (el :: rest)))) as [_|H];
        [reflexivity|cbn [length] in H; lia].
    + rewrite IH by lia.
      replace (Z.to_nat (20 - i)) with (S (Z.to_nat (20 - (i + 1)))) by lia.
      cbn [take lines_of foldr length].
      fold (lines_of (take (Z.to_nat (20 - (i + 1))) rest)).
      replace (20 - i <? Z.of_nat (S (length rest)))
        with (20 - (i + 1) <? Z.of_nat (length rest))
        by (destruct (Z.ltb_spec (20 - (i + 1)) (Z.of_nat (length rest)));
            destruct (Z.ltb_spec (20 - i) (Z.of_nat (S (length rest)))); lia).
      fold (element_line el). now rewrite !string_app_assoc.
Qed.

Lemma lines_of_shown (l l' : list Element.t) :
  shown <$> l = shown <$> l' -> lines_of l = lines_of l'.
Proof.
  revert l'. induction l as [|el l IH]; intros [|el' l'] H;
    try discriminate; [reflexivity|].
  cbn in H. injection H as Ht Hx Hl. cbn [lines_of foldr].
  fold (lines_of l) (lines_of l'). rewrite (IH l' Hl).
  unfold element_line. now rewrite Ht, Hx.
Qed.

(** X18.  [formatElements] writes one line, "- <tag> text", for each of
    the first 20 elements and, only when there are more, one more line
    that counts the rest; for no element at all it is the fixed text
    that says so.  Nothing else of the page's elements reaches a
    prompt: two lists of the same length whose first 20 elements agree
    on tag name and text are formatted alike, whatever their selectors
    and whatever comes after the 20th. *)
Theorem formatElements_lists_20 (elements : list Element.t) :
  formatElements elements
  = match elements with
    | [] => "（无可交互元素）"
    | _ =>
        lines_of (take 20 elements)
        +:+ (if 20 <? Z.of_nat (length elements)
             then elements_left_out (Z.of_nat (length elements) - 20)
             else EmptyString)
    end
  /\ forall elements',
       length elements' = length elements ->
       shown <$> take 20 elements' = shown <$> take 20 elements ->
       formatElements elements' = formatElements elements.
Proof.
  assert (H : forall l : list Element.t,
             formatElements l
             = match l with
               | [] => "（无可交互元素）"
               | _ =>
                   lines_of (take 20 l)
                   +:+ (if 20 <? Z.of_nat (length l)
                        then elements_left_out (Z.of_nat (length l) - 20)
                        else EmptyString)
               end).
  { intros [|el rest]; [reflexivity|]. unfold formatElements.
    rewrite formatElements_loop_eq by lia. reflexivity. }
  split; [apply H|]. intros elements' Hlen Hshown. rewrite (H elements'), H.
  destruct elements as [|el rest], elements' as [|el' rest'];
    try discriminate; [reflexivity|].
  rewrite Hlen. now rewrite (lines_of_shown _ _ Hshown).
Qed.

(** X19.  [GenerateStepDescription] never returns an error.  Over the
    factory's client it sends at most one request, whose only message
    is the user prompt made of the step and its result, and the
    description is the content of the model's answer when the chat
    succeeded and the step's own description in every other case. *)
Theorem GenerateStepDescription_never_fails (env : Env) (config : LLMConfig.t)
  (step : ActionStep.t) (result : StepResult.t) (st : State) :
  let p := factory_planner env config in
  let messages := [Message.mk "user" (stepDescriptionPrompt step result)] in
  exists r description st',
    llmClient_Chat p messages st = Returned r st'
    /\ GenerateStepDescription p (Some step) (Some result) st
       = Returned (description, None) st'
    /\ description = match r with
                     | (Some resp, None) => Response.Content resp
                     | _ => ActionStep.Description step
                     end
    /\ (st' = st
        \/ exists req,
             st' = set_trace (Call.HttpDo req :: trace st) st
             /\ ChatBody.messages (Request.Body req) = messages).
Proof.
  intros p messages.
  destruct (factory_Chat env config messages st) as (r & st' & E & Hr & Hst).
  exists r. unfold GenerateStepDescription. fold messages.
  fold p in E. rewrite (bind_Returned _ _ _ _ _ E).
  destruct Hr as [[resp ->]|[e ->]]; eexists _, st';
    (split; [exact E|split; [reflexivity|split; [reflexivity|exact Hst]]]).
Qed.

(** ** More of the step loop *)

Lemma executeStep_without_action env step st :
  ActionStep.Action step
    ∉ [ActionNavigate; ActionClick; ActionFill; ActionHover; ActionSelect;
       ActionWait] ->
  exists shot delta,
    runs (executeStep env step) st
      (StepResult.mk true EmptyString EmptyString, shot, None) delta
    /\ Forall (fun c => is_action_call c = false) delta.
Proof.
  intros Hkind.
  destruct (capture_runs env step
              (set_trace (Call.Sleep (500 * Millisecond) :: trace st) st))
    as (shot & dc & Hc & Hf).
  exists shot, (dc ++ [Call.Sleep (500 * Millisecond)]). split.
  - unfold runs in *. unfold executeStep.
    rewrite (dispatch_unhandled env step Hkind).
    erewrite bind_Returned by reflexivity. cbn beta iota.
    erewrite bind_Returned by reflexivity.
    erewrite bind_Returned by exact Hc.
    cbn. now rewrite <- !app_assoc.
  - apply Forall_app. split.
    + eapply Forall_impl; [exact Hf|]. now intros c [H _].
    + now repeat constructor.
Qed.

(** X20.  A failed step can be reported as succeeded without anything
    being done: when the refinement the planner returns names none of
    the six handled actions (the empty object and [null] decode to such
    a step), the iteration executes it as a no-op, makes no driver
    action after the refinement and appends a result with
    [Success = true] and no error. *)
Theorem refinement_without_action_is_success (env : Env) (p : AIPlanner)
  (step : ActionStep.t) (ls : Loop.t) (st : State) result shot e st1
  refined st2 :
  executeStep env step st = Returned (result, shot, Some e) st1 ->
  RefineStep p step (Loop.snapshot ls) st1 = Returned (Some refined, None) st2 ->
  ActionStep.Action refined
    ∉ [ActionNavigate; ActionClick; ActionFill; ActionHover; ActionSelect;
       ActionWait] ->
  exists ls' st' delta,
    iteration env p step ls st = Returned ls' st'
    /\ Loop.stepResults ls'
       = Loop.stepResults ls ++ [StepResult.mk true EmptyString EmptyString]
    /\ trace st' = delta ++ trace st2
    /\ Forall (fun c => is_action_call c = false) delta.
Proof.
  intros H1 H2 Hkind.
  destruct (executeStep_without_action env refined st2 Hkind)
    as (shot' & d & H3 & Hd).
  rewrite (iteration_refined env p _ ls _ _ _ _ _ _ _ _ _ _ _ H1 H2 H3).
  rewrite record_result_eq. eexists _, _, (Call.TakeSnapshot :: d).
  split; [reflexivity|]. split; [reflexivity|]. split; [reflexivity|].
  constructor; [reflexivity|exact Hd].
Qed.

Lemma refinement_without_action_is_success_witness :
  step_of_reply (go_str "{}") = (Some ActionStep.zero, None)
  /\ step_of_reply "null" = (Some ActionStep.zero, None)
  /\ exists ls' st',
       iteration Sample.env_empty_object
         (factory_planner Sample.env_empty_object Example.config)
         (Example.click 2 "#missing")
         (Loop.mk [] [] (Some (Example.page 0))) Example.st0
       = Returned ls' st'
       /\ Loop.stepResults ls' = [StepResult.mk true EmptyString EmptyString].
Proof.
  split; [vm_compute; reflexivity|]. split; [vm_compute; reflexivity|].
  pose (env := Sample.env_empty_object).
  pose (p := factory_planner env Example.config).
  pose (step := Example.click 2 "#missing").
  pose (ls := Loop.mk [] [] (Some (Example.page 0))).
  pose (o1 := executeStep env step Example.st0).
  pose (r1 := value_of o1 (StepResult.mk true EmptyString EmptyString, None, None)).
  pose (st1 := state_of o1).
  pose (e := errors_New "selector not found: #missing").
  assert (H1 : executeStep env step Example.st0
               = Returned (fst (fst r1), snd (fst r1), Some e) st1)
    by (vm_compute; reflexivity).
  pose (o2 := RefineStep p step (Loop.snapshot ls) st1).
  pose (st2 := state_of o2).
  assert (H2 : RefineStep p step (Loop.snapshot ls) st1
               = Returned (Some ActionStep.zero, None) st2)
    by (vm_compute; reflexivity).
  assert (Hk : ActionStep.Action ActionStep.zero
                 ∉ [ActionNavigate; ActionClick; ActionFill; ActionHover;
                    ActionSelect; ActionWait]).
  { apply (bool_decide_unpack _). vm_compute. exact I. }
  destruct (refinement_without_action_is_success env p step ls Example.st0
              _ _ _ _ _ _ H1 H2 Hk) as (ls' & st' & d & E & R & _).
  exists ls', st'. split; [exact E|exact R].
Defined.

(** ** The result of a task *)

Lemma convertStepResults_loop_eq env (results : list StepResult.t) (i : Z)
  (acc : list TaskStep.t) (st : State) :
  convertStepResults_loop env i results acc st
  = Returned
      (acc ++ imap (fun k r =>
                      TaskStep.mk (i + Z.of_nat k + 1) EmptyString EmptyString
                        (StepResult.Success r) (StepResult.Error r) None
                        (clock env (trace st)))
                results) st.
Proof.
  revert i acc. induction results as [|r rest IH]; intros i acc.
  - cbn. now rewrite app_nil_r.
  - cbn [convertStepResults_loop imap]. unfold time_Now at 1. monad_unfold.
    rewrite IH, <- app_assoc. cbn [app]. f_equal. f_equal. f_equal.
    + f_equal. lia.
    + apply imap_ext. intros k x _. cbn. f_equal. lia.
Qed.

(** X21.  [convertStepResults] makes one entry of the task result for
    each step result, in order, and makes no call.  The entry of the
    k-th result (counting from 0) has [Order] k+1 and the result's
    [Success] and [Error]; its [Action] and [Description] are empty and
    it has no screenshot, for every step; [ExecutedAt] is the instant
    of the conversion, not that of the execution. *)
Theorem convertStepResults_shape (env : Env) (results : list StepResult.t)
  (st : State) :
  exists steps,
    convertStepResults env results st = Returned steps st
    /\ length steps = length results
    /\ forall k r,
         results !! k = Some r ->
         steps !! k = Some (converted (clock env (trace st)) k r).
Proof.
  eexists. unfold convertStepResults. rewrite convertStepResults_loop_eq.
  split; [reflexivity|]. cbn [app]. split; [apply length_imap|].
  intros k r Hk. rewrite list_lookup_imap, Hk. reflexivity.
Qed.

(** *** The documents *)

Lemma generateDocuments_loop_spec env plan results (formats : list DocFormat)
  (docs : list DocumentInfo.t) (st : State) :
  exists new st',
    generateDocuments_loop env plan results formats docs st
    = Returned (docs ++ new) st'
    /\ generate_calls (trace st')
       = generate_calls (trace st)
         ++ ((fun f => Call.Generate f plan results)
               <$> List.filter has_generator formats)
    /\ generated env (trace st')
       = generated env (trace st) ++ (format_and_content <$> new)
    /\ Forall (fun d => DocumentInfo.Size d
                        = Z.of_nat (String.length (DocumentInfo.Content d))) new
    /\ heap st' = heap st /\ tasks st' = tasks st
    /\ (List.filter has_generator formats = [] -> new = [] /\ st' = st).
Proof.
  revert docs st. induction formats as [|format rest IH]; intros docs st.
  - exists [], st. cbn. rewrite !app_nil_r. repeat split; constructor.
  - cbn [generateDocuments_loop List.filter].
    change (String.eqb format DocFormatMarkdown
            || String.eqb format DocFormatHTML) with (has_generator format).
    destruct (has_generator format) eqn:Hg.
    + unfold uuid_New_String, time_Now. monad_unfold. cbn [trace set_trace].
      destruct (docgen_Generate env _) as [doc|err] eqn:Hd.
      * match goal with
        | |- context [generateDocuments_loop env plan results rest ?d ?s] =>
            destruct (IH d s) as (new & st' & E & Hc & Hp & Hz & Hh & Ht & _)
        end.
        eexists (_ :: new), st'. rewrite E, <- app_assoc. split; [reflexivity|].
        split; [|split].
        -- rewrite Hc. cbn [trace set_trace generate_calls is_Generate fmap
                            list_fmap].
           rewrite ?app_nil_r, <- ?app_assoc. reflexivity.
        -- rewrite Hp. cbn [trace set_trace generated fmap list_fmap].
           rewrite Hd. rewrite ?app_nil_r, <- ?app_assoc. reflexivity.
        -- split; [constructor; [reflexivity|exact Hz]|].
           split; [exact Hh|]. split; [exact Ht|]. discriminate.
      * match goal with
        | |- context [generateDocuments_loop env plan results rest ?d ?s] =>
            destruct (IH d s) as (new & st' & E & Hc & Hp & Hz & Hh & Ht & _)
        end.
        exists new, st'. split; [exact E|]. split; [|split].
        -- rewrite Hc. cbn [trace set_trace generate_calls is_Generate fmap
                            list_fmap].
           rewrite ?app_nil_r, <- ?app_assoc. reflexivity.
        -- rewrite Hp. cbn [trace set_trace generated]. rewrite Hd.
           rewrite ?app_nil_r, <- ?app_assoc. reflexivity.
        -- split; [exact Hz|]. split; [exact Hh|]. split; [exact Ht|].
           discriminate.
    + apply IH.
Qed.

(** X22.  [generateDocuments] never returns an error.  It asks a
    generator exactly for the formats [markdown] and [html] of the
    task, once each and in the order of the task, with the plan and the
    step results; every other format ([pdf] and [docx] among them) is
    skipped without a call.  The documents it returns are those of the
    generators that succeeded, in that order, each with the format it
    was asked for, the generated content and the length of that content
    as size: a format whose generator fails leaves no document.  When
    none of the formats has a generator there is no document, no error
    and no call. *)
Theorem generateDocuments_formats (env : Env) (task : nat) (plan : TaskPlan.t)
  (results : list StepResult.t) (t : Task.t) (output : OutputConfig.t)
  (st : State) :
  heap st !! task = Some t -> Task.Output t = Some output ->
  exists docs st',
    generateDocuments env task plan results st = Returned (docs, None) st'
    /\ generate_calls (trace st')
       = generate_calls (trace st)
         ++ ((fun f => Call.Generate f plan results)
               <$> List.filter has_generator (OutputConfig.Formats output))
    /\ generated env (trace st')
       = generated env (trace st) ++ (format_and_content <$> docs)
    /\ Forall (fun d => DocumentInfo.Size d
                        = Z.of_nat (String.length (DocumentInfo.Content d))) docs
    /\ (Forall (fun f => f <> DocFormatMarkdown /\ f <> DocFormatHTML)
          (OutputConfig.Formats output) ->
        docs = [] /\ st' = st).
Proof.
  intros Ht Ho. unfold generateDocuments, deref. monad_unfold. rewrite Ht, Ho.
  destruct (generateDocuments_loop_spec env plan results
              (OutputConfig.Formats output) [] st)
    as (new & st' & E & Hc & Hp & Hz & _ & _ & Hnone).
  exists new, st'. rewrite E. cbn [app]. split; [reflexivity|].
  split; [exact Hc|]. split; [exact Hp|]. split; [exact Hz|].
  intros Hf. apply Hnone.
  clear -Hf. induction Hf as [|f l [H1 H2] _ IH]; [reflexivity|].
  cbn [List.filter]. unfold has_generator at 1.
  destruct (String.eqb_spec f DocFormatMarkdown); [contradiction|].
  destruct (String.eqb_spec f DocFormatHTML); [contradiction|]. exact IH.
Qed.

Lemma generateDocuments_formats_witness :
  let env := Sample.env_markdown_only in
  let plan := TaskPlan.mk "t1" "d" [] in
  exists docs st',
    generateDocuments env 3%nat plan [] Sample.mixed_state
    = Returned (docs, None) st'
    /\ generate_calls (trace st')
       = [Call.Generate DocFormatMarkdown plan [];
          Call.Generate DocFormatHTML plan []]
    /\ format_and_content <$> docs = [(DocFormatMarkdown, "# Guide")].
Proof.
  intros env plan.
  assert (H : heap Sample.mixed_state !! 3%nat = Some Sample.mixed_task)
    by (vm_compute; reflexivity).
  destruct (generateDocuments_formats env 3%nat plan [] Sample.mixed_task
              Sample.mixed_output Sample.mixed_state H eq_refl)
    as (docs & st' & E & Hc & Hp & _).
  exists docs, st'. split; [exact E|]. split; [exact Hc|].
  pose (o := generateDocuments env 3%nat plan [] Sample.mixed_state).
  assert (Hg : generated env (trace (state_of o))
               = [(DocFormatMarkdown, "# Guide")])
    by (vm_compute; reflexivity).
  unfold o in Hg. rewrite E in Hg. cbn [state_of] in Hg.
  rewrite Hg in Hp. cbn [Sample.mixed_state trace generated app] in Hp.
  now symmetry.
Defined.

(** ** How a task ends *)

Lemma update_task_eq task (f : Task.t -> Task.t) st t :
  heap st !! task = Some t ->
  update_task task f st = Returned () (set_heap (<[task := f t]> (heap st)) st).
Proof. intros H. unfold update_task. now rewrite H. Qed.

Lemma update_task_inv task (f : Task.t -> Task.t) st a st' :
  update_task task f st = Returned a st' ->
  exists t, heap st !! task = Some t
            /\ st' = set_heap (<[task := f t]> (heap st)) st.
Proof.
  unfold update_task. destruct (heap st !! task) as [t|]; [|discriminate].
  intros [= _ <-]. now exists t.
Qed.

Lemma store_Update_heap task st a st' :
  store_Update task st = Returned a st' ->
  heap st' = heap st /\ trace st' = trace st.
Proof.
  unfold store_Update, deref. monad_unfold.
  destruct (heap st !! task) as [t|]; [|discriminate].
  destruct (tasks st !! Task.ID t); intros [= _ <-]; now split.
Qed.




Lemma store_Update_eq task st t known :
  heap st !! task = Some t -> tasks st !! Task.ID t = Some known ->
  store_Update task st
  = Returned None (set_tasks (<[Task.ID t := task]> (tasks st)) st).
Proof.
  intros Ht Hk. unfold store_Update, deref. monad_unfold.
  now rewrite Ht, Hk.
Qed.

Lemma store_Update_returns task st t :
  heap st !! task = Some t ->
  exists r st', store_Update task st = Returned r st' /\ trace st' = trace st.
Proof.
  intros Ht. unfold store_Update, deref. monad_unfold. rewrite Ht.
  destruct (tasks st !! Task.ID t); eexists _, _; split; reflexivity.
Qed.

Lemma failTask_returns env task err st t :
  heap st !! task = Some t ->
  exists st', failTask env task err st = Returned (Some err) st'
              /\ trace st' = trace st.
Proof.
  intros Ht. unfold failTask.
  rewrite (bind_Returned _ _ _ _ _ (update_task_eq task _ st t Ht)).
  erewrite bind_Returned
    by (apply update_task_eq; cbn [heap set_heap]; apply lookup_insert_eq).
  erewrite bind_Returned by reflexivity.
  erewrite bind_Returned
    by (apply update_task_eq; cbn [heap set_heap]; apply lookup_insert_eq).
  match goal with
  | |- context [store_Update task ≫= _] =>
      match goal with
      | |- exists _, (_ ≫= _) ?s = _ /\ _ =>
          destruct (store_Update_returns task s
                      (Task.set_UpdatedAt (clock env (trace st))
                         (Task.set_ErrorMessage (Error err)
                            (Task.set_Status TaskStatusFailed t))))
            as (r & st' & E & Htr);
          [cbn [heap set_heap]; apply lookup_insert_eq|]
      end
  end.
  exists st'. rewrite (bind_Returned _ _ _ _ _ E). split; [reflexivity|].
  exact Htr.
Qed.




Lemma generateDocuments_no_error env task plan results :
  ensures (generateDocuments env task plan results) (fun r => snd r = None).
Proof.
  unfold generateDocuments. repeat ensures_step. reflexivity.
Qed.



Lemma defer_Close_trace {A : Type} env (body : M A) st :
  exists earlier,
    trace (state_of (defer_ (browser_Close env) body st)) = Call.Close :: earlier.
Proof.
  unfold defer_. destruct (body st) as [a st1|reason st1];
    eexists; reflexivity.
Qed.



(** X24.  [ExecuteTask] closes the browser it has connected, on every
    path: once [Connect] has succeeded, the last call of the run is
    [Close], whether the run returns (with or without an error) or
    panics.  When [Connect] fails, the run ends with the error "connect
    browser: ..." right after that call, and [Close] is not called. *)
Theorem ExecuteTask_closes_browser (env : Env) (task : nat) (t : Task.t)
  (config : LLMConfig.t) (st : State) :
  heap st !! task = Some t ->
  is_Some (tasks st !! Task.ID t) ->
  Task.LLM t = Some config ->
  match driver_error env (Call.Connect :: trace st) with
  | None =>
      exists earlier,
        trace (state_of (ExecuteTask env task st)) = Call.Close :: earlier
  | Some e =>
      exists st',
        ExecuteTask env task st
        = Returned (Some (fmt_Errorf_w "connect browser" e)) st'
        /\ trace st' = Call.Connect :: trace st
  end.
Proof.
  intros Ht [known Hknown] Hllm. unfold ExecuteTask.
  rewrite (bind_Returned _ _ _ _ _ (update_task_eq task _ st t Ht)).
  erewrite bind_Returned by reflexivity.
  erewrite bind_Returned
    by (apply update_task_eq; cbn [heap set_heap]; apply lookup_insert_eq).
  erewrite (bind_Returned (store_Update task))
    by (eapply store_Update_eq;
        [cbn [heap set_heap]; apply lookup_insert_eq|exact Hknown]).
  cbn beta iota.
  erewrite bind_Returned by reflexivity.
  erewrite (bind_Returned (deref task)).
  2:{ unfold deref. cbn [heap set_heap set_tasks]. rewrite lookup_insert_eq.
      reflexivity. }
  cbn [Task.LLM Task.set_UpdatedAt Task.set_Status]. rewrite Hllm.
  assert (Hn : snd (NewClient env config) = None)
    by (unfold NewClient; now destruct (String.eqb _ _)).
  destruct (NewClient env config) as [c cerr]. cbn in Hn. subst cerr.
  erewrite bind_Returned
    by (apply update_task_eq; cbn [heap set_heap set_tasks];
        apply lookup_insert_eq).
  erewrite (bind_Returned (browser_Connect env)) by reflexivity.
  cbn [trace set_trace set_heap set_tasks app].
  destruct (driver_error env (Call.Connect :: trace st)) as [e|].
  - match goal with
    | |- context [failTask env task ?err ?s] =>
        destruct (failTask_returns env task err s
                    (Task.set_LLM (Some (config_after_NewClient config))
                       (Task.set_UpdatedAt (clock env (trace st))
                          (Task.set_Status TaskStatusRunning t))))
          as (st' & E & Htr)
    end.
    { cbn [heap set_heap set_trace set_tasks]. apply lookup_insert_eq. }
    exists st'. split; [exact E|]. now rewrite Htr.
  - apply defer_Close_trace.
Qed.

Lemma ExecuteTask_closes_browser_witness :
  exists earlier,
    trace (state_of (ExecuteTask Example.env_offline 1%nat Example.st0))
    = Call.Close :: earlier.
Proof.
  assert (H1 : heap Example.st0 !! 1%nat = Some Example.task)
    by (vm_compute; reflexivity).
  assert (H2 : is_Some (tasks Example.st0 !! Task.ID Example.task))
    by (vm_compute; eauto).
  exact (ExecuteTask_closes_browser Example.env_offline 1%nat Example.task
           Example.config Example.st0 H1 H2 eq_refl).
Defined.

(** ** What [extractJSON] returns *)

(** Once the first opening brace is known, the loop keeps it, and an
    end it finds is just past a closing brace. *)
Lemma extractJSON_loop_started (s : list ascii) (i start depth : Z)
  (start' end' : Z) :
  start <> -1 ->
  extractJSON_loop s i start depth = (start', end') ->
  start' = start
  /\ (end' = -1
      \/ exists k, s !! k = Some "}"%char /\ end' = i + Z.of_nat k + 1).
Proof.
  intros Hs. revert i depth. induction s as [|c rest IH]; intros i depth E.
  - cbn in E. injection E as <- <-. now split; [|left].
  - cbn [extractJSON_loop] in E.
    destruct (Z.eqb_spec start (-1)) as [|_]; [contradiction|].
    destruct (Ascii.eqb c "{").
    + apply IH in E as [-> [->|(k & Hk & ->)]]; (split; [reflexivity|]);
        [now left|right]. exists (S k). split; [exact Hk|lia].
    + destruct (Ascii.eqb_spec c "}") as [->|_].
      * destruct (Z.eqb_spec (depth - 1) 0) as [_|_].
        -- injection E as <- <-. split; [reflexivity|]. right.
           exists 0%nat. split; [reflexivity|lia].
        -- apply IH in E as [-> [->|(k & Hk & ->)]]; (split; [reflexivity|]);
             [now left|right]. exists (S k). split; [exact Hk|lia].
      * apply IH in E as [-> [->|(k & Hk & ->)]]; (split; [reflexivity|]);
          [now left|right]. exists (S k). split; [exact Hk|lia].
Qed.

(** Before any opening brace the depth is never positive, so the loop
    does not end there: either the text has no opening brace and
    nothing is found, or the start is the first opening brace and an
    end, if any, is just past a closing brace after it. *)
Lemma extractJSON_loop_fresh (s : list ascii) (i depth : Z) (start' end' : Z) :
  depth <= 0 -> 0 <= i ->
  extractJSON_loop s i (-1) depth = (start', end') ->
  (start' = -1 /\ end' = -1 /\ ("{"%char ∉ s))
  \/ exists j,
       s !! j = Some "{"%char /\ ("{"%char ∉ take j s)
       /\ start' = i + Z.of_nat j
       /\ (end' = -1
           \/ exists k, (j < k)%nat /\ s !! k = Some "}"%char
                        /\ end' = i + Z.of_nat k + 1).
Proof.
  revert i depth. induction s as [|c rest IH]; intros i depth Hd Hi E.
  - cbn in E. injection E as <- <-. left. split; [reflexivity|].
    split; [reflexivity|]. apply not_elem_of_nil.
  - cbn [extractJSON_loop] in E.
    replace (-1 =? -1) with true in E by reflexivity.
    destruct (Ascii.eqb_spec c "{") as [->|Hc].
    + apply extractJSON_loop_started in E as [-> Hend]; [|lia].
      right. exists 0%nat. split; [reflexivity|].
      split; [apply not_elem_of_nil|]. split; [lia|].
      destruct Hend as [->|(k & Hk & ->)]; [now left|right].
      exists (S k). split; [lia|]. split; [exact Hk|lia].
    + assert (Hrest : extractJSON_loop rest (i + 1) (-1)
                        (if Ascii.eqb c "}" then depth - 1 else depth)
                      = (start', end')).
      { destruct (Ascii.eqb c "}"); [|exact E].
        destruct (Z.eqb_spec (depth - 1) 0) as [H0|_]; [lia|exact E]. }
      apply IH in Hrest; [|destruct (Ascii.eqb c "}"); lia|lia].
      destruct Hrest as [(-> & -> & Hno)|(j & Hj & Hpre & -> & Hend)].
      * left. split; [reflexivity|]. split; [reflexivity|].
        intros [H|H]%elem_of_cons; [now apply Hc|now apply Hno].
      * right. exists (S j). split; [exact Hj|]. split.
        { cbn [take]. intros [H|H]%elem_of_cons; [now apply Hc|now apply Hpre]. }
        split; [lia|]. destruct Hend as [->|(k & Hjk & Hk & ->)]; [now left|].
        right. exists (S k). split; [lia|]. split; [exact Hk|lia].
Qed.

(** X25.  [extractJSON] returns the reply unchanged when it has no
    opening brace, and when it has no closing brace.  In every case
    the result is either the whole reply or a piece of it that starts
    at the first opening brace of the reply and ends with a closing
    brace: no text is made up, and nothing before the first opening
    brace is kept. *)
Theorem extractJSON_shape (content : string) :
  let s := list_ascii_of_string content in
  ("{"%char ∉ s -> extractJSON content = content)
  /\ ("}"%char ∉ s -> extractJSON content = content)
  /\ (extractJSON content = content
      \/ exists pre body post,
           s = pre ++ "{"%char :: body ++ "}"%char :: post
           /\ ("{"%char ∉ pre)
           /\ extractJSON content
              = string_of_list_ascii ("{"%char :: body ++ ["}"%char])).
Proof.
  intros s. unfold extractJSON. fold s.
  destruct (extractJSON_loop s 0 (-1) 0) as [start' end'] eqn:E.
  apply extractJSON_loop_fresh in E; [|lia|lia].
  destruct E as [(-> & -> & Hno)|(j & Hj & Hpre & -> & Hend)].
  { cbn. split; [reflexivity|]. split; [reflexivity|]. now left. }
  destruct Hend as [->|(k & Hjk & Hk & ->)].
  { rewrite andb_false_r. split; [reflexivity|]. split; [reflexivity|].
    now left. }
  split; [|split].
  - intros Hno. exfalso. apply Hno. now apply list_elem_of_lookup_2 in Hj.
  - intros Hno. exfalso. apply Hno. now apply list_elem_of_lookup_2 in Hk.
  - right.
    destruct (Z.eqb_spec (0 + Z.of_nat j) (-1)) as [H|_]; [lia|].
    destruct (Z.eqb_spec (0 + Z.of_nat k + 1) (-1)) as [H|_]; [lia|].
    cbn [negb andb].
    replace (Z.to_nat (0 + Z.of_nat j)) with j by lia.
    replace (Z.to_nat (0 + Z.of_nat k + 1 - (0 + Z.of_nat j)))
      with (S (k - j)) by lia.
    assert (Hs : take j s ++ "{"%char :: drop (S j) s = s)
      by now apply take_drop_middle.
    assert (Hlen : j = length (take j s)).
    { symmetry. apply length_take_le. apply lookup_lt_Some in Hj. lia. }
    remember (take j s) as pre eqn:Epre. remember (drop (S j) s) as u eqn:Eu.
    assert (Hu : u !! (k - S j)%nat = Some "}"%char).
    { rewrite Eu, lookup_drop.
      now replace (S j + (k - S j))%nat with k by lia. }
    assert (Hu' : take (k - S j) u ++ "}"%char :: drop (S (k - S j)) u = u)
      by now apply take_drop_middle.
    assert (Hlen' : (k - S j)%nat = length (take (k - S j) u)).
    { symmetry. apply length_take_le. apply lookup_lt_Some in Hu. lia. }
    remember (take (k - S j) u) as body eqn:Ebody.
    remember (drop (S (k - S j)) u) as post eqn:Epost.
    exists pre, body, post.
    split; [now rewrite Hu'|]. split; [exact Hpre|].
    rewrite <- (string_of_list_ascii_of_string (String.substring _ _ content)).
    f_equal. rewrite substring_as_list. fold s. rewrite <- Hs.
    rewrite (drop_app_length' pre _ j Hlen). cbn [take]. f_equal.
    rewrite <- Hu'.
    replace (k - j)%nat with (length body + 1)%nat by lia.
    now rewrite take_app_add.
Qed.

(** ** docgen: the numbering of the steps *)

Lemma is_capital_of_byte (r : Z) :
  0 <= r < 128 ->
  is_capital_letter (string_of_list_ascii [json.byte_of r])
  = (65 <=? r) && (r <=? 90).
Proof.
  intros Hr. cbn [string_of_list_ascii is_capital_letter]. unfold json.byte_of.
  rewrite nat_ascii_embedding by lia.
  destruct (Z.leb_spec 65 r), (Z.leb_spec r 90),
    (Nat.leb_spec 65 (Z.to_nat r)), (Nat.leb_spec (Z.to_nat r) 90);
    cbn; try reflexivity; lia.
Qed.

Lemma is_capital_of_rune (r : Z) :
  is_capital_letter (string_of_rune r) = (65 <=? r) && (r <=? 90).
Proof.
  unfold string_of_rune.
  destruct ((r <? 0) || (1114111 <? r) || json.is_surrogate r) eqn:Hbad.
  - replace ((65 <=? r) && (r <=? 90)) with false; [reflexivity|].
    symmetry. apply andb_false_iff. unfold json.is_surrogate in Hbad.
    destruct (Z.leb_spec 65 r); [|now left]. right.
    destruct (Z.leb_spec r 90); [|reflexivity]. exfalso.
    destruct (Z.ltb_spec r 0); [lia|]. destruct (Z.ltb_spec 1114111 r); [lia|].
    destruct (Z.leb_spec 55296 r); [lia|]. discriminate.
  - unfold json.utf8_encode. destruct (Z.ltb_spec r 128) as [Hr|Hr].
    + apply is_capital_of_byte. destruct (Z.ltb_spec r 0); [discriminate|lia].
    + replace ((65 <=? r) && (r <=? 90)) with false
        by (symmetry; apply andb_false_iff; right; apply Z.leb_gt; lia).
      destruct (r <? 2048); [reflexivity|]. destruct (r <? 65536); reflexivity.
Qed.

(** X26.  Letter numbering covers 26 steps.  With the numbering
    "letter", [formatStepNumber] gives a capital letter for the steps 1
    to 26 and for no other step number.  For the steps 1 to 63 the
    label is the one character with code 64 + num: A for 1 to Z for
    26, and after Z the characters that follow it, "[" for step 27 and
    the small letter "a" for step 33. *)
Theorem formatStepNumber_letters (num : Z) (config : ContentConfig.t) :
  ContentConfig.StepNumbering config = "letter" ->
  - 2 ^ 31 - 64 <= num < 2 ^ 31 - 64 ->
  (is_capital_letter (formatStepNumber num (Some config)) = true
   <-> 1 <= num <= 26)
  /\ (1 <= num <= 63 ->
      formatStepNumber num (Some config)
      = String (ascii_of_nat (Z.to_nat (64 + num))) EmptyString).
Proof.
  intros Hn Hnum. unfold formatStepNumber. rewrite Hn.
  replace (String.eqb "letter" "letter") with true by reflexivity.
  assert (Hr : wrap_int32 (wrap_int (wrap_int (65 + num) - 1)) = 64 + num).
  { rewrite (wrap_int_small (65 + num)) by (unfold int64_min, int64_max; lia).
    rewrite wrap_int_small by (unfold int64_min, int64_max; lia).
    unfold wrap_int32. rewrite Z.mod_small; lia. }
  rewrite Hr. split.
  - rewrite is_capital_of_rune.
    destruct (Z.leb_spec 65 (64 + num)), (Z.leb_spec (64 + num) 90); cbn;
      split; intros; try discriminate; try reflexivity; lia.
  - intros H. unfold string_of_rune, json.is_surrogate.
    destruct (Z.ltb_spec (64 + num) 0); [lia|].
    destruct (Z.ltb_spec 1114111 (64 + num)); [lia|].
    destruct (Z.leb_spec 55296 (64 + num)); [lia|]. cbn [orb andb].
    unfold json.utf8_encode. destruct (Z.ltb_spec (64 + num) 128); [|lia].
    reflexivity.
Qed.

Lemma formatStepNumber_letters_witness :
  let config := ContentConfig.mk true false "letter" true in
  formatStepNumber 3 (Some config) = "C"
  /\ formatStepNumber 27 (Some config) = "["
  /\ formatStepNumber 33 (Some config) = "a"
  /\ is_capital_letter (formatStepNumber 27 (Some config)) = false.
Proof.
  intros config.
  split; [apply (formatStepNumber_letters 3 config eq_refl); lia|].
  split; [apply (formatStepNumber_letters 27 config eq_refl); lia|].
  split; [apply (formatStepNumber_letters 33 config eq_refl); lia|].
  destruct (formatStepNumber_letters 27 config eq_refl ltac:(lia))
    as [[H _] _].
  destruct (is_capital_letter _); [|reflexivity].
  specialize (H eq_refl). lia.
Defined.

(** ** The record of a completed task *)

(** X27.  When the last phase of [ExecuteTask] returns no error, the
    record of the task is completed, with a completion time, and its
    result holds one entry per step result in order (numbered from 1,
    carrying its success and error), the screenshots of the loop as
    they are, and as duration the time from the start of the task to
    the instant of the return. *)
Theorem ExecuteTask_finish_result (env : Env) (task : nat) (startTime : Z)
  (plan : TaskPlan.t) (ls : Loop.t) (st st' : State) :
  ExecuteTask_finish env task startTime plan ls st = Returned None st' ->
  exists t result,
    heap st' !! task = Some t
    /\ Task.Status t = TaskStatusCompleted
    /\ Task.CompletedAt t <> None
    /\ Task.Result t = Some result
    /\ length (TaskResult.Steps result) = length (Loop.stepResults ls)
    /\ (forall k r,
          Loop.stepResults ls !! k = Some r ->
          exists s,
            TaskResult.Steps result !! k = Some s
            /\ TaskStep.Order s = Z.of_nat k + 1
            /\ TaskStep.Success s = StepResult.Success r
            /\ TaskStep.Error s = StepResult.Error r)
    /\ TaskResult.Screenshots result = Loop.screenshots ls
    /\ TaskResult.Duration result = clock env (trace st') - startTime.
Proof.
  intros E. unfold ExecuteTask_finish in E.
  apply bind_inv in E as ([docs err] & s1 & Eg & E).
  pose proof (generateDocuments_no_error _ _ _ _ _ _ _ Eg) as Herr.
  cbn in Herr. subst err. cbn beta iota in E.
  apply bind_inv in E as ([] & s2 & E2 & E).
  apply update_task_inv in E2 as (t1 & Ht1 & ->).
  apply bind_inv in E as (n1 & s3 & E3 & E).
  unfold time_Now in E3. injection E3 as <- <-.
  apply bind_inv in E as ([] & s4 & E4 & E).
  apply update_task_inv in E4 as (t4 & Ht4 & ->).
  cbn [heap set_heap] in Ht4. rewrite lookup_insert_eq in Ht4.
  injection Ht4 as <-.
  apply bind_inv in E as (n2 & s5 & E5 & E).
  unfold time_Now in E5. injection E5 as <- <-.
  apply bind_inv in E as ([] & s6 & E6 & E).
  apply update_task_inv in E6 as (t6 & Ht6 & ->).
  cbn [heap set_heap] in Ht6. rewrite lookup_insert_eq in Ht6.
  injection Ht6 as <-.
  apply bind_inv in E as (steps & s7 & E7 & E).
  unfold convertStepResults in E7. rewrite convertStepResults_loop_eq in E7.
  injection E7 as <- <-.
  apply bind_inv in E as (n3 & s8 & E8 & E).
  unfold time_Now in E8. injection E8 as <- <-.
  apply bind_inv in E as ([] & s9 & E9 & E).
  apply update_task_inv in E9 as (t9 & Ht9 & ->).
  cbn [heap set_heap] in Ht9. rewrite lookup_insert_eq in Ht9.
  injection Ht9 as <-.
  apply bind_inv in E as (uerr & s10 & E10 & E).
  apply store_Update_heap in E10 as [Hh Htr].
  assert (st' = s10) as ->
    by (destruct uerr; unfold mret, M_mret, M_ret in E; now injection E).
  eexists _, _. rewrite Hh, Htr. cbn [heap set_heap trace].
  rewrite lookup_insert_eq. split; [reflexivity|].
  cbn [Task.Status Task.UpdatedAt Task.CompletedAt Task.Result
       Task.set_Result Task.set_CompletedAt Task.set_UpdatedAt Task.set_Status
       TaskResult.Steps TaskResult.Screenshots TaskResult.Duration app].
  split; [reflexivity|]. split; [discriminate|]. split; [reflexivity|].
  cbn [TaskResult.Steps TaskResult.Screenshots TaskResult.Duration app].
  split; [apply length_imap|]. split; [|split; reflexivity].
  intros k r Hk. eexists. rewrite list_lookup_imap, Hk.
  split; [reflexivity|]. cbn. repeat split.
Qed.

Lemma ExecuteTask_finish_result_witness :
  exists t result,
    heap (state_of
            (ExecuteTask_finish Example.env_offline 1%nat 0
               (TaskPlan.mk "t1" "d" [Example.click 1 "#buy"])
               (Loop.mk [StepResult.mk true EmptyString EmptyString] [] None)
               Example.st0)) !! 1%nat = Some t
    /\ Task.Status t = TaskStatusCompleted
    /\ Task.Result t = Some result
    /\ length (TaskResult.Steps result) = 1%nat.
Proof.
  pose (o := ExecuteTask_finish Example.env_offline 1%nat 0
               (TaskPlan.mk "t1" "d" [Example.click 1 "#buy"])
               (Loop.mk [StepResult.mk true EmptyString EmptyString] [] None)
               Example.st0).
  pose (st' := state_of o).
  assert (E : ExecuteTask_finish Example.env_offline 1%nat 0
                (TaskPlan.mk "t1" "d" [Example.click 1 "#buy"])
                (Loop.mk [StepResult.mk true EmptyString EmptyString] [] None)
                Example.st0
              = Returned None st') by (vm_compute; reflexivity).
  destruct (ExecuteTask_finish_result _ _ _ _ _ _ _ E)
    as (t & result & Ht & Hs & _ & Hr & Hsteps & _).
  exists t, result. split; [exact Ht|]. split; [exact Hs|].
  split; [exact Hr|exact Hsteps].
Defined.

(** ** The loop goes through the whole plan *)

(** X28.  A failed step does not stop the loop.  Whenever the loop
    over a plan returns, it has appended exactly one result for each
    step, and the first attempt of every step has been made, in the
    order of the plan, whatever happened to the steps before it; the
    task records are not touched. *)
Theorem executeSteps_attempts_every_step (env : Env) (config : LLMConfig.t)
  (steps : list ActionStep.t) (ls : Loop.t) (st : State) (ls' : Loop.t)
  (st' : State) :
  executeSteps env (factory_planner env config) steps ls st = Returned ls' st' ->
  exists new delta,
    Loop.stepResults ls' = Loop.stepResults ls ++ new
    /\ length new = length steps
    /\ st' = set_trace (delta ++ trace st) st
    /\ concat (dispatch_calls <$> reverse steps) `sublist_of` delta.
Proof.
  revert ls st. induction steps as [|step rest IH]; intros ls st H; cbn in H.
  - injection H as <- <-. exists [], []. rewrite app_nil_r.
    split; [reflexivity|]. split; [reflexivity|].
    split; [cbn [app]; now rewrite set_trace_trace|]. constructor.
  - apply bind_inv in H as (ls1 & st1 & H1 & H2).
    apply iteration_appends in H1 as (r & later & Hr & ->).
    apply IH in H2 as (new & delta & Hn & Hl & -> & Hsub).
    exists (r :: new), (delta ++ later ++ dispatch_calls step).
    split; [now rewrite Hn, Hr, <- app_assoc|].
    split; [cbn; now rewrite Hl|]. split.
    + rewrite trace_set_trace, set_trace_set_trace. now rewrite <- !app_assoc.
    + rewrite reverse_cons, fmap_app, concat_app. cbn [fmap list_fmap concat].
      rewrite app_nil_r. apply sublist_app; [exact Hsub|].
      apply sublist_inserts_l. reflexivity.
Qed.

Lemma executeSteps_attempts_every_step_witness :
  exists ls' st',
    executeSteps Example.env_offline
      (factory_planner Example.env_offline Example.config)
      [Example.click 1 "#missing"; Example.click 2 "#buy"]
      (Loop.mk [] [] (Some (Example.page 0))) Example.st0
    = Returned ls' st'
    /\ length (Loop.stepResults ls') = 2%nat.
Proof.
  pose (env := Example.env_offline).
  pose (p := factory_planner env Example.config).
  pose (steps := [Example.click 1 "#missing"; Example.click 2 "#buy"]).
  pose (ls := Loop.mk [] [] (Some (Example.page 0))).
  pose (o := executeSteps env p steps ls Example.st0).
  pose (ls' := value_of o ls). pose (st' := state_of o).
  assert (E : executeSteps env p steps ls Example.st0 = Returned ls' st')
    by (vm_compute; reflexivity).
  exists ls', st'. split; [exact E|].
  destruct (executeSteps_attempts_every_step env Example.config steps ls
              Example.st0 ls' st' E) as (new & delta & Hn & Hl & _).
  rewrite Hn. cbn [Loop.stepResults ls app]. exact Hl.
Defined.

(** ** Validating a configuration *)

Lemma factory_Validate env config :
  exists c,
    NewClient env config = (Some c, None)
    /\ llmClient_Chat (factory_planner env config) = Chat c
    /\ Validate c
       = ('(_, err) ← Chat c [Message.mk "user" "hi"]; mret err).
Proof.
  unfold factory_planner, NewClient.
  destruct (String.eqb _ _); eexists; split; try reflexivity;
    split; reflexivity.
Qed.

(** X29.  [ValidateLLM] answers by the result of one probe chat.  The
    client is the one the factory makes for the configuration of the
    request, and the probe is a chat of that client with the single
    user message "hi".  When the probe returns no error the answer is
    200 and valid; when it returns the error [e] the answer is 400,
    not valid, with the text of [e] as error.  The answer that the
    configuration is invalid is never given, and at most one request is
    sent. *)
Theorem ValidateLLM_answers (env : Env) (req : ValidateLLMRequest.t)
  (st : State) :
  let config :=
    LLMConfig.mk (ValidateLLMRequest.Provider req)
      (ValidateLLMRequest.Model req) (ValidateLLMRequest.Endpoint req)
      (ValidateLLMRequest.APIKey req)
      (Some (LLMOptions.mk (ValidateLLMRequest.Temperature req)
               (ValidateLLMRequest.MaxTokens req) zero_float64 zero_float64
               zero_float64 0 0)) in
  exists client probe st',
    NewClient env config = (Some client, None)
    /\ Chat client [Message.mk "user" "hi"] st = Returned probe st'
    /\ ValidateLLM env req st
       = Returned
           match snd probe with
           | None =>
               ValidateLLMAnswer.mk 200 true EmptyString "LLM 配置验证成功"
           | Some e =>
               ValidateLLMAnswer.mk 400 false (Error e)
                 "无法连接到 LLM 服务，请检查配置"
           end st'
    /\ (st' = st
        \/ exists sent,
             st' = set_trace (Call.HttpDo sent :: trace st) st
             /\ ChatBody.messages (Request.Body sent)
                = [Message.mk "user" "hi"]).
Proof.
  intros config.
  destruct (factory_Validate env config) as (c & Hc & Hchat & Hv).
  destruct (factory_Chat env config [Message.mk "user" "hi"] st)
    as (r & st' & E & Hr & Hst).
  rewrite Hchat in E. exists c, r, st'. split; [exact Hc|].
  split; [exact E|]. split; [|exact Hst].
  unfold ValidateLLM. fold config. rewrite Hc, Hv.
  unfold mbind, M_mbind, M_bind. rewrite E.
  destruct Hr as [[resp ->]|[e ->]]; reflexivity.
Qed.

(** ** What [ParseTask] returns *)

(** X30.  Over the factory's client [ParseTask] always returns, and
    what it returns is decided by the one chat it makes, whose messages
    are the system prompt and the user prompt built from the request.
    When the chat returns the error [e], the result is no plan and the
    error "llm chat: e".  When it returns a reply that decodes as it
    is, the result is the decoded plan.  When the reply does not decode
    as it is, the text [extractJSON] takes from it is decoded into the
    plan the first attempt left: if that succeeds the result is that
    plan, and if it fails with [e2] the result is no plan and the error
    "parse plan: e2", the error of the second attempt. *)
Theorem ParseTask_outcomes (env : Env) (config : LLMConfig.t)
  (req : PlanRequest.t) (st : State) :
  let p := factory_planner env config in
  let messages :=
    [Message.mk "system" systemPrompt;
     Message.mk "user" (buildTaskParsePrompt req)] in
  exists chat r st',
    llmClient_Chat p messages st = Returned chat st'
    /\ ParseTask p req st = Returned r st'
    /\ (forall x e,
          chat = (x, Some e) -> r = (None, Some (fmt_Errorf_w "llm chat" e)))
    /\ (forall resp plan,
          chat = (Some resp, None) ->
          Unmarshal_TaskPlan (Response.Content resp) TaskPlan.zero
          = (plan, None) ->
          r = (Some plan, None))
    /\ (forall resp left e1 plan,
          chat = (Some resp, None) ->
          Unmarshal_TaskPlan (Response.Content resp) TaskPlan.zero
          = (left, Some e1) ->
          Unmarshal_TaskPlan (extractJSON (Response.Content resp)) left
          = (plan, None) ->
          r = (Some plan, None))
    /\ (forall resp left e1 plan e2,
          chat = (Some resp, None) ->
          Unmarshal_TaskPlan (Response.Content resp) TaskPlan.zero
          = (left, Some e1) ->
          Unmarshal_TaskPlan (extractJSON (Response.Content resp)) left
          = (plan, Some e2) ->
          r = (None, Some (fmt_Errorf_w "parse plan" e2)))
    /\ chat_result chat
    /\ (st' = st
        \/ exists sent,
             st' = set_trace (Call.HttpDo sent :: trace st) st
             /\ ChatBody.messages (Request.Body sent) = messages).
Proof.
  intros p messages.
  destruct (factory_Chat env config messages st) as (c & st' & E & Hr & Hst).
  fold p in E. unfold ParseTask. fold messages.
  rewrite (bind_Returned _ _ _ _ _ E).
  destruct Hr as [[resp ->]|[e ->]]; cbn beta iota.
  - eexists (Some resp, None), _, st'. split; [exact E|].
    split; [reflexivity|]. unfold plan_of_reply.
    split; [intros x e [= _ H]; discriminate|].
    split; [intros resp' plan [= <-] H; now rewrite H|].
    split; [intros resp' left e1 plan [= <-] H1 H2; now rewrite H1, H2|].
    split; [intros resp' left e1 plan e2 [= <-] H1 H2; now rewrite H1, H2|].
    split; [left; now exists resp|exact Hst].
  - eexists (None, Some e), _, st'. split; [exact E|].
    split; [reflexivity|].
    split; [now intros x e' [= _ <-]|].
    split; [intros; discriminate|]. split; [intros; discriminate|].
    split; [intros; discriminate|].
    split; [right; now exists e|exact Hst].
Qed.
